(** * streamvis: the CBD statistics core

    A shallow embedding of [streamvis/cbd_statistic_tools.py]
    ([NPFIFOArray], [AggregatorWithID]) and of
    [streamvis/jfcbd_statistics_handler.py] ([CBDStatisticsHandler]),
    together with the properties of these classes that the specification
    states and further properties read off the code.

    Python objects are records, methods are computations in a small
    state/exception/log monad: a method that raises keeps the mutations it
    made before the [raise], exactly as the interpreter does. *)

From Stdlib Require Import ZArith QArith.
From stdpp Require Import strings list.

Local Open Scope Z_scope.

(** ** Exceptions, log records and the method monad *)

Inductive exn :=
| NameError (name : string)
| KeyError (key : string)
| IndexError
| ValueError
| TypeError
| ZeroDivisionError
| OverflowError.

Inductive outcome (A : Type) :=
| Ok (a : A)
| Raise (e : exn).
Arguments Ok {A} a.
Arguments Raise {A} e.

#[export] Instance outcome_ret : MRet outcome := λ A a, Ok a.

#[export] Instance outcome_bind : MBind outcome := λ A B f o,
  match o with
  | Ok a => f a
  | Raise e => Raise e
  end.

Inductive loglevel := DEBUG | WARNING.

Record logrec := LogRec { level : loglevel; message : string }.

(** A method on an object of state [S]: outcome, state left behind, and the
    records handed to [logger]. *)
Definition M (S A : Type) : Type := S → outcome A * S * list logrec.

Definition run {S A} (m : M S A) (s : S) : outcome A * S * list logrec := m s.

Definition result {S A} (r : outcome A * S * list logrec) : outcome A := r.1.1.
Definition final {S A} (r : outcome A * S * list logrec) : S := r.1.2.
Definition logged {S A} (r : outcome A * S * list logrec) : list logrec := r.2.

#[export] Instance M_ret {S} : MRet (M S) := λ A a s, (Ok a, s, []).

#[export] Instance M_bind {S} : MBind (M S) := λ A B f m s,
  match m s with
  | (Ok a, s', l) => let '(r, s'', l') := f a s' in (r, s'', l ++ l')
  | (Raise e, s', l) => (Raise e, s', l)
  end.

Definition raise {S A} (e : exn) : M S A := λ s, (Raise e, s, []).
Definition get {S} : M S S := λ s, (Ok s, s, []).
Definition put {S} (s : S) : M S unit := λ _, (Ok tt, s, []).
Definition modify {S} (f : S → S) : M S unit := λ s, (Ok tt, f s, []).
(** An in-place update that may raise; the object is untouched when it does. *)
Definition modify_or_raise {S} (f : S → outcome S) : M S unit := λ s,
  match f s with
  | Ok s' => (Ok tt, s', [])
  | Raise e => (Raise e, s, [])
  end.
Definition log {S} (lv : loglevel) (msg : string) : M S unit :=
  λ s, (Ok tt, s, [LogRec lv msg]).

(** A pure step that may raise. *)
Definition lift {S A} (o : outcome A) : M S A := λ s, (o, s, []).

(** [try m except ValueError: h]. *)
Definition try_except_ValueError {S A} (m : M S A) (h : M S A) : M S A := λ s,
  match m s with
  | (Raise ValueError, s', l) => let '(r, s'', l') := h s' in (r, s'', l ++ l')
  | r => r
  end.

(** Run a method of the attribute selected by [proj]/[upd] of a larger
    object. *)
Definition zoom {S T A} (proj : S → T) (upd : T → S → S) (m : M T A) : M S A :=
  λ s, let '(r, t', l) := m (proj s) in (r, upd t' s, l).

(** [m] keeps the property [P] of the state, also when it raises. *)
Definition preserves {S A} (P : S → Prop) (m : M S A) : Prop :=
  ∀ s, P s → P (final (run m s)).

(** ** Python sequences *)

Section sequences.
Context {A : Type}.

(** [x[i]] for an integer [i]: negative indices count from the end. *)
Definition py_index (n : nat) (i : Z) : option nat :=
  let j := if i <? 0 then i + Z.of_nat n else i in
  if (0 <=? j) && (j <? Z.of_nat n) then Some (Z.to_nat j) else None.

Definition getitem (x : list A) (i : Z) : outcome A :=
  match py_index (length x) i with
  | Some j => match x !! j with Some a => Ok a | None => Raise IndexError end
  | None => Raise IndexError
  end.

Definition setitem (x : list A) (i : Z) (a : A) : outcome (list A) :=
  match py_index (length x) i with
  | Some j => Ok (<[j := a]> x)
  | None => Raise IndexError
  end.

(** The start of a slice [x[i:]] is clamped instead of rejected. *)
Definition slice_start (n : nat) (i : Z) : nat :=
  let j := if i <? 0 then i + Z.of_nat n else i in
  Z.to_nat (Z.min (Z.max 0 j) (Z.of_nat n)).

Definition slice_from (x : list A) (i : Z) : list A :=
  drop (slice_start (length x) i) x.

(** [np.roll(x, shift)] on a one-dimensional array. *)
Definition roll (x : list A) (shift : Z) : list A :=
  let n := length x in
  let offset := Z.to_nat (shift mod Z.of_nat (if n is O then 1%nat else n)) in
  drop (n - offset) x ++ take (n - offset) x.

(** [x[:k] = values] on a one-dimensional array: the slice is clamped to
    the array, and [values] must have its length or be broadcast from one
    element. *)
Definition setitem_prefix (x : list A) (k : nat) (values : list A)
  : outcome (list A) :=
  let m := Nat.min k (length x) in
  if decide (length values = m) then Ok (values ++ drop m x)
  else match values with
       | [v] => Ok (replicate m v ++ drop m x)
       | _ => Raise ValueError
       end.

(** [x[...] = v]. *)
Definition fill (x : list A) (v : A) : list A := replicate (length x) v.

End sequences.

(** *** Arrays of dtype [int]

    numpy's [int] is int64.  Storing a Python int that does not fit raises
    [OverflowError]; the index is resolved first. *)

Definition fits_int64 (z : Z) : bool := (- 2 ^ 63 <=? z) && (z <? 2 ^ 63).

Definition setitem_int64 (x : list Z) (i : Z) (v : Z) : outcome (list Z) :=
  match py_index (length x) i with
  | Some j => if fits_int64 v then Ok (<[j := v]> x) else Raise OverflowError
  | None => Raise IndexError
  end.

(** [np.array([n])] for a Python int [n], stored into an array of dtype
    [int]: an int64 goes in as it is; a larger int below [2 ^ 64] makes an
    array of dtype uint64, whose value wraps around into int64; any other
    int makes an array of Python objects, and storing it raises. *)
Definition int64_of_int (n : Z) : outcome Z :=
  if fits_int64 n then Ok n
  else if (2 ^ 63 <=? n) && (n <? 2 ^ 64) then Ok (n - 2 ^ 64)
  else Raise OverflowError.

(** ** [class NPFIFOArray] *)

Module NPFIFOArray.
Section NPFIFOArray.
(** [T] stands for the numpy scalars of the array's dtype and [ne] for
    their [!=]. *)
Context {T : Type} (ne : T → T → bool).

Record t := Build {
  _x : list T;
  _nan : T;
  last_value : T;
  _aggregate : list T → T;
}.

Definition set_x (v : list T) (self : t) : t :=
  Build v (_nan self) (last_value self) (_aggregate self).
Definition set_last_value (v : T) (self : t) : t :=
  Build (_x self) (_nan self) v (_aggregate self).

Definition __init__ (empty_value : T) (max_span : nat)
    (aggregate : list T → T) : t :=
  Build (replicate max_span empty_value) empty_value empty_value aggregate.

Definition update (values : list T) : M t unit :=
  self ← get;
  modify (set_x (roll (_x self) (Z.of_nat (length values))));;
  self ← get;
  x ← lift (setitem_prefix (_x self) (length values) values);
  modify (set_x x);;
  modify (set_last_value (_aggregate self values)).

(** [update(values)] for values that numpy casts on their way into the
    array: the shapes are matched first, then the slots take [stored], the
    values cast to the dtype of the array (or the cast raises, the array
    left rolled), and the reduction is of the values as they were given.
    [update values] is [update_cast (Ok values) values]. *)
Definition update_cast (stored : outcome (list T)) (values : list T)
  : M t unit :=
  self ← get;
  modify (set_x (roll (_x self) (Z.of_nat (length values))));;
  self ← get;
  lift (setitem_prefix (_x self) (length values) values);;
  stored ← lift stored;
  x ← lift (setitem_prefix (_x self) (length values) stored);
  modify (set_x x);;
  modify (set_last_value (_aggregate self values)).

Definition clear : M t unit :=
  self ← get;
  modify (set_x (fill (_x self) (_nan self))).

Definition __bool__ (self : t) : bool :=
  existsb (λ v, ne v (_nan self)) (_x self).

Definition __call__ (self : t) : list T :=
  filter (λ v, ne v (_nan self) = true) (_x self).

(** [np.min] and [np.max] reduce an array by [np.minimum] and
    [np.maximum], here [minimum] and [maximum] on the scalars; the
    reduction has no identity and raises on an array without elements. *)
Context (minimum maximum : T → T → T).

Definition reduce (op : T → T → T) (a : list T) : outcome T :=
  match a with
  | [] => Raise ValueError
  | v :: a => Ok (foldl op v a)
  end.

Definition min (self : t) : outcome T := reduce minimum (__call__ self).

Definition max (self : t) : outcome T := reduce maximum (__call__ self).

(** Two states of an array with the same number of slots, the same empty
    value and the same reduction. *)
Definition same_shape (a b : t) : Prop :=
  length (_x a) = length (_x b)
  ∧ _nan a = _nan b
  ∧ _aggregate a = _aggregate b.

End NPFIFOArray.
End NPFIFOArray.

(** ** [class AggregatorWithID] *)

Module AggregatorWithID.
Section AggregatorWithID.
Context {T : Type} (ne : T → T → bool).

Record t := Build {
  _x : list T;
  _id : list Z;
  _nan : T;
  last_value : T;
  _aggregate : list T → T;
  last_processed_index : Z;
}.

Definition set_x (v : list T) (self : t) : t :=
  Build v (_id self) (_nan self) (last_value self) (_aggregate self)
        (last_processed_index self).
Definition set_id (v : list Z) (self : t) : t :=
  Build (_x self) v (_nan self) (last_value self) (_aggregate self)
        (last_processed_index self).
Definition set_last_value (v : T) (self : t) : t :=
  Build (_x self) (_id self) (_nan self) v (_aggregate self)
        (last_processed_index self).
Definition set_last_processed_index (v : Z) (self : t) : t :=
  Build (_x self) (_id self) (_nan self) (last_value self) (_aggregate self) v.

Definition __init__ (empty_value : T) (max_span : nat)
    (aggregate : list T → T) : t :=
  Build (replicate max_span empty_value) (replicate max_span 0)
        empty_value empty_value aggregate 0.

Definition update (values : list T) (pulse_id : option Z) : M t unit :=
  match pulse_id with
  | None => log WARNING "Can't update the aggregator: pulse Id is None"
  | Some pulse_id =>
      self ← get;
      (* Only store aggregated value per pulse Id *)
      let value := _aggregate self values in
      modify (λ self, set_x (roll (_x self) (-1)) self);;
      modify_or_raise (λ self,
        x ← setitem (_x self) (-1) value; Ok (set_x x self));;
      modify (set_last_value value);;
      modify (λ self, set_id (roll (_id self) (-1)) self);;
      (* [_id] is of dtype int *)
      modify_or_raise (λ self,
        i ← setitem_int64 (_id self) (-1) pulse_id; Ok (set_id i self));;
      modify (λ self,
        set_last_processed_index (last_processed_index self - 1) self)
  end.

Definition count (self : t) : nat :=
  length (filter (λ v, ne v (_nan self) = true) (_x self)).

Definition clear : M t unit :=
  modify (λ self, set_x (fill (_x self) (_nan self)) self);;
  modify (λ self, set_id (fill (_id self) 0) self);;
  modify (set_last_processed_index 0).

Definition __bool__ (self : t) : bool :=
  existsb (λ v, ne v (_nan self)) (_x self).

Definition __call__ : M t (list T * list Z) :=
  self ← get;
  if negb (__bool__ self) || (last_processed_index self =? 0) then
    mret ([], [])
  else
    let start_id := last_processed_index self in
    modify (set_last_processed_index 0);;
    self ← get;
    mret (slice_from (_x self) start_id, slice_from (_id self) start_id).

(** A client that calls [update] once per frame, each with its pulse id. *)
Fixpoint update_all (frames : list (list T * Z)) : M t unit :=
  match frames with
  | [] => mret tt
  | (values, pulse_id) :: frames =>
      update values (Some pulse_id);; update_all frames
  end.

Definition last : M t (T * Z) :=
  self ← get;
  v ← lift (getitem (_x self) (-1));
  i ← lift (getitem (_id self) (-1));
  mret (v, i).

(** Two states of a buffer with the same number of slots for the values
    and for the identifiers, the same empty value and the same
    reduction. *)
Definition same_shape (a b : t) : Prop :=
  length (_x a) = length (_x b)
  ∧ length (_id a) = length (_id b)
  ∧ _nan a = _nan b
  ∧ _aggregate a = _aggregate b.

End AggregatorWithID.
End AggregatorWithID.

(** ** [class CBDStatisticsHandler] *)

(** *** The values held by the statistics table

    The lists of [self.data] and [self.sum_data] hold Python ints, [np.nan],
    the floats produced by [/] and the string ["Summary"].  A finite float
    is represented by the rational it stands for; rounding is not modelled. *)

Inductive cell :=
| PyInt (z : Z)
| PyFloat (q : Q)
| PyNaN
| PyStr (s : string).

(** [a + k] for an int [k]. *)
Definition py_add (a : cell) (k : Z) : outcome cell :=
  match a with
  | PyInt z => Ok (PyInt (z + k))
  | PyFloat q => Ok (PyFloat (q + inject_Z k))
  | PyNaN => Ok PyNaN
  | PyStr _ => Raise TypeError
  end.

Definition to_Q (a : cell) : option Q :=
  match a with
  | PyInt z => Some (inject_Z z)
  | PyFloat q => Some q
  | _ => None
  end.

Definition is_zero (a : cell) : bool :=
  match to_Q a with
  | Some q => Qeq_bool q 0
  | None => false
  end.

(** [a / b]: true division; a zero divisor raises also under a NaN. *)
Definition py_truediv (a b : cell) : outcome cell :=
  match a, b with
  | PyStr _, _ | _, PyStr _ => Raise TypeError
  | _, _ =>
      if is_zero b then Raise ZeroDivisionError
      else match to_Q a, to_Q b with
           | Some p, Some q => Ok (PyFloat (p / q))
           | _, _ => Ok PyNaN
           end
  end.

(** [c == k] for an int [k]. *)
Definition eq_int (k : Z) (c : cell) : bool :=
  match to_Q c with
  | Some q => Qeq_bool q (inject_Z k)
  | None => false
  end.

(** [l.index(k, start)]: the position in [l] of the first element from
    [start] on that equals [k]. *)
Definition list_index (l : list cell) (k : Z) (start : Z) : outcome Z :=
  let s := slice_start (length l) start in
  match list_find (λ c, eq_int k c = true) (drop s l) with
  | Some (j, _) => Ok (Z.of_nat (s + j))
  | None => Raise ValueError
  end.

(** *** Dictionaries of columns

    [self.data] and [self.sum_data] map a column name to a list.  A Python
    dict keeps its keys in insertion order and the loops over [items()]
    walk it in that order, so a dict is an association list. *)

Abbreviation dict := (list (string * list cell)).

Fixpoint dict_get (d : dict) (key : string) : outcome (list cell) :=
  match d with
  | [] => Raise (KeyError key)
  | (k, val) :: rest => if String.eqb k key then Ok val else dict_get rest key
  end.

(** The list stored under [key] has been mutated to [val]. *)
Fixpoint dict_store (d : dict) (key : string) (val : list cell) : dict :=
  match d with
  | [] => []
  | (k, v) :: rest =>
      if String.eqb k key then (k, val) :: rest
      else (k, v) :: dict_store rest key val
  end.

(** [d[key][ind]]. *)
Definition table_get (d : dict) (key : string) (ind : Z) : outcome cell :=
  val ← dict_get d key; getitem val ind.

(** [d[key][ind] = v]. *)
Definition table_set (d : dict) (key : string) (ind : Z) (v : cell)
  : outcome dict :=
  val ← dict_get d key; val' ← setitem val ind v; Ok (dict_store d key val').

(** [for key, val in d.items(): val.append(f(key))]. *)
Definition append_items (f : string → cell) (d : dict) : dict :=
  map (λ '(key, val), (key, val ++ [f key])) d.

(** The list under [key] ([[]] for a missing key) and its [i]-th element,
    for reading a table in the statements below. *)
Definition col (d : dict) (key : string) : list cell :=
  match dict_get d key with
  | Ok val => val
  | Raise _ => []
  end.

Definition cell_at (d : dict) (key : string) (i : nat) : option cell :=
  col d key !! i.

(** The table [d] after [d[key][i] = f(d[key][i])]. *)
Definition alter_cell (f : cell → cell) (key : string) (i : nat) (d : dict)
  : dict :=
  dict_store d key (alter f i (col d key)).

(** [c + 1] and [a / b] where they do not raise. *)
Definition py_succ (c : cell) : cell :=
  match py_add c 1 with
  | Ok c' => c'
  | Raise _ => c
  end.

Definition py_quot (a b : cell) : cell :=
  match py_truediv a b with
  | Ok c => c
  | Raise _ => PyNaN
  end.

(** In row [j] of the table [d], the hit ratio of the laser state [switch]
    is what [hits / nframes] evaluates to; for a frame count above 0 that is
    the quotient of the two counts. *)
Definition ratio_is_quotient (d : dict) (switch : string) (j : nat) : Prop :=
  ∃ hits nframes ratio,
    cell_at d (switch +:+ "_hits") j = Some hits
    ∧ cell_at d (switch +:+ "_nframes") j = Some nframes
    ∧ cell_at d (switch +:+ "_hits_ratio") j = Some ratio
    ∧ py_truediv hits nframes = Ok ratio
    ∧ ∀ z, nframes = PyInt z →
        0 < z ∧ ∃ y, hits = PyInt y
                     ∧ ratio = PyFloat (inject_Z y / inject_Z z).

(** The names that [parse] reads but that neither [parse] nor the module
    assigns: Python looks them up among the module's globals when the
    statement that reads them runs, and raises [NameError] for a name that
    is not there.  [None] stands for an unbound name. *)
Record globals := Globals {
  g_pulse_id_bin : option Z;
  g_laser_on : option (option bool);
}.

(** The global names of [jfcbd_statistics_handler.py] are its imports,
    [PULSE_ID_STEP], [logger] and the class: neither of the two. *)
Definition PULSE_ID_STEP : Z := 10000.
Definition module_globals : globals := Globals None None.

Definition lookup_name {S A} (name : string) (binding : option A) : M S A :=
  match binding with
  | Some v => mret v
  | None => raise (NameError name)
  end.

(** The metadata dict, one field per key that [parse] reads; [None] is an
    absent key (for ["pulse_id"] also a [None] value). *)
Record Metadata {scalar : Type} := {
  md_is_hit_frame : option bool;
  md_bragg_counts : option (list scalar);
  md_pulse_id : option Z;
  md_number_of_streaks : option Z;
  md_streak_lengths : option (list scalar);
  md_is_good_frame : option bool;
  md_saturated_pixels : option Z;
}.
Arguments Metadata : clear implicits.

(** An image, by its [shape]. *)
Record ndarray := { shape : list nat }.

Module CBDStatisticsHandler.
Section CBDStatisticsHandler.
(** The numpy scalars of the four arrays, with [np.sum], [np.average],
    [np.nan] and the conversion of a Python int. *)
Context {scalar : Type}.
Context (np_sum np_average : list scalar → scalar).
Context (np_nan : scalar) (of_int : Z → scalar).

Record t := Build {
  number_of_streaks : @NPFIFOArray.t scalar;
  streak_lengths : @NPFIFOArray.t scalar;
  bragg_counts : @NPFIFOArray.t scalar;
  bragg_aggregator : @AggregatorWithID.t scalar;
  data : dict;
  sum_data : dict;
}.

Definition set_number_of_streaks v (self : t) : t :=
  Build v (streak_lengths self) (bragg_counts self) (bragg_aggregator self)
        (data self) (sum_data self).
Definition set_streak_lengths v (self : t) : t :=
  Build (number_of_streaks self) v (bragg_counts self) (bragg_aggregator self)
        (data self) (sum_data self).
Definition set_bragg_counts v (self : t) : t :=
  Build (number_of_streaks self) (streak_lengths self) v (bragg_aggregator self)
        (data self) (sum_data self).
Definition set_bragg_aggregator v (self : t) : t :=
  Build (number_of_streaks self) (streak_lengths self) (bragg_counts self) v
        (data self) (sum_data self).
Definition set_data v (self : t) : t :=
  Build (number_of_streaks self) (streak_lengths self) (bragg_counts self)
        (bragg_aggregator self) v (sum_data self).
Definition set_sum_data v (self : t) : t :=
  Build (number_of_streaks self) (streak_lengths self) (bragg_counts self)
        (bragg_aggregator self) (data self) v.

Definition empty_data : dict :=
  [("pulse_id_bins", []); ("nframes", []); ("bad_frames", []);
   ("sat_pix_nframes", []); ("laser_on_nframes", []); ("laser_on_hits", []);
   ("laser_on_hits_ratio", []); ("laser_off_nframes", []);
   ("laser_off_hits", []); ("laser_off_hits_ratio", [])].

Definition __init__ : t :=
  let data := empty_data in
  let sum_data :=
    append_items (λ key,
      if String.eqb key "pulse_id_bins" then PyStr "Summary" else PyInt 0)
      data in
  Build (NPFIFOArray.__init__ (of_int (-1)) (Z.to_nat 5000) np_average)
        (NPFIFOArray.__init__ np_nan (Z.to_nat 50000) np_average)
        (NPFIFOArray.__init__ np_nan (Z.to_nat 50000) np_sum)
        (AggregatorWithID.__init__ np_nan (Z.to_nat 750000) np_sum)
        data sum_data.

(** [self.data[key][ind] += 1; self.sum_data[key][-1] += 1]. *)
Definition _increment (key : string) (ind : Z) : M t unit :=
  modify_or_raise (λ self,
    v ← table_get (data self) key ind;
    v' ← py_add v 1;
    d ← table_set (data self) key ind v';
    Ok (set_data d self));;
  modify_or_raise (λ self,
    v ← table_get (sum_data self) key (-1);
    v' ← py_add v 1;
    d ← table_set (sum_data self) key (-1) v';
    Ok (set_sum_data d self)).

(** [self.data[key][ind] = v]. *)
Definition data_set (key : string) (ind : Z) (v : cell) : M t unit :=
  modify_or_raise (λ self,
    d ← table_set (data self) key ind v; Ok (set_data d self)).

(** The [with self._lock:] block of [parse]: the update of the table of
    pulse-id bins and of its summary row.  [g] resolves the two names the
    block reads without their being assigned. *)
Definition record (g : globals) (metadata : Metadata scalar)
    (is_hit_frame : bool) : M t unit :=
  bin_ind ← try_except_ValueError
    ((* since messages can have mixed pulse_id order, search for the
        current pulse_id_bin in the last 5 entries *)
     self ← get;
     bins ← lift (dict_get (data self) "pulse_id_bins");
     pulse_id_bin ← lookup_name "pulse_id_bin" (g_pulse_id_bin g);
     lift (list_index bins pulse_id_bin (-5)))
    ((* this is a new bin *)
     mret (-1));
  (if bin_ind =? -1 then
     pulse_id_bin ← lookup_name "pulse_id_bin" (g_pulse_id_bin g);
     modify (λ self,
       set_data (append_items (λ key,
         if String.eqb key "pulse_id_bins" then PyInt pulse_id_bin
         else PyInt 0) (data self)) self)
   else mret tt);;
  _increment "nframes" bin_ind;;
  (match md_is_good_frame metadata with
   | Some false => _increment "bad_frames" bin_ind
   | _ => mret tt
   end);;
  (match md_saturated_pixels metadata with
   | Some saturated_pixels =>
       if negb (saturated_pixels =? 0) then
         _increment "sat_pix_nframes" bin_ind
       else mret tt
   | None => data_set "sat_pix_nframes" bin_ind PyNaN
   end);;
  laser_on ← lookup_name "laser_on" (g_laser_on g);
  match laser_on with
  | Some laser_on =>
      let switch := if laser_on : bool then "laser_on" else "laser_off" in
      _increment (switch +:+ "_nframes") bin_ind;;
      (if is_hit_frame then _increment (switch +:+ "_hits") bin_ind
       else mret tt);;
      modify_or_raise (λ self,
        hits ← table_get (data self) (switch +:+ "_hits") bin_ind;
        nframes ← table_get (data self) (switch +:+ "_nframes") bin_ind;
        ratio ← py_truediv hits nframes;
        d ← table_set (data self) (switch +:+ "_hits_ratio") bin_ind ratio;
        Ok (set_data d self));;
      modify_or_raise (λ self,
        hits ← table_get (sum_data self) (switch +:+ "_hits") (-1);
        nframes ← table_get (sum_data self) (switch +:+ "_nframes") (-1);
        ratio ← py_truediv hits nframes;
        d ← table_set (sum_data self) (switch +:+ "_hits_ratio") (-1) ratio;
        Ok (set_sum_data d self))
  | None =>
      data_set "laser_on_nframes" bin_ind PyNaN;;
      data_set "laser_on_hits" bin_ind PyNaN;;
      data_set "laser_on_hits_ratio" bin_ind PyNaN;;
      data_set "laser_off_nframes" bin_ind PyNaN;;
      data_set "laser_off_hits" bin_ind PyNaN;;
      data_set "laser_off_hits_ratio" bin_ind PyNaN
  end.

(** [parse(self, metadata, image)], with the module's globals [g]. *)
Definition parse (g : globals) (metadata : Metadata scalar) (image : ndarray)
  : M t unit :=
  let is_hit_frame := default false (md_is_hit_frame metadata) in
  if decide (shape image = [2; 2]%nat) then
    log DEBUG "Dummy, skipping"
  else
    (* Update Bragg aggregator with hits and non-hits alike *)
    let bragg_counts_ := default [of_int 0] (md_bragg_counts metadata) in
    let pulse_id := md_pulse_id metadata in
    zoom bragg_aggregator set_bragg_aggregator
      (AggregatorWithID.update bragg_counts_ pulse_id);;
    if negb is_hit_frame then
      log DEBUG "Not hit frame, skipping"
    else
      zoom bragg_counts set_bragg_counts
        (NPFIFOArray.update [np_sum bragg_counts_]);;
      let number_of_streaks_ := default 0 (md_number_of_streaks metadata) in
      (* [number_of_streaks] is of dtype int *)
      zoom number_of_streaks set_number_of_streaks
        (NPFIFOArray.update_cast
           (stored ← int64_of_int number_of_streaks_; Ok [of_int stored])
           [of_int number_of_streaks_]);;
      let streak_lengths_ := default [of_int 0] (md_streak_lengths metadata) in
      zoom streak_lengths set_streak_lengths
        (NPFIFOArray.update streak_lengths_);;
      record g metadata is_hit_frame.

(** [for key, val in self.sum_data.items(): if key != "pulse_id_bins":
    val[0] = 0], stopping at the first list that has no element. *)
Fixpoint reset_items (d : dict) : outcome unit * dict :=
  match d with
  | [] => (Ok tt, [])
  | (key, val) :: rest =>
      if negb (String.eqb key "pulse_id_bins") then
        match setitem val 0 (PyInt 0) with
        | Ok val' =>
            let '(r, rest') := reset_items rest in (r, (key, val') :: rest')
        | Raise e => (Raise e, d)
        end
      else
        let '(r, rest') := reset_items rest in (r, (key, val) :: rest')
  end.

Definition reset_sum_data : M t unit := λ self,
  let '(r, d) := reset_items (sum_data self) in (r, set_sum_data d self, []).

Definition reset : M t unit :=
  (* for val in self.data.values(): val.clear() *)
  modify (λ self, set_data (map (λ '(key, _), (key, [])) (data self)) self);;
  reset_sum_data.

Definition clear : M t unit :=
  zoom number_of_streaks set_number_of_streaks NPFIFOArray.clear;;
  zoom streak_lengths set_streak_lengths NPFIFOArray.clear;;
  zoom bragg_counts set_bragg_counts NPFIFOArray.clear;;
  zoom bragg_aggregator set_bragg_aggregator AggregatorWithID.clear.

(** The four arrays of a handler. *)
Definition buffers (self : t) :=
  (number_of_streaks self, streak_lengths self, bragg_counts self,
   bragg_aggregator self).

(** *** The states a handler goes through

    [parse] is taken with every binding of the two names it reads without
    assigning them: the states of the module as it is written, in which
    they are unbound, are among these. *)

Inductive reachable : t → Prop :=
| reachable_init : reachable __init__
| reachable_parse g metadata image self :
    reachable self → reachable (final (run (parse g metadata image) self))
| reachable_reset self :
    reachable self → reachable (final (run reset self))
| reachable_clear self :
    reachable self → reachable (final (run clear self)).

(** *** The table without the exceptions

    What the steps of [record] leave behind when they do not raise:
    [incr] for [_increment] and [record_counts], [record_laser] for the two
    halves of the block, before and after it reads [laser_on]. *)

Definition incr (key : string) (i : nat) (self : t) : t :=
  let self := set_data (alter_cell py_succ key i (data self)) self in
  set_sum_data (alter_cell py_succ key 0 (sum_data self)) self.

Definition mark (key : string) (i : nat) (self : t) : t :=
  set_data (alter_cell (λ _, PyNaN) key i (data self)) self.

(** The row of the bin of [pulse_id_bin]: the one found among the last
    five, or else the one that is appended. *)
Definition bin_row (pulse_id_bin : Z) (d : dict) : nat :=
  match list_index (col d "pulse_id_bins") pulse_id_bin (-5) with
  | Ok z => Z.to_nat z
  | Raise _ => length (col d "pulse_id_bins")
  end.

Definition with_bin (pulse_id_bin : Z) (d : dict) : dict :=
  match list_index (col d "pulse_id_bins") pulse_id_bin (-5) with
  | Ok _ => d
  | Raise _ =>
      append_items (λ key,
        if String.eqb key "pulse_id_bins" then PyInt pulse_id_bin
        else PyInt 0) d
  end.

Definition record_counts (pulse_id_bin : Z) (metadata : Metadata scalar)
    (self : t) : t :=
  let i := bin_row pulse_id_bin (data self) in
  let self := set_data (with_bin pulse_id_bin (data self)) self in
  let self := incr "nframes" i self in
  let self :=
    match md_is_good_frame metadata with
    | Some false => incr "bad_frames" i self
    | _ => self
    end in
  match md_saturated_pixels metadata with
  | Some saturated_pixels =>
      if negb (saturated_pixels =? 0) then incr "sat_pix_nframes" i self
      else self
  | None => mark "sat_pix_nframes" i self
  end.

Definition recompute_ratio (switch : string) (i : nat) (d : dict) : dict :=
  alter_cell (λ _,
    py_quot (default PyNaN (cell_at d (switch +:+ "_hits") i))
            (default PyNaN (cell_at d (switch +:+ "_nframes") i)))
    (switch +:+ "_hits_ratio") i d.

Definition record_laser (laser_on : option bool) (is_hit_frame : bool)
    (i : nat) (self : t) : t :=
  match laser_on with
  | Some laser_on =>
      let switch := if laser_on : bool then "laser_on" else "laser_off" in
      let self := incr (switch +:+ "_nframes") i self in
      let self :=
        if is_hit_frame then incr (switch +:+ "_hits") i self else self in
      let self := set_data (recompute_ratio switch i (data self)) self in
      set_sum_data (recompute_ratio switch 0 (sum_data self)) self
  | None =>
      mark "laser_off_hits_ratio" i
        (mark "laser_off_hits" i
          (mark "laser_off_nframes" i
            (mark "laser_on_hits_ratio" i
              (mark "laser_on_hits" i
                (mark "laser_on_nframes" i self)))))
  end.


(** Whether a call of [record] reaches an [_increment] of the counter
    [key]: in the first half of the block, in the half that follows the
    reading of [laser_on], in the block. *)
Definition counts_increment (metadata : Metadata scalar) (key : string)
  : bool :=
  String.eqb key "nframes"
  || String.eqb key "bad_frames"
     && match md_is_good_frame metadata with
        | Some false => true
        | _ => false
        end
  || String.eqb key "sat_pix_nframes"
     && match md_saturated_pixels metadata with
        | Some saturated_pixels => negb (saturated_pixels =? 0)
        | None => false
        end.

Definition laser_increment (laser_on : option bool) (is_hit_frame : bool)
    (key : string) : bool :=
  match laser_on with
  | Some laser_on =>
      let switch := if laser_on : bool then "laser_on" else "laser_off" in
      String.eqb key (switch +:+ "_nframes")
      || is_hit_frame && String.eqb key (switch +:+ "_hits")
  | None => false
  end.

Definition increments (g : globals) (metadata : Metadata scalar)
    (is_hit_frame : bool) (key : string) : bool :=
  match g_pulse_id_bin g, g_laser_on g with
  | None, _ => false
  | Some _, None => counts_increment metadata key
  | Some _, Some laser_on =>
      counts_increment metadata key
      || laser_increment laser_on is_hit_frame key
  end.

(** *** The invariant of the table *)

Definition columns : list string := empty_data.*1.

Definition counters : list string :=
  ["nframes"; "bad_frames"; "sat_pix_nframes"; "laser_on_nframes";
   "laser_on_hits"; "laser_off_nframes"; "laser_off_hits"].

(** A counter of a bin is a count or the not-applicable marker; a counter
    of the summary row is a count. *)
Definition is_counter (c : cell) : Prop :=
  match c with
  | PyInt z => 0 ≤ z
  | PyNaN => True
  | _ => False
  end.

Definition is_count (c : cell) : Prop :=
  match c with
  | PyInt z => 0 ≤ z
  | _ => False
  end.

Record wf_data (d : dict) : Prop := {
  wf_keys : d.*1 = columns;
  wf_rows : ∀ key, key ∈ columns →
    length (col d key) = length (col d "pulse_id_bins");
  wf_counters : ∀ key, key ∈ counters → Forall is_counter (col d key);
  (* a marked hit count or ratio goes with a marked frame count *)
  wf_marked : ∀ switch i, switch ∈ ["laser_on"; "laser_off"] →
    cell_at d (switch +:+ "_hits") i = Some PyNaN
    ∨ cell_at d (switch +:+ "_hits_ratio") i = Some PyNaN →
    cell_at d (switch +:+ "_nframes") i = Some PyNaN;
}.

Record wf_sum_data (d : dict) : Prop := {
  wf_sum_keys : d.*1 = columns;
  wf_sum_rows : ∀ key, key ∈ columns → length (col d key) = 1%nat;
  wf_sum_key : col d "pulse_id_bins" = [PyStr "Summary"];
  wf_sum_counters : ∀ key, key ∈ counters → Forall is_count (col d key);
}.

Definition wf (self : t) : Prop :=
  wf_data (data self) ∧ wf_sum_data (sum_data self).

(** *** The invariant of the arrays

    The number of slots, the empty value and the reduction of an array
    are those that its constructor was given. *)

Definition wf_buffers (self : t) : Prop :=
  NPFIFOArray.same_shape (number_of_streaks self) (number_of_streaks __init__)
  ∧ NPFIFOArray.same_shape (streak_lengths self) (streak_lengths __init__)
  ∧ NPFIFOArray.same_shape (bragg_counts self) (bragg_counts __init__)
  ∧ AggregatorWithID.same_shape (bragg_aggregator self)
      (bragg_aggregator __init__).

(** In the table, the hit count of a laser state is its frame count. *)
Definition hits_are_frames (d : dict) : Prop :=
  ∀ switch i, switch ∈ ["laser_on"; "laser_off"] →
    cell_at d (switch +:+ "_hits") i = cell_at d (switch +:+ "_nframes") i.

End CBDStatisticsHandler.
End CBDStatisticsHandler.

(** ** Concrete scalars for the examples

    Integers with the sentinel [-1], as in [number_of_streaks], and floats
    as rationals with [None] for NaN. *)

Definition Z_ne (a b : Z) : bool := negb (a =? b).
Definition Z_sum (l : list Z) : Z := foldr Z.add 0 l.

Definition num : Type := option Q.
(** [a != b], [np.minimum] and [np.maximum] on floats: NaN differs from
    every float, itself included, and the two reductions hand it on. *)
Definition num_ne (a b : num) : bool :=
  match a, b with
  | Some x, Some y => negb (Qeq_bool x y)
  | _, _ => true
  end.
Definition num_minimum (a b : num) : num :=
  x ← a; y ← b; Some (if Qle_bool x y then x else y).
Definition num_maximum (a b : num) : num :=
  x ← a; y ← b; Some (if Qle_bool x y then y else x).
Definition num_sum (l : list num) : num :=
  foldr (λ a acc, x ← a; y ← acc; Some (x + y)%Q) (Some 0%Q) l.
Definition num_average (l : list num) : num :=
  match l with
  | [] => None
  | _ => s ← num_sum l; Some (s / inject_Z (Z.of_nat (length l)))%Q
  end.
Definition num_of_int (z : Z) : num := Some (inject_Z z).

(** ** Examples *)

(** An array of three slots that holds 4 and 5, and an aggregator of two
    slots after one update with pulse id 17. *)
Definition example_fifo : @NPFIFOArray.t Z :=
  NPFIFOArray.Build [4; 5; -1] (-1) 9 Z_sum.

Definition example_aggregator : @AggregatorWithID.t Z :=
  AggregatorWithID.Build [-1; 3] [0; 17] (-1) 3 Z_sum (-1).

(** An array of three float slots with the empty value NaN that holds one
    value, and four frames with their pulse ids. *)
Definition example_float_fifo : @NPFIFOArray.t num :=
  NPFIFOArray.Build [Some 2%Q; None; None] None (Some 2%Q) num_average.

Definition example_frames : list (list Z * Z) :=
  [([1; 2], 10); ([3], 11); ([4], 12); ([5; 5], 13)].

(** An aggregator of three slots as created: every slot holds the empty
    value. *)
Definition example_new_aggregator : @AggregatorWithID.t Z :=
  AggregatorWithID.__init__ (-1) 3 Z_sum.

(** A handler as created, and after a hit frame for which [pulse_id_bin]
    is 1 and both the saturated-pixel count and the laser flag are
    absent. *)
Definition example_handler : @CBDStatisticsHandler.t num :=
  CBDStatisticsHandler.__init__ num_sum num_average None num_of_int.

Definition example_metadata : Metadata num :=
  {| md_is_hit_frame := Some true; md_bragg_counts := Some [Some 2%Q; Some 3%Q];
     md_pulse_id := Some 12345; md_number_of_streaks := Some 2;
     md_streak_lengths := Some [Some 7%Q; Some 9%Q];
     md_is_good_frame := Some false; md_saturated_pixels := None |}.

Definition example_image : ndarray := {| shape := [512; 1024]%nat |}.

Definition example_marked_handler : @CBDStatisticsHandler.t num :=
  final (run (CBDStatisticsHandler.parse num_sum num_of_int
                (Globals (Some 1) (Some None)) example_metadata example_image)
             example_handler).

(** A hit frame with one streak length more than [streak_lengths] has
    slots. *)
Definition example_long_metadata : Metadata num :=
  {| md_is_hit_frame := Some true; md_bragg_counts := None;
     md_pulse_id := Some 12347; md_number_of_streaks := Some 50001;
     md_streak_lengths := Some (replicate (Z.to_nat 50001) (Some 1%Q));
     md_is_good_frame := None; md_saturated_pixels := None |}.

(** A later frame of the same bin with three saturated pixels. *)
Definition example_saturated_metadata : Metadata num :=
  {| md_is_hit_frame := Some true; md_bragg_counts := None;
     md_pulse_id := Some 12346; md_number_of_streaks := None;
     md_streak_lengths := None; md_is_good_frame := None;
     md_saturated_pixels := Some 3 |}.

(** * Properties *)

(** ** The method monad *)

Lemma run_bind {S A B} (m : M S A) (f : A → M S B) (s : S) :
  run (m ≫= f) s =
  match run m s with
  | (Ok a, s', l) => let '(r, s'', l') := run (f a) s' in (r, s'', l ++ l')
  | (Raise e, s', l) => (Raise e, s', l)
  end.
Proof. reflexivity. Qed.

(** A step that returns without logging hands its state to the rest. *)
Lemma run_bind_Ok {S A B} (m : M S A) (f : A → M S B) (s s' : S) (a : A) :
  run m s = (Ok a, s', []) → run (m ≫= f) s = run (f a) s'.
Proof.
  intros Hm. rewrite run_bind, Hm.
  destruct (run (f a) s') as [[r s''] l']. reflexivity.
Qed.

(** The same for a step that logged: the log aside, the rest decides. *)
Lemma run_bind_Ok_logged {S A B} (m : M S A) (f : A → M S B) (s s' : S) a l :
  run m s = (Ok a, s', l) →
  result (run (m ≫= f) s) = result (run (f a) s')
  ∧ final (run (m ≫= f) s) = final (run (f a) s').
Proof.
  intros Hm. rewrite run_bind, Hm.
  destruct (run (f a) s') as [[r s''] l']. done.
Qed.

Lemma run_bind_Raise {S A B} (m : M S A) (f : A → M S B) (s s' : S) e l :
  run m s = (Raise e, s', l) → run (m ≫= f) s = (Raise e, s', l).
Proof. intros Hm. rewrite run_bind, Hm. reflexivity. Qed.

Lemma run_zoom {S T A} (proj : S → T) (upd : T → S → S) (m : M T A) (s : S) :
  run (zoom proj upd m) s =
  (result (run m (proj s)), upd (final (run m (proj s))) s,
   logged (run m (proj s))).
Proof.
  unfold run, zoom, result, final, logged.
  destruct (m (proj s)) as [[r t'] l]. reflexivity.
Qed.

(** *** Properties that every step keeps *)

Section preserves.
Context {S : Type} (P : S → Prop).

Lemma preserves_bind {A B} (m : M S A) (f : A → M S B) :
  preserves P m → (∀ a, preserves P (f a)) → preserves P (m ≫= f).
Proof.
  intros Hm Hf s Hs. rewrite run_bind.
  specialize (Hm s Hs). destruct (run m s) as [[[a|e] s'] l]; [|done].
  specialize (Hf a s' Hm). by destruct (run (f a) s') as [[r s''] l'].
Qed.

Lemma preserves_pure {A} (m : M S A) :
  (∀ s, final (run m s) = s) → preserves P m.
Proof. intros Hm s Hs. by rewrite Hm. Qed.

Lemma preserves_mret {A} (a : A) : preserves P (mret a).
Proof. by apply preserves_pure. Qed.

Lemma preserves_raise {A} e : preserves P (raise (A := A) e).
Proof. by apply preserves_pure. Qed.

Lemma preserves_get : preserves P get.
Proof. by apply preserves_pure. Qed.

Lemma preserves_lift {A} (o : outcome A) : preserves P (lift o).
Proof. by apply preserves_pure. Qed.

Lemma preserves_log lv msg : preserves P (log lv msg).
Proof. by apply preserves_pure. Qed.

Lemma preserves_modify (f : S → S) :
  (∀ s, P s → P (f s)) → preserves P (modify f).
Proof. intros Hf s Hs. by apply Hf. Qed.

Lemma preserves_modify_or_raise (f : S → outcome S) :
  (∀ s s', P s → f s = Ok s' → P s') → preserves P (modify_or_raise f).
Proof.
  intros Hf s Hs. unfold run, modify_or_raise, final.
  destruct (f s) as [s'|e] eqn:Hfs; [|done]. by eapply Hf.
Qed.

Lemma preserves_try_except {A} (m h : M S A) :
  preserves P m → preserves P h → preserves P (try_except_ValueError m h).
Proof.
  intros Hm Hh s Hs. unfold run, try_except_ValueError.
  specialize (Hm s Hs). unfold run in Hm.
  destruct (m s) as [[[a|e] s'] l]; [done|].
  destruct e; try done.
  specialize (Hh s' Hm). unfold run in Hh.
  by destruct (h s') as [[r s''] l'].
Qed.

(** A method of an attribute whose value [P] does not look at. *)
Lemma preserves_zoom {T A} (proj : S → T) (upd : T → S → S) (m : M T A) :
  (∀ t s, P s → P (upd t s)) → preserves P (zoom proj upd m).
Proof. intros Hupd s Hs. rewrite run_zoom. by apply Hupd. Qed.

End preserves.

(** ** Python sequences *)

Section sequences_facts.
Context {A : Type}.
Implicit Types (x : list A).

Lemma py_index_last (n : nat) : (0 < n)%nat → py_index n (-1) = Some (n - 1)%nat.
Proof.
  intros Hn. unfold py_index. simpl.
  destruct (0 <=? -1 + Z.of_nat n) eqn:H1, (-1 + Z.of_nat n <? Z.of_nat n) eqn:H2;
    simpl; try lia.
  f_equal. lia.
Qed.

Lemma py_index_nat (n i : nat) : (i < n)%nat → py_index n (Z.of_nat i) = Some i.
Proof.
  intros Hi. unfold py_index.
  destruct (Z.of_nat i <? 0) eqn:H0; [lia|].
  destruct (0 <=? Z.of_nat i) eqn:H1, (Z.of_nat i <? Z.of_nat n) eqn:H2;
    simpl; try lia.
  f_equal. lia.
Qed.

Lemma py_index_lt (n : nat) (i : Z) (j : nat) :
  py_index n i = Some j → (j < n)%nat.
Proof.
  unfold py_index. intros H.
  destruct (i <? 0) eqn:H0;
    match type of H with (if ?a && ?b then _ else _) = _ =>
      destruct a eqn:H1, b eqn:H2 end; simpl in H; inversion H; lia.
Qed.

Lemma length_roll x shift : length (roll x shift) = length x.
Proof.
  unfold roll. rewrite length_app, length_drop, length_take. lia.
Qed.

(** Rolling by [k ≤ len(x)] places moves the last [k] elements to the
    front. *)
Lemma roll_right x (k : nat) :
  (k ≤ length x)%nat →
  roll x (Z.of_nat k) = drop (length x - k) x ++ take (length x - k) x.
Proof.
  intros Hk. unfold roll.
  destruct (length x) as [|n] eqn:Hn.
  - assert (k = 0)%nat as -> by lia. reflexivity.
  - destruct (decide (k = S n)) as [->|Hne].
    + rewrite Z_mod_same_full. simpl Z.to_nat.
      replace (S n - 0)%nat with (S n) by lia.
      replace (S n - S n)%nat with 0%nat by lia.
      rewrite drop_ge, take_ge by lia. rewrite drop_0, take_0.
      rewrite app_nil_r. reflexivity.
    + rewrite Z.mod_small by lia. rewrite Nat2Z.id. reflexivity.
Qed.

(** Rolling by [-1] moves the first element to the end. *)
Lemma roll_left_1 x : roll x (-1) = drop 1 x ++ take 1 x.
Proof.
  unfold roll. destruct x as [|a x]; [reflexivity|].
  cbn [length].
  replace (Z.to_nat (-1 mod Z.of_nat (S (length x)))) with (length x).
  - replace (S (length x) - length x)%nat with 1%nat by lia. reflexivity.
  - destruct (decide (length x = 0%nat)) as [->|Hne]; [reflexivity|].
    rewrite <- (Z.mod_add _ 1) by lia.
    rewrite Z.mod_small by lia. lia.
Qed.

Lemma setitem_last x a :
  x ≠ [] → setitem x (-1) a = Ok (take (length x - 1) x ++ [a]).
Proof.
  intros Hx. unfold setitem.
  assert (0 < length x)%nat as Hlen by (destruct x; [done | simpl; lia]).
  rewrite py_index_last by done. f_equal.
  apply list_eq. intros i.
  destruct (decide (i = length x - 1)%nat) as [->|Hne].
  - rewrite list_lookup_insert_eq by lia.
    rewrite lookup_app_r by (rewrite length_take; lia).
    rewrite length_take. replace (length x - 1 - (length x - 1) `min` length x)%nat with 0%nat by lia.
    reflexivity.
  - rewrite list_lookup_insert_ne by done.
    destruct (decide (i < length x - 1)%nat).
    + rewrite lookup_app_l by (rewrite length_take; lia).
      rewrite lookup_take_lt by lia. reflexivity.
    + rewrite lookup_ge_None_2 by lia.
      rewrite lookup_ge_None_2; [done|].
      rewrite length_app, length_take. simpl. lia.
Qed.

Lemma getitem_last x a : getitem (x ++ [a]) (-1) = Ok a.
Proof.
  unfold getitem. rewrite py_index_last by (rewrite length_app; simpl; lia).
  rewrite length_app. simpl.
  replace (length x + 1 - 1)%nat with (length x + 0)%nat by lia.
  rewrite lookup_app_r by lia.
  replace (length x + 0 - length x)%nat with 0%nat by lia. reflexivity.
Qed.

End sequences_facts.

Lemma int64_of_int_Ok (n : Z) :
  - 2 ^ 63 ≤ n < 2 ^ 64 →
  int64_of_int n = Ok (if fits_int64 n then n else n - 2 ^ 64).
Proof.
  intros Hn. unfold int64_of_int. destruct (fits_int64 n) eqn:Hfits; [done|].
  unfold fits_int64 in Hfits.
  destruct (Z.leb_spec (2 ^ 63) n), (Z.ltb_spec n (2 ^ 64)); try done; lia.
Qed.

Lemma int64_of_int_overflow (n : Z) :
  ¬ (- 2 ^ 63 ≤ n < 2 ^ 64) → int64_of_int n = Raise OverflowError.
Proof.
  intros Hn. unfold int64_of_int, fits_int64.
  destruct (Z.leb_spec (- 2 ^ 63) n), (Z.ltb_spec n (2 ^ 63)),
    (Z.leb_spec (2 ^ 63) n), (Z.ltb_spec n (2 ^ 64)); try done; lia.
Qed.

Lemma setitem_int64_fits (x : list Z) (i v : Z) :
  fits_int64 v = true → setitem_int64 x i v = setitem x i v.
Proof.
  intros Hv. unfold setitem_int64, setitem. by rewrite Hv.
Qed.

Lemma setitem_int64_overflow (x : list Z) (v : Z) :
  x ≠ [] → fits_int64 v = false → setitem_int64 x (-1) v = Raise OverflowError.
Proof.
  intros Hx Hv. unfold setitem_int64.
  rewrite py_index_last by (destruct x; [done|cbn; lia]). by rewrite Hv.
Qed.

(** ** [NPFIFOArray] *)

Section NPFIFOArray_facts.
Context {T : Type}.
Import NPFIFOArray.
Implicit Types (self : @NPFIFOArray.t T) (batch : list T).

Lemma NPFIFOArray_run_update self batch :
  (length batch ≤ length (_x self))%nat →
  run (update batch) self =
  (Ok tt,
   Build (batch ++ take (length (_x self) - length batch) (_x self))
         (_nan self) (_aggregate self batch) (_aggregate self),
   []).
Proof.
  intros Hlen. unfold update, run, mbind, M_bind, get, modify, lift.
  cbn [_x set_x]. rewrite roll_right by done.
  unfold setitem_prefix.
  rewrite length_app, length_drop, length_take.
  rewrite decide_True by lia.
  rewrite Nat.min_l by lia.
  replace (length batch) with
    (length (drop (length (_x self) - length batch) (_x self))) at 3
    by (rewrite length_drop; lia).
  rewrite drop_app_length. reflexivity.
Qed.

(** One value that the array casts: the slot takes the cast value,
    [last_value] the reduction of the value as given. *)
Lemma NPFIFOArray_run_update_cast self (v stored : T) :
  _x self ≠ [] →
  run (update_cast (Ok [stored]) [v]) self =
  (Ok tt,
   Build (stored :: take (length (_x self) - 1) (_x self))
         (_nan self) (_aggregate self [v]) (_aggregate self),
   []).
Proof.
  intros Hx.
  assert (1 ≤ length (_x self))%nat as Hlen
    by (destruct (_x self); [done | cbn; lia]).
  unfold update_cast, run, mbind, M_bind, get, modify, lift.
  cbn [_x set_x length]. rewrite roll_right by done.
  unfold setitem_prefix.
  rewrite length_app, length_drop, length_take. cbn [length].
  rewrite decide_True by lia.
  cbn [fst snd]. rewrite decide_True by lia.
  rewrite Nat.min_l by lia.
  replace 1%nat with
    (length (drop (length (_x self) - 1) (_x self))) at 3
    by (rewrite length_drop; lia).
  rewrite drop_app_length. reflexivity.
Qed.

(** One value that the dtype of the array cannot hold: the array has
    been rolled when the store raises, and [last_value] is not set. *)
Lemma NPFIFOArray_run_update_cast_Raise self (v : T) e :
  run (update_cast (Raise e) [v]) self =
  (Raise e, set_x (roll (_x self) 1) self, []).
Proof.
  unfold update_cast, run, mbind, M_bind, get, modify, lift.
  cbn [_x set_x length]. unfold setitem_prefix.
  by case_decide.
Qed.

(** C2. For a non-empty batch of at most capacity values, [update]
    returns normally, keeps the number of slots, moves every earlier
    value [len(batch)] slots to the right (those that would leave the
    array, the oldest ones, are dropped), writes the batch in order to
    the first [len(batch)] slots and sets [last_value] to the configured
    reduction of the batch. *)
Theorem NPFIFOArray_update_shifts self batch :
  batch ≠ [] →
  (length batch ≤ length (_x self))%nat →
  let r := run (update batch) self in
  let k := length batch in
  let n := length (_x self) in
  result r = Ok tt
  ∧ length (_x (final r)) = n
  ∧ (∀ i : nat, (i + k < n)%nat → _x (final r) !! (i + k)%nat = _x self !! i)
  ∧ take k (_x (final r)) = batch
  ∧ drop k (_x (final r)) = take (n - k) (_x self)
  ∧ last_value (final r) = _aggregate self batch
  ∧ _nan (final r) = _nan self
  ∧ _aggregate (final r) = _aggregate self.
Proof.
  intros _ Hlen r k n. subst r.
  rewrite NPFIFOArray_run_update by done.
  unfold result, final. cbn [fst snd _x last_value _nan _aggregate].
  split_and!; try reflexivity.
  - rewrite length_app, length_take. lia.
  - intros i Hi. rewrite lookup_app_r by lia.
    replace (i + k - length batch)%nat with i by lia.
    rewrite lookup_take_lt by lia. reflexivity.
  - apply take_app_length.
  - apply drop_app_length.
Qed.

End NPFIFOArray_facts.

(** ** [AggregatorWithID] *)

Section AggregatorWithID_facts.
Context {T : Type} (ne : T → T → bool).
Import AggregatorWithID.
Implicit Types (self : @AggregatorWithID.t T).

(** C6. With [pulse_id] [None], [update] hands one warning to the logger
    and returns: the values, the identifiers, [last_value], the cursor
    [last_processed_index] (the whole object) are as they were. *)
Theorem AggregatorWithID_update_None self (values : list T) :
  run (update values None) self =
  (Ok tt, self,
   [LogRec WARNING "Can't update the aggregator: pulse Id is None"]).
Proof. reflexivity. Qed.

Lemma AggregatorWithID_run_update self (values : list T) (pulse_id : Z) :
  _x self ≠ [] → _id self ≠ [] → fits_int64 pulse_id = true →
  run (update values (Some pulse_id)) self =
  (Ok tt,
   Build (drop 1 (_x self) ++ [_aggregate self values])
         (drop 1 (_id self) ++ [pulse_id])
         (_nan self) (_aggregate self values) (_aggregate self)
         (last_processed_index self - 1),
   []).
Proof.
  intros Hx Hi Hfits.
  assert (∀ {B} (l : list B) (b : B), l ≠ [] →
    setitem (roll l (-1)) (-1) b = Ok (drop 1 l ++ [b])) as Hset.
  { intros B l b Hl. rewrite setitem_last.
    - rewrite length_roll, roll_left_1. f_equal. f_equal.
      destruct l as [|a l]; [done|]. simpl.
      rewrite Nat.sub_0_r, drop_0.
      rewrite take_app_length'; [done | reflexivity].
    - intros Hr. apply (f_equal length) in Hr. rewrite length_roll in Hr.
      destruct l; [done | discriminate]. }
  unfold update, run, mbind, M_bind, get, modify, modify_or_raise.
  cbn [_x _id set_x set_id set_last_value set_last_processed_index
       last_value _aggregate _nan last_processed_index].
  unfold mbind, outcome_bind.
  rewrite (Hset _ _ _ Hx). cbn [_x _id set_x set_id _nan last_value
    _aggregate last_processed_index].
  rewrite setitem_int64_fits, (Hset _ _ _ Hi) by done. reflexivity.
Qed.

(** A pulse id that does not fit the identifiers' dtype: the value has
    been stored and the identifiers rolled when the store of the id
    raises, and the cursor has not moved. *)
Lemma AggregatorWithID_run_update_overflow self (values : list T)
    (pulse_id : Z) :
  _x self ≠ [] → _id self ≠ [] → fits_int64 pulse_id = false →
  run (update values (Some pulse_id)) self =
  (Raise OverflowError,
   Build (drop 1 (_x self) ++ [_aggregate self values])
         (roll (_id self) (-1))
         (_nan self) (_aggregate self values) (_aggregate self)
         (last_processed_index self),
   []).
Proof.
  intros Hx Hi Hfits.
  assert (setitem (roll (_x self) (-1)) (-1) (_aggregate self values)
          = Ok (drop 1 (_x self) ++ [_aggregate self values])) as Hset.
  { rewrite setitem_last.
    - rewrite length_roll, roll_left_1. f_equal. f_equal.
      destruct (_x self) as [|a l]; [done|]. simpl.
      rewrite Nat.sub_0_r, drop_0.
      rewrite take_app_length'; [done | reflexivity].
    - intros Hr. apply (f_equal length) in Hr. rewrite length_roll in Hr.
      destruct (_x self); [done | discriminate]. }
  unfold update, run, mbind, M_bind, get, modify, modify_or_raise.
  cbn [_x _id set_x set_id set_last_value set_last_processed_index
       last_value _aggregate _nan last_processed_index].
  unfold mbind, outcome_bind.
  rewrite Hset. cbn [_x _id set_x set_id _nan last_value
    _aggregate last_processed_index].
  rewrite setitem_int64_overflow; [reflexivity| |done].
  intros Hr. apply (f_equal length) in Hr. rewrite length_roll in Hr.
  destruct (_id self); [done | discriminate].
Qed.

Lemma AggregatorWithID_run_call self :
  run (__call__ ne) self =
  if negb (__bool__ ne self) || (last_processed_index self =? 0) then
    (Ok ([], []), self, [])
  else
    (Ok (slice_from (_x self) (last_processed_index self),
         slice_from (_id self) (last_processed_index self)),
     set_last_processed_index 0 self, []).
Proof.
  unfold __call__, run, mbind, M_bind, get.
  destruct (negb (__bool__ ne self) || (last_processed_index self =? 0));
    reflexivity.
Qed.


(** A cursor of [-k] selects the [k] newest slots. *)
Lemma slice_from_neg {B} (l : list B) (k : nat) :
  (0 < k ≤ length l)%nat →
  slice_from l (- Z.of_nat k) = drop (length l - k) l.
Proof.
  intros Hk. unfold slice_from, slice_start. f_equal.
  destruct (Z.ltb_spec (- Z.of_nat k) 0); lia.
Qed.

(** The state after a run of updates: every update drops the oldest slot
    and appends the aggregate and the pulse id of its frame. *)
Lemma AggregatorWithID_run_update_all self (frames : list (list T * Z)) :
  _x self ≠ [] → length (_x self) = length (_id self) →
  Forall (λ f, fits_int64 f.2 = true) frames →
  let self' := final (run (update_all frames) self) in
  result (run (update_all frames) self) = Ok tt
  ∧ _x self' = drop (length frames)
                 (_x self ++ map (λ f, _aggregate self f.1) frames)
  ∧ _id self' = drop (length frames) (_id self ++ map snd frames)
  ∧ _nan self' = _nan self
  ∧ last_processed_index self'
    = last_processed_index self - Z.of_nat (length frames).
Proof.
  revert self. induction frames as [|[values pulse_id] frames IH];
    intros self Hx Hlen Hids.
  { cbn. rewrite !app_nil_r, Z.sub_0_r. done. }
  assert (_id self ≠ []) as Hi.
  { intros Hnil. rewrite Hnil in Hlen. by destruct (_x self). }
  apply Forall_cons in Hids as [Hid Hids]. cbn [snd] in Hid.
  cbn [update_all]. cbn zeta.
  rewrite (run_bind_Ok _ _ _ _ _
             (AggregatorWithID_run_update self values pulse_id Hx Hi Hid)).
  set (self1 := Build _ _ _ _ _ _).
  destruct (IH self1) as (Hr & Hx' & Hi' & Hn' & Hc').
  { subst self1. cbn [_x]. by destruct (drop 1 (_x self)). }
  { subst self1. cbn [_x _id]. rewrite !length_app, !length_drop. cbn. lia. }
  { done. }
  split_and!; [done| | |done|].
  - rewrite Hx'. subst self1. cbn [_x _aggregate length map fst].
    destruct (_x self) as [|x0 x]; [done|]. cbn [drop app].
    by rewrite <- app_assoc.
  - rewrite Hi'. subst self1. cbn [_id length map snd].
    destruct (_id self) as [|i0 i]; [done|]. cbn [drop app].
    by rewrite <- app_assoc.
  - rewrite Hc'. subst self1. cbn [last_processed_index length]. lia.
Qed.

(** The drain returns what has arrived since the last drain: after [k]
    updates (no more than the capacity) from a state in which nothing was
    unread, the aggregates and the pulse ids of these [k] frames, in the
    order of arrival. *)
Lemma AggregatorWithID_drain_unread self (frames : list (list T * Z)) :
  _x self ≠ [] → length (_x self) = length (_id self) →
  Forall (λ f, fits_int64 f.2 = true) frames →
  last_processed_index self = 0 →
  (0 < length frames ≤ length (_x self))%nat →
  let self' := final (run (update_all frames) self) in
  __bool__ ne self' = true →
  result (run (__call__ ne) self')
  = Ok (map (λ f, _aggregate self f.1) frames, map snd frames)
  ∧ last_processed_index (final (run (__call__ ne) self')) = 0.
Proof.
  intros Hx Hlen Hids Hc Hk self' Hbool.
  destruct (AggregatorWithID_run_update_all self frames Hx Hlen Hids)
    as (_ & Hx' & Hi' & _ & Hc').
  fold self' in Hx', Hi', Hc'. rewrite Hc in Hc'.
  rewrite AggregatorWithID_run_call, Hbool, Hc'. cbn [negb orb].
  destruct (Z.eqb_spec (0 - Z.of_nat (length frames)) 0) as [|_]; [lia|].
  unfold result, final. cbn [fst snd last_processed_index
    set_last_processed_index]. split; [|done].
  assert (∀ {B} (l vals : list B),
            length vals = length frames → (length frames ≤ length l)%nat →
            slice_from (drop (length frames) (l ++ vals))
                       (0 - Z.of_nat (length frames)) = vals) as Hslice.
  { intros B l vals Hv Hl.
    rewrite Z.sub_0_l, slice_from_neg
      by (rewrite length_drop, length_app; lia).
    rewrite length_drop, length_app, drop_drop.
    replace (length frames + (length l + length vals - length frames
                              - length frames))%nat
      with (length l) by lia.
    apply drop_app_length. }
  rewrite Hx', Hi'. f_equal. f_equal; apply Hslice;
    rewrite ?length_map; try done; lia.
Qed.

Lemma AggregatorWithID_run_last_updated self (values : list T) pulse_id :
  _x self ≠ [] → _id self ≠ [] → fits_int64 pulse_id = true →
  let self' := final (run (update values (Some pulse_id)) self) in
  run last self' = (Ok (_aggregate self values, pulse_id), self', []).
Proof.
  intros Hx Hi Hfits self'. subst self'.
  rewrite AggregatorWithID_run_update by done.
  unfold final, last, run, mbind, M_bind, get, lift. cbn [fst snd _x _id].
  rewrite !getitem_last. reflexivity.
Qed.

(** C8, as the code has it. On a buffer of capacity at least one, [last]
    returns the content of the final slot of the values and of the
    identifiers and changes nothing, the cursor included, whether or not
    the buffer holds a valid entry; after an [update] with an identifier
    that fits the identifiers' dtype (int64) that pair is the one just
    appended, and on a buffer as created or cleared it is the empty value
    with identifier 0.  An [update] with an identifier that does not fit
    raises [OverflowError] after the value is stored: [last] then returns
    the new value with the oldest identifier. *)
Theorem AggregatorWithID_last self :
  _x self ≠ [] → _id self ≠ [] →
  (∃ v i, run last self = (Ok (v, i), self, [])
          ∧ List.last (_x self) v = v ∧ List.last (_id self) i = i)
  ∧ (∀ values pulse_id,
       fits_int64 pulse_id = true →
       let r := run (update values (Some pulse_id)) self in
       result r = Ok tt
       ∧ run last (final r)
         = (Ok (_aggregate self values, pulse_id), final r, []))
  ∧ (∀ values pulse_id,
       fits_int64 pulse_id = false →
       let r := run (update values (Some pulse_id)) self in
       result r = Raise OverflowError
       ∧ ∃ oldest, head (_id self) = Some oldest
           ∧ run last (final r)
             = (Ok (_aggregate self values, oldest), final r, []))
  ∧ (∀ (empty_value : T) (max_span : nat) (aggregate : list T → T),
       (0 < max_span)%nat →
       let new := __init__ empty_value max_span aggregate in
       run last new = (Ok (empty_value, 0), new, []))
  ∧ (let cleared := final (run clear self) in
     run last cleared = (Ok (_nan self, 0), cleared, [])).
Proof.
  intros Hx Hi. split_and!.
  - destruct (exists_last Hx) as (x' & v & Hxv).
    destruct (exists_last Hi) as (i' & i & Hiv).
    exists v, i. unfold last, run, mbind, M_bind, get, lift.
    rewrite Hxv, Hiv, !getitem_last, !last_last. done.
  - intros values pulse_id Hfits r. split.
    + subst r. by rewrite AggregatorWithID_run_update.
    + by apply AggregatorWithID_run_last_updated.
  - intros values pulse_id Hfits r. subst r.
    rewrite AggregatorWithID_run_update_overflow by done.
    split; [done|].
    destruct (_id self) as [|oldest ids] eqn:Hids; [done|].
    exists oldest. split; [done|].
    unfold final, last, run, mbind, M_bind, get, lift. cbn [fst snd _x _id].
    rewrite roll_left_1. cbn [drop take]. rewrite drop_0, take_0.
    rewrite !getitem_last. reflexivity.
  - intros empty_value max_span aggregate Hpos new. subst new.
    unfold last, run, mbind, M_bind, get, lift, __init__. cbn [_x _id].
    destruct max_span as [|n]; [lia|].
    rewrite !replicate_S_end, !getitem_last. reflexivity.
  - unfold clear, final, last, run, mbind, M_bind, get, lift, modify, fill.
    cbn [fst snd _x _id _nan set_x set_id set_last_processed_index].
    destruct (_x self) as [|x0 x]; [done|].
    destruct (_id self) as [|i0 i]; [done|].
    cbn [length]. rewrite !replicate_S_end, !getitem_last. reflexivity.
Qed.

End AggregatorWithID_facts.

(** ** [NPFIFOArray]: capacity, batches, reading *)

Section NPFIFOArray_more.
Context {T : Type} (ne : T → T → bool) (minimum maximum : T → T → T).
Import NPFIFOArray.
Implicit Types (self : @NPFIFOArray.t T) (batch : list T).

Lemma length_setitem_prefix (x : list T) (k : nat) (values x' : list T) :
  setitem_prefix x k values = Ok x' → length x' = length x.
Proof.
  unfold setitem_prefix. case_decide as Hlen.
  - intros [= <-]. rewrite length_app, length_drop. lia.
  - destruct values as [|v [|? ?]]; [done| |done].
    intros [= <-]. rewrite length_app, length_replicate, length_drop. lia.
Qed.

(** [update] in every case: the array is rolled before the batch is
    written, and stays so when the write raises. *)
Lemma NPFIFOArray_run_update_cases self batch :
  let rolled := roll (_x self) (Z.of_nat (length batch)) in
  run (update batch) self =
  match setitem_prefix rolled (length batch) batch with
  | Ok x =>
      (Ok tt, Build x (_nan self) (_aggregate self batch) (_aggregate self), [])
  | Raise e => (Raise e, set_x rolled self, [])
  end.
Proof.
  cbn zeta. unfold update, run, mbind, M_bind, get, modify, lift.
  cbn [_x set_x].
  by destruct (setitem_prefix _ _ _).
Qed.

Lemma NPFIFOArray_update_same_shape (a : @NPFIFOArray.t T) batch :
  preserves (λ self, same_shape self a) (update batch).
Proof.
  intros self (Hx & Hn & Ha). unfold same_shape.
  rewrite NPFIFOArray_run_update_cases. cbn zeta.
  destruct (setitem_prefix _ _ _) as [x|e] eqn:Hset;
    unfold final; cbn [fst snd _x _nan _aggregate set_x].
  - apply length_setitem_prefix in Hset. rewrite length_roll in Hset.
    by rewrite Hset.
  - by rewrite length_roll.
Qed.

Lemma NPFIFOArray_update_cast_same_shape (a : @NPFIFOArray.t T) stored
    batch :
  preserves (λ self, same_shape self a) (update_cast stored batch).
Proof.
  intros self (Hx & Hn & Ha). unfold same_shape.
  unfold update_cast, run, final, mbind, M_bind, get, modify, lift.
  cbn [_x set_x fst snd].
  destruct (setitem_prefix _ _ batch) as [x0|e0];
    [|by cbn [fst snd _x _nan _aggregate set_x]; rewrite length_roll].
  destruct stored as [values|e]; cbn [fst snd];
    [|by cbn [fst snd _x _nan _aggregate set_x]; rewrite length_roll].
  destruct (setitem_prefix _ _ values) as [x|e] eqn:Hset;
    cbn [fst snd _x _nan _aggregate set_x set_last_value].
  - apply length_setitem_prefix in Hset. rewrite length_roll in Hset.
    by rewrite Hset.
  - by rewrite length_roll.
Qed.

Lemma NPFIFOArray_clear_same_shape (a : @NPFIFOArray.t T) :
  preserves (λ self, same_shape self a) clear.
Proof.
  intros self (Hx & Hn & Ha). unfold same_shape.
  unfold clear, run, final, mbind, M_bind, get, modify, fill.
  cbn [fst snd _x _nan _aggregate set_x].
  by rewrite length_replicate.
Qed.

(** X1. Whatever the batch, and whether [update] returns or raises, the
    array has as many slots after it as before, and its empty value and
    its reduction are the same; so it is after [clear]. *)
Theorem NPFIFOArray_keeps_capacity self batch :
  same_shape (final (run (update batch) self)) self
  ∧ same_shape (final (run clear self)) self.
Proof.
  split.
  - by apply NPFIFOArray_update_same_shape.
  - by apply NPFIFOArray_clear_same_shape.
Qed.

Lemma NPFIFOArray_run_update_oversize self batch :
  (0 < length (_x self) < length batch)%nat →
  run (update batch) self
  = (Raise ValueError,
     set_x (roll (_x self) (Z.of_nat (length batch))) self, []).
Proof.
  intros Hlen. rewrite NPFIFOArray_run_update_cases.
  unfold setitem_prefix. rewrite length_roll.
  rewrite decide_False by lia.
  by destruct batch as [|v [|v' batch]]; cbn [length] in Hlen; [lia|lia|].
Qed.

(** X2. A batch longer than the array is refused with [ValueError], but
    only after the array has been rolled by the length of the batch: the
    slots are left rotated, and [last_value] is not updated. *)
Theorem NPFIFOArray_update_oversize self batch :
  (0 < length (_x self) < length batch)%nat →
  let r := run (update batch) self in
  result r = Raise ValueError
  ∧ _x (final r) = roll (_x self) (Z.of_nat (length batch))
  ∧ _x (final r) ≡ₚ _x self
  ∧ last_value (final r) = last_value self.
Proof.
  intros Hlen r. subst r. rewrite NPFIFOArray_run_update_oversize by done.
  unfold result, final. cbn [fst snd _x set_x last_value].
  split_and!; [done|done| |done].
  unfold roll. rewrite Permutation_app_comm. by rewrite take_drop.
Qed.

(** X3. Two batches pushed one after the other, when the array has room
    for both, leave the slots that one [update] with the second batch
    followed by the first would leave: the newer batch in front; the
    last value is the reduction of the second batch alone. *)
Theorem NPFIFOArray_update_twice self (b1 b2 : list T) :
  (length b1 + length b2 ≤ length (_x self))%nat →
  let r := run (update b1;; update b2) self in
  result r = Ok tt
  ∧ _x (final r)
    = b2 ++ b1
      ++ take (length (_x self) - length b1 - length b2) (_x self)
  ∧ _x (final r) = _x (final (run (update (b2 ++ b1)) self))
  ∧ last_value (final r) = _aggregate self b2.
Proof.
  intros Hlen r. subst r.
  rewrite (run_bind_Ok _ _ _ _ _
             (NPFIFOArray_run_update self b1 ltac:(lia))).
  rewrite !NPFIFOArray_run_update;
    cbn [_x _nan _aggregate last_value];
    rewrite ?length_app, ?length_take; try lia.
  unfold result, final. cbn [fst snd _x last_value].
  assert (∀ k, k = (length (_x self) - length b2)%nat →
            take k (b1 ++ take (length (_x self) - length b1) (_x self))
            = b1 ++ take (length (_x self) - length b1 - length b2) (_x self))
    as Htake.
  { intros k ->. rewrite take_app, take_take.
    rewrite (take_ge b1) by lia. f_equal. f_equal. lia. }
  rewrite Htake by lia. split_and!; [done|done| |done].
  rewrite <- app_assoc. do 2 f_equal. f_equal. lia.
Qed.

Lemma NPFIFOArray_call_replicate (n : nat) (v nan : T) lv agg :
  ne v nan = false →
  __call__ ne (Build (replicate n v) nan lv agg) = []
  ∧ __bool__ ne (Build (replicate n v) nan lv agg) = false.
Proof.
  intros Hne. unfold __call__, __bool__. cbn [_x _nan].
  induction n as [|n [IH1 IH2]]; [done|]. cbn [replicate existsb].
  rewrite filter_cons_False by (by rewrite Hne). by rewrite Hne.
Qed.

(** X4. When the empty value compares equal to itself (an int such as
    the [-1] of [number_of_streaks]), an array as created and an array
    after [clear] hold no valid entry: [__bool__] is false, [__call__] is
    empty, and [min] and [max] raise [ValueError].  [clear] leaves
    [last_value] as it was. *)
Theorem NPFIFOArray_empty self :
  ne (_nan self) (_nan self) = false →
  (∀ new, new = final (run clear self)
          ∨ new = __init__ (_nan self) (length (_x self)) (_aggregate self) →
     __bool__ ne new = false
     ∧ __call__ ne new = []
     ∧ min ne minimum new = Raise ValueError
     ∧ max ne maximum new = Raise ValueError)
  ∧ result (run clear self) = Ok tt
  ∧ last_value (final (run clear self)) = last_value self.
Proof.
  intros Hne. split; [|done].
  assert (∀ lv, let new := Build (replicate (length (_x self)) (_nan self))
                             (_nan self) lv (_aggregate self) in
            __bool__ ne new = false ∧ __call__ ne new = []
            ∧ min ne minimum new = Raise ValueError
            ∧ max ne maximum new = Raise ValueError) as Hnew.
  { intros lv new. subst new. unfold min, max.
    destruct (NPFIFOArray_call_replicate (length (_x self)) _ _ lv
                (_aggregate self) Hne) as [-> ->]. done. }
  intros new [->| ->]; [apply (Hnew (last_value self))|apply Hnew].
Qed.

Lemma existsb_filter_nil {A} (f : A → bool) (l : list A) :
  existsb f l = true ↔ filter (λ v, f v = true) l ≠ [].
Proof.
  induction l as [|a l IH]; [done|]. cbn [existsb].
  destruct (f a) eqn:Ha.
  - rewrite filter_cons_True by done. done.
  - rewrite filter_cons_False by (by rewrite Ha). done.
Qed.

(** X5. The three ways to ask for the valid entries agree: [__bool__] is
    true exactly when [__call__] returns at least one entry, and exactly
    then [min] and [max] return a value; otherwise both raise
    [ValueError].  What [__call__] returns are the slots that differ from
    the empty value, in the order of the array. *)
Theorem NPFIFOArray_bool_call_min self :
  (__bool__ ne self = true ↔ __call__ ne self ≠ [])
  ∧ (__bool__ ne self = true ↔ ∃ m, min ne minimum self = Ok m)
  ∧ (__bool__ ne self = true ↔ ∃ m, max ne maximum self = Ok m)
  ∧ (__bool__ ne self = false ↔ min ne minimum self = Raise ValueError)
  ∧ (__bool__ ne self = false ↔ max ne maximum self = Raise ValueError)
  ∧ (∀ v, v ∈ __call__ ne self ↔ v ∈ _x self ∧ ne v (_nan self) = true)
  ∧ __call__ ne self `sublist_of` _x self.
Proof.
  pose proof (existsb_filter_nil (λ v, ne v (_nan self)) (_x self)) as Hb.
  fold (__bool__ ne self) in Hb.
  unfold min, max, reduce.
  split_and!;
    [..
    | intros v; unfold __call__; rewrite list_elem_of_filter; tauto
    | apply sublist_filter].
  all: unfold __call__ in *.
  all: destruct (filter _ (_x self)) as [|v l], (__bool__ ne self).
  all: try (exfalso; by apply (proj1 Hb)).
  all: try (exfalso; by discriminate (proj2 Hb)).
  all: split; intros H; first [done | by eexists | by destruct H].
Qed.

End NPFIFOArray_more.

(** An empty value that differs from every value, as NaN does. *)
Lemma filter_ne_all {T} (ne : T → T → bool) (nan : T) (l : list T) :
  (∀ v, ne v nan = true) → filter (λ v, ne v nan = true) l = l.
Proof.
  intros Hne. induction l as [|v l IH]; [done|].
  rewrite filter_cons_True by apply Hne. by rewrite IH.
Qed.

Lemma existsb_ne_all {T} (ne : T → T → bool) (nan : T) (l : list T) :
  (∀ v, ne v nan = true) → l ≠ [] → existsb (λ v, ne v nan) l = true.
Proof. intros Hne Hl. destruct l as [|v l]; [done|]. cbn. by rewrite Hne. Qed.

(** *** Arrays of ints and arrays of floats *)

Lemma foldl_Z_min (l : list Z) (v : Z) :
  foldl Z.min v l ∈ v :: l ∧ ∀ w, w ∈ v :: l → foldl Z.min v l ≤ w.
Proof.
  revert v. induction l as [|a l IH]; intros v; cbn [foldl].
  - split; [apply list_elem_of_here|]. intros w ->%list_elem_of_singleton. lia.
  - destruct (IH (Z.min v a)) as [Hin Hle]. split.
    + apply elem_of_cons in Hin as [Heq|Hin].
      * rewrite Heq. destruct (Z.min_spec v a) as [[_ ->]|[_ ->]].
        -- apply list_elem_of_here.
        -- apply list_elem_of_further, list_elem_of_here.
      * by do 2 apply list_elem_of_further.
    + intros w Hw.
      pose proof (Hle (Z.min v a) ltac:(apply list_elem_of_here)) as Hm.
      apply elem_of_cons in Hw as [->|Hw]; [lia|].
      apply elem_of_cons in Hw as [->|Hw]; [lia|].
      apply Hle. by apply list_elem_of_further.
Qed.

Lemma foldl_Z_max (l : list Z) (v : Z) :
  foldl Z.max v l ∈ v :: l ∧ ∀ w, w ∈ v :: l → w ≤ foldl Z.max v l.
Proof.
  revert v. induction l as [|a l IH]; intros v; cbn [foldl].
  - split; [apply list_elem_of_here|]. intros w ->%list_elem_of_singleton. lia.
  - destruct (IH (Z.max v a)) as [Hin Hle]. split.
    + apply elem_of_cons in Hin as [Heq|Hin].
      * rewrite Heq. destruct (Z.max_spec v a) as [[_ ->]|[_ ->]].
        -- apply list_elem_of_further, list_elem_of_here.
        -- apply list_elem_of_here.
      * by do 2 apply list_elem_of_further.
    + intros w Hw.
      pose proof (Hle (Z.max v a) ltac:(apply list_elem_of_here)) as Hm.
      apply elem_of_cons in Hw as [->|Hw]; [lia|].
      apply elem_of_cons in Hw as [->|Hw]; [lia|].
      apply Hle. by apply list_elem_of_further.
Qed.

(** X6. On an array of ints that holds a valid entry, [min] and [max]
    return valid entries of the array, the least and the greatest of
    them. *)
Theorem NPFIFOArray_min_max_int (self : @NPFIFOArray.t Z) :
  NPFIFOArray.__bool__ Z_ne self = true →
  ∃ lo hi,
    NPFIFOArray.min Z_ne Z.min self = Ok lo
    ∧ NPFIFOArray.max Z_ne Z.max self = Ok hi
    ∧ lo ∈ NPFIFOArray.__call__ Z_ne self
    ∧ hi ∈ NPFIFOArray.__call__ Z_ne self
    ∧ ∀ v, v ∈ NPFIFOArray.__call__ Z_ne self → lo ≤ v ≤ hi.
Proof.
  intros Hbool. apply existsb_filter_nil in Hbool.
  unfold NPFIFOArray.min, NPFIFOArray.max, NPFIFOArray.reduce.
  fold (NPFIFOArray.__call__ Z_ne self) in Hbool.
  destruct (NPFIFOArray.__call__ Z_ne self) as [|v l]; [done|].
  destruct (foldl_Z_min l v) as [Hmin Hle], (foldl_Z_max l v) as [Hmax Hge].
  eexists _, _. split_and!; [done..|].
  intros w Hw. split; [by apply Hle|by apply Hge].
Qed.

Lemma foldl_num_minimum_None (l : list num) :
  foldl num_minimum None l = None.
Proof. induction l as [|a l IH]; [done|]. cbn [foldl]. by destruct a. Qed.

Lemma foldl_num_maximum_None (l : list num) :
  foldl num_maximum None l = None.
Proof. induction l as [|a l IH]; [done|]. cbn [foldl]. by destruct a. Qed.

Lemma foldl_num_minimum_nan (l : list num) (v : num) :
  None ∈ v :: l → foldl num_minimum v l = None.
Proof.
  revert v. induction l as [|a l IH]; intros v Hin; cbn [foldl].
  - by apply list_elem_of_singleton in Hin as <-.
  - destruct v as [x|]; [|apply foldl_num_minimum_None].
    destruct a as [y|]; [|apply foldl_num_minimum_None].
    apply IH. apply elem_of_cons in Hin as [?|Hin]; [done|].
    apply elem_of_cons in Hin as [?|Hin]; [done|].
    by apply list_elem_of_further.
Qed.

Lemma foldl_num_maximum_nan (l : list num) (v : num) :
  None ∈ v :: l → foldl num_maximum v l = None.
Proof.
  revert v. induction l as [|a l IH]; intros v Hin; cbn [foldl].
  - by apply list_elem_of_singleton in Hin as <-.
  - destruct v as [x|]; [|apply foldl_num_maximum_None].
    destruct a as [y|]; [|apply foldl_num_maximum_None].
    apply IH. apply elem_of_cons in Hin as [?|Hin]; [done|].
    apply elem_of_cons in Hin as [?|Hin]; [done|].
    by apply list_elem_of_further.
Qed.

Lemma num_ne_nan (v : num) : num_ne v None = true.
Proof. by destruct v. Qed.

(** X7. On an array of floats whose empty value is NaN, as the handler
    creates them, no slot ever counts as empty, because NaN differs from
    every float, itself included: [__call__] returns the whole array, the
    empty slots with it, [__bool__] is true as soon as the array has a
    slot, also right after [clear], and [min] and [max] are NaN as long
    as one slot is empty. *)
Theorem NPFIFOArray_nan_sentinel (self : @NPFIFOArray.t num) :
  NPFIFOArray._nan self = None →
  NPFIFOArray.__call__ num_ne self = NPFIFOArray._x self
  ∧ (NPFIFOArray.__bool__ num_ne self = true ↔ NPFIFOArray._x self ≠ [])
  ∧ (None ∈ NPFIFOArray._x self →
       NPFIFOArray.min num_ne num_minimum self = Ok None
       ∧ NPFIFOArray.max num_ne num_maximum self = Ok None)
  ∧ (NPFIFOArray._x self ≠ [] →
       let cleared := final (run NPFIFOArray.clear self) in
       NPFIFOArray.__bool__ num_ne cleared = true
       ∧ length (NPFIFOArray.__call__ num_ne cleared)
         = length (NPFIFOArray._x self)
       ∧ NPFIFOArray.min num_ne num_minimum cleared = Ok None).
Proof.
  intros Hnan.
  assert (∀ a : @NPFIFOArray.t num, NPFIFOArray._nan a = None →
            NPFIFOArray.__call__ num_ne a = NPFIFOArray._x a) as Hcall.
  { intros a Ha. unfold NPFIFOArray.__call__. rewrite Ha.
    induction (NPFIFOArray._x a) as [|v l IH]; [done|].
    rewrite filter_cons_True by apply num_ne_nan. by rewrite IH. }
  assert (∀ a : @NPFIFOArray.t num, NPFIFOArray._nan a = None →
            NPFIFOArray._x a ≠ [] →
            NPFIFOArray.__bool__ num_ne a = true) as Hbool.
  { intros a Ha Hx. apply existsb_filter_nil.
    fold (NPFIFOArray.__call__ num_ne a). by rewrite Hcall. }
  assert (∀ a : @NPFIFOArray.t num, NPFIFOArray._nan a = None →
            None ∈ NPFIFOArray._x a →
            NPFIFOArray.min num_ne num_minimum a = Ok None
            ∧ NPFIFOArray.max num_ne num_maximum a = Ok None) as Hmin.
  { intros a Ha Hin. unfold NPFIFOArray.min, NPFIFOArray.max.
    rewrite Hcall by done. unfold NPFIFOArray.reduce.
    destruct (NPFIFOArray._x a) as [|v l]; [by apply elem_of_nil in Hin|].
    by rewrite foldl_num_minimum_nan, foldl_num_maximum_nan. }
  split_and!; [by apply Hcall| |by apply Hmin|].
  - split; [|by apply Hbool].
    intros Hb Hx. unfold NPFIFOArray.__bool__ in Hb. by rewrite Hx in Hb.
  - intros Hx cleared.
    assert (NPFIFOArray._x cleared
            = replicate (length (NPFIFOArray._x self)) None) as Hc.
    { subst cleared. unfold NPFIFOArray.clear, run, final, mbind, M_bind, get,
        modify, fill. cbn [fst snd NPFIFOArray._x NPFIFOArray.set_x].
      by rewrite Hnan. }
    assert (NPFIFOArray._nan cleared = None) as Hcn by done.
    split_and!.
    + apply Hbool; [done|]. rewrite Hc. by destruct (NPFIFOArray._x self).
    + rewrite Hcall, Hc, length_replicate; done.
    + apply Hmin; [done|]. rewrite Hc.
      destruct (NPFIFOArray._x self); [done|]. apply list_elem_of_here.
Qed.

(** ** [AggregatorWithID]: capacity, draining, counting *)

Section AggregatorWithID_more.
Context {T : Type} (ne : T → T → bool).
Import AggregatorWithID.
Implicit Types (self : @AggregatorWithID.t T).

Lemma AggregatorWithID_update_same_shape (a : @AggregatorWithID.t T)
    (values : list T) pulse_id :
  preserves (λ self, same_shape self a) (update values pulse_id).
Proof.
  unfold update, same_shape.
  destruct pulse_id as [pulse_id|]; [|apply preserves_log].
  apply preserves_bind; [apply preserves_get|intros self].
  repeat (apply preserves_bind; [|intros _]).
  all: try (apply preserves_modify; intros s (?&?&?&?);
            cbn [_x _id _nan _aggregate set_x set_id set_last_value
                 set_last_processed_index];
            by rewrite ?length_roll).
  all: apply preserves_modify_or_raise; intros s s' (?&?&?&?) Hf;
    unfold mbind, outcome_bind, setitem, setitem_int64 in Hf;
    destruct (py_index _ _); try destruct (fits_int64 _); simplify_eq;
    cbn [_x _id _nan _aggregate set_x set_id];
    by rewrite ?length_insert.
Qed.

Lemma AggregatorWithID_clear_same_shape (a : @AggregatorWithID.t T) :
  preserves (λ self, same_shape self a) clear.
Proof.
  intros self (Hx & Hi & Hn & Ha). unfold same_shape.
  unfold clear, run, final, mbind, M_bind, modify, fill.
  cbn [fst snd _x _id _nan _aggregate set_x set_id
       set_last_processed_index].
  by rewrite !length_replicate.
Qed.

(** X8. [update] (with or without a pulse id, returning or raising),
    [clear] and [__call__] keep the number of slots of the values and of
    the identifiers, the empty value and the reduction: the two arrays
    stay aligned. *)
Theorem AggregatorWithID_keeps_capacity self (values : list T) pulse_id :
  same_shape (final (run (update values pulse_id) self)) self
  ∧ same_shape (final (run clear self)) self
  ∧ same_shape (final (run (__call__ ne) self)) self.
Proof.
  split; [|split].
  - by apply AggregatorWithID_update_same_shape.
  - by apply AggregatorWithID_clear_same_shape.
  - rewrite AggregatorWithID_run_call.
    by destruct (negb (__bool__ ne self) || (last_processed_index self =? 0)).
Qed.

(** X9. The drain returns what has arrived since the last drain, as far
    as the arrays still hold it.  After [k] updates, each with a pulse id
    that fits the identifiers' dtype (int64), from a state in which
    nothing was unread, it returns the aggregates and the pulse ids of
    these frames in the order of arrival when [k] is at most the number
    of slots, and only those of the newest frames, as many as there are
    slots, when [k] is larger: the older ones are lost without notice. *)
Theorem AggregatorWithID_drain_newest self (frames : list (list T * Z)) :
  _x self ≠ [] → length (_x self) = length (_id self) →
  last_processed_index self = 0 →
  frames ≠ [] →
  Forall (λ f, fits_int64 f.2 = true) frames →
  let self' := final (run (update_all frames) self) in
  __bool__ ne self' = true →
  let lost := (length frames - length (_x self))%nat in
  result (run (update_all frames) self) = Ok tt
  ∧ result (run (__call__ ne) self')
    = Ok (drop lost (map (λ f, _aggregate self f.1) frames),
          drop lost (map snd frames))
  ∧ last_processed_index (final (run (__call__ ne) self')) = 0.
Proof.
  intros Hx Hlen Hc Hk Hfits self' Hbool lost.
  destruct (AggregatorWithID_run_update_all self frames Hx Hlen Hfits)
    as (Hres & Hx' & Hi' & _ & Hc').
  fold self' in Hx', Hi', Hc'. rewrite Hc in Hc'.
  split; [done|].
  assert (0 < length frames)%nat as Hpos by (destruct frames; [done|cbn; lia]).
  rewrite AggregatorWithID_run_call, Hbool, Hc'. cbn [negb orb].
  destruct (Z.eqb_spec (0 - Z.of_nat (length frames)) 0) as [|_]; [lia|].
  unfold result, final. cbn [fst snd last_processed_index
    set_last_processed_index]. split; [|done].
  assert (∀ {B} (l vals : list B),
            length vals = length frames → length l = length (_x self) →
            slice_from (drop (length frames) (l ++ vals))
                       (0 - Z.of_nat (length frames)) = drop lost vals)
    as Hslice.
  { intros B l vals Hv Hl. subst lost.
    unfold slice_from, slice_start.
    rewrite length_drop, length_app, drop_drop, Hv, Hl.
    destruct (Z.ltb_spec (0 - Z.of_nat (length frames)) 0) as [_|]; [|lia].
    destruct (decide (length frames ≤ length (_x self))%nat) as [Hle|Hgt].
    - replace (length frames + _)%nat with (length l) by lia.
      rewrite drop_app_length.
      replace (length frames - length (_x self))%nat with 0%nat by lia.
      done.
    - replace (length frames + _)%nat with
        (length l + (length frames - length (_x self)))%nat by lia.
      by rewrite <- drop_drop, drop_app_length. }
  rewrite Hx', Hi'. f_equal. f_equal; apply Hslice;
    rewrite ?length_map; done.
Qed.

(** X10. [clear] throws away what has not been drained: whatever the
    state, after it the cursor is 0, a drain returns two empty sequences,
    the identifiers are all 0 and the values all the empty value; the
    last value is not reset.  When the empty value compares equal to
    itself the buffer then counts no entry. *)
Theorem AggregatorWithID_clear_discards self :
  let cleared := final (run clear self) in
  result (run clear self) = Ok tt
  ∧ run (__call__ ne) cleared = (Ok ([], []), cleared, [])
  ∧ last_processed_index cleared = 0
  ∧ _x cleared = replicate (length (_x self)) (_nan self)
  ∧ _id cleared = replicate (length (_id self)) 0
  ∧ last_value cleared = last_value self
  ∧ (ne (_nan self) (_nan self) = false →
       count ne cleared = 0%nat ∧ __bool__ ne cleared = false).
Proof.
  intros cleared.
  assert (cleared = Build (replicate (length (_x self)) (_nan self))
                          (replicate (length (_id self)) 0)
                          (_nan self) (last_value self) (_aggregate self) 0)
    as -> by done.
  split_and!; try done.
  - rewrite AggregatorWithID_run_call. cbn [last_processed_index].
    by rewrite orb_true_r.
  - intros Hne. unfold count, __bool__. cbn [_x _nan].
    induction (length (_x self)) as [|n [IH1 IH2]]; [done|].
    cbn [replicate existsb].
    rewrite filter_cons_False by (by rewrite Hne). by rewrite Hne.
Qed.

(** X11. [count] is the number of slots that differ from the empty
    value: it is at most the number of slots, it is positive exactly when
    [__bool__] is true, and it is the number of slots, whatever has been
    stored, when the empty value differs from every value, as NaN
    does. *)
Theorem AggregatorWithID_count_bounds self :
  (count ne self ≤ length (_x self))%nat
  ∧ (__bool__ ne self = true ↔ (0 < count ne self)%nat)
  ∧ ((∀ v, ne v (_nan self) = true) →
       count ne self = length (_x self)
       ∧ (__bool__ ne self = true ↔ _x self ≠ [])).
Proof.
  unfold count, __bool__.
  induction (_x self) as [|v l (IH1 & IH2 & IH3)]; cbn [existsb length].
  - split_and!; [done|split; [done|cbn; lia]|done].
  - destruct (ne v (_nan self)) eqn:Hv.
    + rewrite filter_cons_True by done. cbn [length orb]. split_and!.
      * lia.
      * split; [lia|done].
      * intros Hall. destruct (IH3 Hall) as [-> _]. done.
    + rewrite filter_cons_False by (by rewrite Hv). cbn [orb]. split_and!.
      * lia.
      * done.
      * intros Hall. by rewrite Hall in Hv.
Qed.

End AggregatorWithID_more.
(** ** Dictionaries of columns *)

Lemma dict_get_col (d : dict) (key : string) :
  key ∈ d.*1 → dict_get d key = Ok (col d key).
Proof.
  unfold col. induction d as [|[k v] d IH]; simpl.
  - intros H. by apply elem_of_nil in H.
  - intros H. destruct (String.eqb_spec k key) as [->|Hne]; [done|].
    apply elem_of_cons in H as [H|H]; [congruence|]. by apply IH.
Qed.

Lemma dict_get_raises (d : dict) (key : string) e :
  dict_get d key = Raise e → e = KeyError key.
Proof.
  induction d as [|[k v] d IH]; simpl; [by intros [= <-]|].
  by destruct (String.eqb k key).
Qed.

Lemma col_all_empty (d : dict) (key : string) :
  Forall (λ kv, kv.2 = []) d → col d key = [].
Proof.
  unfold col. induction 1 as [|[k v] d Hv _ IH]; simpl; [done|].
  by destruct (String.eqb k key).
Qed.

Lemma col_missing (d : dict) (key : string) : key ∉ d.*1 → col d key = [].
Proof.
  unfold col. induction d as [|[k v] d IH]; simpl; [done|].
  intros H. destruct (String.eqb_spec k key) as [->|Hne].
  - exfalso. apply H. left.
  - apply IH. intros Hin. apply H. by right.
Qed.

Lemma keys_dict_store (d : dict) (key : string) (val : list cell) :
  (dict_store d key val).*1 = d.*1.
Proof.
  induction d as [|[k v] d IH]; simpl; [done|].
  destruct (String.eqb k key); [done|]. rewrite !fmap_cons. by rewrite IH.
Qed.

Lemma col_dict_store (d : dict) (key key' : string) (val : list cell) :
  key ∈ d.*1 →
  col (dict_store d key val) key' = if decide (key = key') then val else col d key'.
Proof.
  unfold col. induction d as [|[k v] d IH]; simpl.
  - intros H. by apply elem_of_nil in H.
  - intros H. destruct (String.eqb_spec k key) as [->|Hne]; simpl.
    + destruct (String.eqb_spec key key') as [->|Hne'].
      * by rewrite decide_True.
      * by rewrite decide_False.
    + apply elem_of_cons in H as [H|H]; [congruence|].
      destruct (String.eqb_spec k key') as [->|Hne'].
      * by rewrite decide_False.
      * by apply IH.
Qed.

Lemma keys_alter_cell f key i (d : dict) : (alter_cell f key i d).*1 = d.*1.
Proof. apply keys_dict_store. Qed.

Lemma col_alter_cell f key i (d : dict) key' :
  col (alter_cell f key i d) key' =
  if decide (key = key') then alter f i (col d key') else col d key'.
Proof.
  unfold alter_cell. destruct (decide (key ∈ d.*1)) as [Hin|Hnin].
  - rewrite col_dict_store by done. by destruct (decide (key = key')) as [->|].
  - assert (dict_store d key (alter f i (col d key)) = d) as ->.
    { clear -Hnin. generalize (alter f i (col d key)). intros val.
      induction d as [|[k v] d IH]; simpl; [done|].
      destruct (String.eqb_spec k key) as [->|Hne].
      - exfalso. apply Hnin. left.
      - rewrite IH; [done|]. intros Hin. apply Hnin. by right. }
    destruct (decide (key = key')) as [<-|]; [|done].
    rewrite col_missing by done. by destruct i.
Qed.

Lemma cell_at_alter_cell f key i (d : dict) key' j :
  cell_at (alter_cell f key i d) key' j =
  if decide (key = key' ∧ i = j) then f <$> cell_at d key' j
  else cell_at d key' j.
Proof.
  unfold cell_at. rewrite col_alter_cell.
  destruct (decide (key = key')) as [->|Hk].
  - rewrite list_lookup_alter. destruct (decide (i = j)) as [->|Hi].
    + by rewrite decide_True.
    + rewrite decide_False; [done|]. by intros [_ ?].
  - rewrite decide_False; [done|]. by intros [? _].
Qed.

Lemma keys_append_items f (d : dict) : (append_items f d).*1 = d.*1.
Proof.
  unfold append_items. induction d as [|[k v] d IH]; [done|].
  rewrite map_cons, !fmap_cons. by rewrite IH.
Qed.

Lemma col_append_items f (d : dict) key :
  key ∈ d.*1 → col (append_items f d) key = col d key ++ [f key].
Proof.
  unfold col, append_items. induction d as [|[k v] d IH]; simpl.
  - intros H. by apply elem_of_nil in H.
  - intros H. destruct (String.eqb_spec k key) as [->|Hne]; [done|].
    apply elem_of_cons in H as [H|H]; [congruence|]. by apply IH.
Qed.

Lemma table_get_cell (d : dict) key ind i v :
  key ∈ d.*1 → py_index (length (col d key)) ind = Some i →
  cell_at d key i = Some v →
  table_get d key ind = Ok v.
Proof.
  intros Hk Hi Hv. unfold table_get. rewrite dict_get_col by done.
  unfold mbind, outcome_bind, getitem. rewrite Hi. unfold cell_at in Hv.
  by rewrite Hv.
Qed.

Lemma table_set_cell (d : dict) key ind i v :
  key ∈ d.*1 → py_index (length (col d key)) ind = Some i →
  table_set d key ind v = Ok (alter_cell (λ _, v) key i d).
Proof.
  intros Hk Hi. unfold table_set. rewrite dict_get_col by done.
  unfold mbind, outcome_bind, setitem. rewrite Hi.
  unfold alter_cell. by rewrite list_insert_alter.
Qed.

(** ** The statistics table *)

Lemma list_index_bounds (l : list cell) (k start z : Z) :
  list_index l k start = Ok z → 0 ≤ z < Z.of_nat (length l).
Proof.
  unfold list_index.
  destruct (list_find _ _) as [[j c]|] eqn:Hfind; [|done].
  intros [= <-]. apply list_find_Some in Hfind as (Hj & _ & _).
  apply lookup_lt_Some in Hj. rewrite length_drop in Hj. lia.
Qed.

Lemma list_index_raises (l : list cell) (k start : Z) e :
  list_index l k start = Raise e → e = ValueError.
Proof.
  unfold list_index. destruct (list_find _ _) as [[j c]|]; [done|].
  by intros [= <-].
Qed.

Lemma slice_start_lookback (n : nat) : slice_start n (-5) = (n - 5)%nat.
Proof. unfold slice_start. simpl. lia. Qed.

(** [l.index(k, -5)] finds the first of the last five elements that equals
    [k], and raises [ValueError] when none of them does, whatever the
    elements before them are. *)
Lemma list_index_found (l : list cell) (k z : Z) :
  list_index l k (-5) = Ok z →
  ∃ i c, z = Z.of_nat i ∧ (length l - 5 ≤ i < length l)%nat
         ∧ l !! i = Some c ∧ eq_int k c = true
         ∧ ∀ j c', (length l - 5 ≤ j < i)%nat → l !! j = Some c' →
                   eq_int k c' = false.
Proof.
  unfold list_index. rewrite slice_start_lookback.
  destruct (list_find _ _) as [[j c]|] eqn:Hfind; [|done].
  intros [= <-]. apply list_find_Some in Hfind as (Hj & Hc & Hfirst).
  rewrite lookup_drop in Hj. exists (length l - 5 + j)%nat, c.
  split_and!; [done|lia|by apply lookup_lt_Some in Hj|done..|].
  intros j' c' Hj' Hc'. apply not_true_is_false.
  apply (Hfirst (j' - (length l - 5))%nat); [|lia].
  rewrite lookup_drop. by replace (length l - 5 + (j' - (length l - 5)))%nat
    with j' by lia.
Qed.

Lemma list_index_not_found (l : list cell) (k : Z) e :
  list_index l k (-5) = Raise e →
  Forall (λ c, eq_int k c = false) (drop (length l - 5) l).
Proof.
  unfold list_index. rewrite slice_start_lookback.
  destruct (list_find _ _) as [[j c]|] eqn:Hfind; [done|]. intros _.
  apply list_find_None in Hfind. eapply Forall_impl; [done|].
  intros c Hc. by apply not_true_is_false.
Qed.

Lemma py_add_succ (c : cell) :
  (∀ s, c ≠ PyStr s) → py_add c 1 = Ok (py_succ c).
Proof. unfold py_succ. destruct c; intros H; try done. by destruct (H s). Qed.

Lemma py_succ_nan (c : cell) : py_succ c = PyNaN ↔ c = PyNaN.
Proof. unfold py_succ. by destruct c. Qed.

Lemma alter_cell_const (f : cell → cell) key i (d : dict) v :
  cell_at d key i = Some v →
  alter_cell (λ _, f v) key i d = alter_cell f key i d.
Proof.
  unfold alter_cell, cell_at. intros Hv. f_equal.
  apply list_eq. intros j. rewrite !list_lookup_alter.
  destruct (decide (i = j)) as [<-|]; [|done]. by rewrite Hv.
Qed.

Section CBDStatisticsHandler_facts.
Context {scalar : Type}.
Context (np_sum np_average : list scalar → scalar).
Context (np_nan : scalar) (of_int : Z → scalar).
Import CBDStatisticsHandler.
Implicit Types (self : @CBDStatisticsHandler.t scalar) (d : dict).
Implicit Types (metadata : Metadata scalar) (key switch : string).

Local Abbreviation parse := (CBDStatisticsHandler.parse np_sum of_int).
Local Abbreviation reachable :=
  (CBDStatisticsHandler.reachable np_sum np_average np_nan of_int).
Local Abbreviation __init__ :=
  (CBDStatisticsHandler.__init__ np_sum np_average np_nan of_int).

(** Membership of a literal key in a literal list, and the cases of a
    membership hypothesis. *)
Ltac solve_key :=
  solve [ unfold columns, counters, empty_data; rewrite ?fmap_cons; cbn [fst];
          repeat first [apply list_elem_of_here | apply list_elem_of_further] ].

Ltac key_cases H :=
  unfold columns, counters, empty_data in H;
  rewrite ?fmap_cons in H; cbn [fst] in H;
  repeat (let Heq := fresh in
          apply elem_of_cons in H as [Heq|H];
          [first [discriminate Heq | by vm_compute in Heq | subst
                 | clear Heq] |]);
  try (by apply elem_of_nil in H).

Lemma counters_columns key : key ∈ counters → key ∈ columns.
Proof. intros H. key_cases H; solve_key. Qed.

Lemma counts_counters key :
  key ∈ ["nframes"; "bad_frames"; "sat_pix_nframes"] → key ∈ counters.
Proof. intros H. key_cases H; solve_key. Qed.

Lemma is_count_counter c : is_count c → is_counter c.
Proof. by destruct c. Qed.

Lemma is_counter_succ c : is_counter c → is_counter (py_succ c).
Proof. destruct c; simpl; try done. lia. Qed.

Lemma is_count_succ c : is_count c → is_count (py_succ c).
Proof. destruct c; simpl; try done. lia. Qed.

Lemma wf_data_cell d key i :
  wf_data d → key ∈ counters →
  (i < length (col d "pulse_id_bins"))%nat →
  ∃ c, cell_at d key i = Some c ∧ is_counter c.
Proof.
  intros Hwf Hk Hi.
  rewrite <- (wf_rows _ Hwf key (counters_columns _ Hk)) in Hi.
  apply lookup_lt_is_Some in Hi as [c Hc]. exists c. split; [done|].
  eapply Forall_lookup_1; [by apply (wf_counters _ Hwf key)|done].
Qed.

(** A step that rewrites one counter of a bin and keeps its kind. *)
Lemma wf_data_alter_counter f key i d :
  wf_data d → key ∈ counters →
  (∀ c, is_counter c → is_counter (f c)) →
  (∀ c, is_counter c → f c = PyNaN ↔ c = PyNaN) →
  wf_data (alter_cell f key i d).
Proof.
  intros Hwf Hk Hf Hnan.
  assert (∀ key' j, cell_at (alter_cell f key i d) key' j = Some PyNaN
                    ↔ cell_at d key' j = Some PyNaN) as Hsame.
  { intros key' j. rewrite cell_at_alter_cell.
    destruct (decide (key = key' ∧ i = j)) as [[<- <-]|]; [|done].
    destruct (cell_at d key i) as [c|] eqn:Hc; [|done]. simpl.
    assert (is_counter c) as Hcc.
    { eapply Forall_lookup_1; [by apply (wf_counters _ Hwf key)|done]. }
    split; intros [= H]; f_equal; by apply (Hnan c Hcc). }
  split.
  - rewrite keys_alter_cell. apply Hwf.
  - intros key' Hk'. rewrite !col_alter_cell.
    repeat case_decide; rewrite ?length_alter; by apply (wf_rows _ Hwf).
  - intros key' Hk'. rewrite col_alter_cell. case_decide as Heq.
    + subst key'. apply Forall_alter; [by apply (wf_counters _ Hwf)|].
      intros j c Hjc. apply Hf.
      eapply Forall_lookup_1; [by apply (wf_counters _ Hwf key)|done].
    + by apply (wf_counters _ Hwf).
  - intros switch j Hsw. rewrite !Hsame. by apply (wf_marked _ Hwf).
Qed.

Lemma wf_sum_data_alter_counter f key d :
  wf_sum_data d → key ∈ counters →
  (∀ c, is_count c → is_count (f c)) →
  wf_sum_data (alter_cell f key 0 d).
Proof.
  intros Hwf Hk Hf. split.
  - rewrite keys_alter_cell. apply Hwf.
  - intros key' Hk'. rewrite col_alter_cell.
    case_decide; rewrite ?length_alter; by apply (wf_sum_rows _ Hwf).
  - rewrite col_alter_cell. rewrite decide_False; [apply Hwf|].
    intros ->. key_cases Hk.
  - intros key' Hk'. rewrite col_alter_cell. case_decide as Heq.
    + subst key'. apply Forall_alter; [by apply (wf_sum_counters _ Hwf)|].
      intros j c Hjc. apply Hf.
      eapply Forall_lookup_1; [by apply (wf_sum_counters _ Hwf key)|done].
    + by apply (wf_sum_counters _ Hwf).
Qed.

Lemma wf_incr key i self : wf self → key ∈ counters → wf (incr key i self).
Proof.
  intros [Hd Hs] Hk. split; simpl.
  - apply wf_data_alter_counter; [done..| |].
    + apply is_counter_succ.
    + intros c _. apply py_succ_nan.
  - apply wf_sum_data_alter_counter; [done..|]. apply is_count_succ.
Qed.

Lemma cell_at_alter_cell_ne f key i d key' j :
  key ≠ key' → cell_at (alter_cell f key i d) key' j = cell_at d key' j.
Proof.
  intros Hne. rewrite cell_at_alter_cell, decide_False; [done|].
  by intros [? _].
Qed.

Lemma cell_at_alter_cell_eq f key i d j :
  cell_at (alter_cell f key i d) key j =
  if decide (i = j) then f <$> cell_at d key j else cell_at d key j.
Proof.
  rewrite cell_at_alter_cell.
  destruct (decide (i = j)) as [->|Hne].
  - by rewrite decide_True.
  - rewrite decide_False; [done|]. by intros [_ ?].
Qed.

(** Writing the marker; a hit count or a ratio is marked after its frame
    count. *)
Lemma wf_data_mark key i d :
  wf_data d → key ∈ columns → key ≠ "pulse_id_bins" →
  (∀ switch, switch ∈ ["laser_on"; "laser_off"] →
     key = switch +:+ "_hits" ∨ key = switch +:+ "_hits_ratio" →
     cell_at d (switch +:+ "_nframes") i = Some PyNaN) →
  wf_data (alter_cell (λ _, PyNaN) key i d).
Proof.
  intros Hwf Hk Hne Hside. split.
  - rewrite keys_alter_cell. apply Hwf.
  - intros key' Hk'. rewrite !col_alter_cell.
    repeat case_decide; rewrite ?length_alter; by apply (wf_rows _ Hwf).
  - intros key' Hk'. rewrite col_alter_cell. case_decide as Heq.
    + subst key'. apply Forall_alter; [by apply (wf_counters _ Hwf)|done].
    + by apply (wf_counters _ Hwf).
  - intros switch j Hsw Hmarked.
    pose proof (wf_marked _ Hwf switch j Hsw) as Hold.
    pose proof (Hside switch Hsw) as Hnew.
    rewrite !cell_at_alter_cell in Hmarked. rewrite cell_at_alter_cell.
    key_cases Hsw; cbn [String.append] in *;
      repeat case_decide; destruct_and?; simplify_eq;
      try (by apply Hold); try (by apply Hnew; auto).
    all: rewrite Hold; [done|];
      destruct Hmarked as [Hm|Hm]; [left|right];
      by destruct (cell_at d _ j).
Qed.

Lemma is_zero_PyInt z : is_zero (PyInt z) = (z =? 0).
Proof.
  unfold is_zero, to_Q, Qeq_bool, inject_Z. cbn [Qnum Qden].
  by rewrite Z.mul_1_r, Z.mul_0_l.
Qed.

Lemma py_truediv_counter (h n : cell) :
  is_counter h → is_counter n → n ≠ PyInt 0 →
  py_truediv h n = Ok (py_quot h n).
Proof.
  intros Hh Hn Hne. unfold py_quot, py_truediv.
  destruct h as [y| | |], n as [z| | |]; try done.
  all: rewrite ?is_zero_PyInt; destruct (Z.eqb_spec z 0) as [->|]; done.
Qed.

Lemma py_quot_nan (h n : cell) :
  is_counter h → is_counter n → n ≠ PyInt 0 →
  py_quot h n = PyNaN → h = PyNaN ∨ n = PyNaN.
Proof.
  intros Hh Hn Hne. unfold py_quot, py_truediv.
  destruct h as [y| | |], n as [z| | |]; try done; auto.
  rewrite is_zero_PyInt. destruct (Z.eqb_spec z 0) as [->|]; done.
Qed.

Lemma cell_at_is_Some d key key' i :
  wf_data d → key ∈ columns → key' ∈ columns →
  is_Some (cell_at d key i) → is_Some (cell_at d key' i).
Proof.
  intros Hwf Hk Hk' H. unfold cell_at in *.
  apply lookup_lt_is_Some. apply lookup_lt_is_Some in H.
  rewrite (wf_rows _ Hwf key') by done.
  by rewrite (wf_rows _ Hwf key) in H.
Qed.

Lemma wf_counter_at d key i c :
  wf_data d → key ∈ counters → cell_at d key i = Some c → is_counter c.
Proof.
  intros Hwf Hk Hc.
  eapply Forall_lookup_1; [by apply (wf_counters _ Hwf key)|done].
Qed.

(** Literal keys: [switch +:+ "_hits"] and the like, once [switch] is
    known. *)
Ltac simpl_keys :=
  repeat match goal with
  | |- context [String.append ?a ?b] =>
      let s := eval vm_compute in (String.append a b) in
      change (String.append a b) with s
  | H : context [String.append ?a ?b] |- _ =>
      let s := eval vm_compute in (String.append a b) in
      change (String.append a b) with s in H
  end.

Lemma wf_data_recompute_ratio switch i d :
  wf_data d → switch ∈ ["laser_on"; "laser_off"] →
  cell_at d (switch +:+ "_nframes") i ≠ Some (PyInt 0) →
  wf_data (recompute_ratio switch i d).
Proof.
  intros Hwf Hsw Hnz. unfold recompute_ratio. split.
  - rewrite keys_alter_cell. apply Hwf.
  - intros key' Hk'. rewrite !col_alter_cell.
    repeat case_decide; rewrite ?length_alter; by apply (wf_rows _ Hwf).
  - intros key' Hk'. rewrite col_alter_cell. case_decide as Heq.
    + subst key'. key_cases Hsw; key_cases Hk'.
    + by apply (wf_counters _ Hwf).
  - intros switch' j Hsw' Hmarked.
    pose proof (wf_marked _ Hwf switch' j Hsw') as Hold.
    assert (cell_at d (switch' +:+ "_hits") j = Some PyNaN
            ∨ cell_at d (switch' +:+ "_hits_ratio") j = Some PyNaN
            ∨ (switch' = switch ∧ j = i ∧
               ∃ h n, cell_at d (switch +:+ "_hits") i = Some h
                      ∧ cell_at d (switch +:+ "_nframes") i = Some n
                      ∧ py_quot h n = PyNaN)) as Hcases.
    { destruct Hmarked as [Hm|Hm].
      - left. rewrite <- Hm. symmetry. apply cell_at_alter_cell_ne.
        key_cases Hsw; key_cases Hsw'; done.
      - rewrite cell_at_alter_cell in Hm. case_decide as Hd.
        + destruct Hd as [Hkey <-]. right. right.
          assert (switch' = switch) as ->.
          { key_cases Hsw; key_cases Hsw'; done. }
          split_and!; [done..|].
          destruct (cell_at d (switch +:+ "_hits_ratio") i) eqn:Hr; [|done].
          destruct (cell_at_is_Some d (switch +:+ "_hits_ratio")
                      (switch +:+ "_hits") i) as [h Hh];
            [done | key_cases Hsw; solve_key | key_cases Hsw; solve_key
            | by rewrite Hr |].
          destruct (cell_at_is_Some d (switch +:+ "_hits_ratio")
                      (switch +:+ "_nframes") i) as [n Hn];
            [done | key_cases Hsw; solve_key | key_cases Hsw; solve_key
            | by rewrite Hr |].
          exists h, n. rewrite Hh, Hn in Hm. simpl in Hm.
          by injection Hm as Hm.
        + by right; left. }
    rewrite cell_at_alter_cell_ne by (key_cases Hsw; key_cases Hsw'; done).
    destruct Hcases as [H|[H|(-> & -> & h & n & Hh & Hn & Hq)]];
      [by apply Hold; left | by apply Hold; right |].
    apply py_quot_nan in Hq as [->| ->].
    + apply Hold. by left.
    + done.
    + eapply wf_counter_at; [done| |done]. key_cases Hsw; solve_key.
    + eapply wf_counter_at; [done| |done]. key_cases Hsw; solve_key.
    + intros ->. done.
Qed.

Lemma wf_sum_data_recompute_ratio switch d :
  wf_sum_data d → switch ∈ ["laser_on"; "laser_off"] →
  wf_sum_data (recompute_ratio switch 0 d).
Proof.
  intros Hwf Hsw. unfold recompute_ratio. split.
  - rewrite keys_alter_cell. apply Hwf.
  - intros key' Hk'. rewrite col_alter_cell.
    case_decide; rewrite ?length_alter; by apply (wf_sum_rows _ Hwf).
  - rewrite col_alter_cell, decide_False; [apply Hwf|].
    key_cases Hsw; done.
  - intros key' Hk'. rewrite col_alter_cell, decide_False.
    + by apply (wf_sum_counters _ Hwf).
    + intros <-. key_cases Hsw; key_cases Hk'.
Qed.

Lemma wf_data_with_bin k d : wf_data d → wf_data (with_bin k d).
Proof.
  intros Hwf. unfold with_bin.
  destruct (list_index _ _ _); [done|].
  assert (∀ key, key ∈ columns → key ∈ d.*1) as Hin.
  { intros key. by rewrite (wf_keys _ Hwf). }
  split.
  - rewrite keys_append_items. apply Hwf.
  - intros key' Hk'.
    rewrite (col_append_items _ _ key') by (by apply Hin).
    rewrite (col_append_items _ _ "pulse_id_bins") by (apply Hin; solve_key).
    rewrite !length_app. by rewrite (wf_rows _ Hwf).
  - intros key' Hk'.
    rewrite col_append_items by (apply Hin; by apply counters_columns).
    apply Forall_app. split; [by apply (wf_counters _ Hwf)|].
    apply Forall_singleton. key_cases Hk'; done.
  - intros switch j Hsw. unfold cell_at.
    rewrite !col_append_items by (apply Hin; key_cases Hsw; solve_key).
    pose proof (wf_marked _ Hwf switch j Hsw) as Hold.
    assert (∀ key c, key ∈ columns →
              (col d key ++ [c]) !! j = Some PyNaN → c ≠ PyNaN →
              cell_at d key j = Some PyNaN) as Hlk.
    { intros key c Hk Hl Hc. apply lookup_app_Some in Hl as [Hl|[_ Hl]];
        [done|].
      apply list_lookup_singleton_Some in Hl as [_ ->]. done. }
    intros Hm. apply lookup_app_l_Some. apply Hold.
    destruct Hm as [Hm|Hm]; [left|right]; (eapply Hlk; [|exact Hm|]);
      key_cases Hsw; try solve_key; done.
Qed.

(** *** The steps of [record] on a well-formed table *)

Lemma run_modify_or_raise {S} (f : S → outcome S) (s s' : S) :
  f s = Ok s' → run (modify_or_raise f) s = (Ok tt, s', []).
Proof. unfold run, modify_or_raise. by intros ->. Qed.

Lemma run_increment key ind i self :
  wf self → key ∈ counters →
  py_index (length (col (data self) "pulse_id_bins")) ind = Some i →
  run (_increment key ind) self = (Ok tt, incr key i self, []).
Proof.
  intros [Hd Hs] Hk Hi. unfold _increment.
  pose proof (counters_columns _ Hk) as Hkc.
  destruct (wf_data_cell _ key i Hd Hk) as (c & Hc & Hcc).
  { by eapply py_index_lt. }
  erewrite run_bind_Ok; last first.
  { apply run_modify_or_raise.
    erewrite table_get_cell; [| |by rewrite (wf_rows _ Hd)|done];
      [|by rewrite (wf_keys _ Hd)].
    cbn [mbind outcome_bind].
    rewrite py_add_succ by (by destruct c).
    cbn [mbind outcome_bind].
    erewrite table_set_cell; [| |by rewrite (wf_rows _ Hd)];
      [|by rewrite (wf_keys _ Hd)].
    cbn [mbind outcome_bind]. rewrite alter_cell_const by done.
    reflexivity. }
  assert (∃ c', cell_at (sum_data self) key 0 = Some c' ∧ is_count c')
    as (c' & Hc' & Hcc').
  { pose proof (wf_sum_rows _ Hs key Hkc) as Hlen.
    pose proof (wf_sum_counters _ Hs key Hk) as Hall.
    unfold cell_at. destruct (col (sum_data self) key) as [|c' l]; [done|].
    exists c'. split; [done|]. by apply Forall_cons in Hall as [? _]. }
  apply run_modify_or_raise. cbn [sum_data data set_data].
  erewrite table_get_cell;
    [| by rewrite (wf_sum_keys _ Hs)
     | by rewrite (wf_sum_rows _ Hs)
     | done].
  cbn [mbind outcome_bind].
  rewrite py_add_succ by (by destruct c').
  cbn [mbind outcome_bind].
  erewrite table_set_cell;
    [| by rewrite (wf_sum_keys _ Hs) | by rewrite (wf_sum_rows _ Hs)].
  cbn [mbind outcome_bind]. rewrite alter_cell_const by done.
  reflexivity.
Qed.

Lemma run_data_set key ind i self :
  (data self).*1 = columns → key ∈ columns →
  py_index (length (col (data self) key)) ind = Some i →
  run (data_set key ind PyNaN) self = (Ok tt, mark key i self, []).
Proof.
  intros Hkeys Hk Hi. unfold data_set. apply run_modify_or_raise.
  erewrite table_set_cell; [done| |done]. by rewrite Hkeys.
Qed.

Lemma keys_mark key i self : (data (mark key i self)).*1 = (data self).*1.
Proof. apply keys_alter_cell. Qed.

Lemma length_col_mark key i self key' :
  length (col (data (mark key i self)) key') = length (col (data self) key').
Proof.
  unfold mark. cbn [data set_data]. rewrite col_alter_cell.
  case_decide; by rewrite ?length_alter.
Qed.

Lemma run_recompute_data switch ind i self :
  wf self → switch ∈ ["laser_on"; "laser_off"] →
  py_index (length (col (data self) "pulse_id_bins")) ind = Some i →
  cell_at (data self) (switch +:+ "_nframes") i ≠ Some (PyInt 0) →
  run (modify_or_raise (λ self,
         hits ← table_get (data self) (switch +:+ "_hits") ind;
         nframes ← table_get (data self) (switch +:+ "_nframes") ind;
         ratio ← py_truediv hits nframes;
         d ← table_set (data self) (switch +:+ "_hits_ratio") ind ratio;
         Ok (set_data d self))) self =
  (Ok tt, set_data (recompute_ratio switch i (data self)) self, []).
Proof.
  intros [Hd Hs] Hsw Hi Hnz. apply run_modify_or_raise.
  assert (switch +:+ "_hits" ∈ counters) as Hkh
    by (key_cases Hsw; solve_key).
  assert (switch +:+ "_nframes" ∈ counters) as Hkn
    by (key_cases Hsw; solve_key).
  assert (switch +:+ "_hits_ratio" ∈ columns) as Hkr
    by (key_cases Hsw; solve_key).
  pose proof (py_index_lt _ _ _ Hi) as Hlt.
  destruct (wf_data_cell _ _ i Hd Hkh Hlt) as (h & Hh & Hhc).
  destruct (wf_data_cell _ _ i Hd Hkn Hlt) as (n & Hn & Hnc).
  erewrite table_get_cell;
    [| rewrite (wf_keys _ Hd); by apply counters_columns
     | rewrite (wf_rows _ Hd); [done | by apply counters_columns]
     | done].
  cbn [mbind outcome_bind].
  erewrite table_get_cell;
    [| rewrite (wf_keys _ Hd); by apply counters_columns
     | rewrite (wf_rows _ Hd); [done | by apply counters_columns]
     | done].
  cbn [mbind outcome_bind].
  rewrite py_truediv_counter by (try done; congruence).
  cbn [mbind outcome_bind].
  erewrite table_set_cell;
    [| by rewrite (wf_keys _ Hd) | by rewrite (wf_rows _ Hd)].
  cbn [mbind outcome_bind]. unfold recompute_ratio.
  by rewrite Hh, Hn.
Qed.

Lemma run_recompute_sum_data switch self :
  wf self → switch ∈ ["laser_on"; "laser_off"] →
  cell_at (sum_data self) (switch +:+ "_nframes") 0 ≠ Some (PyInt 0) →
  run (modify_or_raise (λ self,
         hits ← table_get (sum_data self) (switch +:+ "_hits") (-1);
         nframes ← table_get (sum_data self) (switch +:+ "_nframes") (-1);
         ratio ← py_truediv hits nframes;
         d ← table_set (sum_data self) (switch +:+ "_hits_ratio") (-1) ratio;
         Ok (set_sum_data d self))) self =
  (Ok tt, set_sum_data (recompute_ratio switch 0 (sum_data self)) self, []).
Proof.
  intros [Hd Hs] Hsw Hnz. apply run_modify_or_raise.
  assert (switch +:+ "_hits" ∈ counters) as Hkh
    by (key_cases Hsw; solve_key).
  assert (switch +:+ "_nframes" ∈ counters) as Hkn
    by (key_cases Hsw; solve_key).
  assert (switch +:+ "_hits_ratio" ∈ columns) as Hkr
    by (key_cases Hsw; solve_key).
  assert (∀ key, key ∈ counters →
            ∃ c, cell_at (sum_data self) key 0 = Some c ∧ is_count c)
    as Hcell.
  { intros key Hk.
    pose proof (wf_sum_rows _ Hs key (counters_columns _ Hk)) as Hlen.
    pose proof (wf_sum_counters _ Hs key Hk) as Hall.
    unfold cell_at. destruct (col (sum_data self) key) as [|c' l]; [done|].
    exists c'. split; [done|]. by apply Forall_cons in Hall as [? _]. }
  destruct (Hcell _ Hkh) as (h & Hh & Hhc).
  destruct (Hcell _ Hkn) as (n & Hn & Hnc).
  erewrite table_get_cell;
    [| rewrite (wf_sum_keys _ Hs); by apply counters_columns
     | rewrite (wf_sum_rows _ Hs); [done | by apply counters_columns]
     | done].
  cbn [mbind outcome_bind].
  erewrite table_get_cell;
    [| rewrite (wf_sum_keys _ Hs); by apply counters_columns
     | rewrite (wf_sum_rows _ Hs); [done | by apply counters_columns]
     | done].
  cbn [mbind outcome_bind].
  rewrite py_truediv_counter
    by (try (by apply is_count_counter); congruence).
  cbn [mbind outcome_bind].
  erewrite table_set_cell;
    [| by rewrite (wf_sum_keys _ Hs) | by rewrite (wf_sum_rows _ Hs)].
  cbn [mbind outcome_bind]. unfold recompute_ratio.
  by rewrite Hh, Hn.
Qed.

(** *** The invariant along the steps *)

Lemma nrows_alter_cell f key i d :
  length (col (alter_cell f key i d) "pulse_id_bins") =
  length (col d "pulse_id_bins").
Proof. rewrite col_alter_cell. case_decide; by rewrite ?length_alter. Qed.

Lemma nrows_incr key i self :
  length (col (data (incr key i self)) "pulse_id_bins") =
  length (col (data self) "pulse_id_bins").
Proof. apply nrows_alter_cell. Qed.

Lemma nrows_mark key i self :
  length (col (data (mark key i self)) "pulse_id_bins") =
  length (col (data self) "pulse_id_bins").
Proof. apply nrows_alter_cell. Qed.

Lemma wf_mark key i self :
  wf self → key ∈ columns → key ≠ "pulse_id_bins" →
  (∀ switch, switch ∈ ["laser_on"; "laser_off"] →
     key = switch +:+ "_hits" ∨ key = switch +:+ "_hits_ratio" →
     cell_at (data self) (switch +:+ "_nframes") i = Some PyNaN) →
  wf (mark key i self).
Proof.
  intros [Hd Hs] Hk Hne Hside. split; [|done]. by apply wf_data_mark.
Qed.

Lemma incr_nonzero key i self :
  wf self → key ∈ counters →
  cell_at (data (incr key i self)) key i ≠ Some (PyInt 0)
  ∧ cell_at (sum_data (incr key i self)) key 0 ≠ Some (PyInt 0).
Proof.
  intros [Hd Hs] Hk. unfold incr. cbn [data sum_data set_data set_sum_data].
  rewrite !cell_at_alter_cell_eq, !decide_True by done. split.
  - destruct (cell_at (data self) key i) as [c|] eqn:Hc; [|done].
    pose proof (wf_counter_at _ _ _ _ Hd Hk Hc).
    destruct c; simpl in *; try done. intros [= ?]. lia.
  - destruct (cell_at (sum_data self) key 0) as [c|] eqn:Hc; [|done].
    assert (is_count c).
    { eapply Forall_lookup_1; [by apply (wf_sum_counters _ Hs key)|done]. }
    destruct c; simpl in *; try done. intros [= ?]. lia.
Qed.

(** The index that [record] computes denotes the row [bin_row]. *)
Lemma bin_ind_row k d :
  wf_data d →
  let bin_ind :=
    match list_index (col d "pulse_id_bins") k (-5) with
    | Ok z => z
    | Raise _ => -1
    end in
  py_index (length (col (with_bin k d) "pulse_id_bins")) bin_ind
  = Some (bin_row k d).
Proof.
  intros Hwf. unfold with_bin, bin_row. cbn zeta.
  destruct (list_index _ _ _) as [z|e] eqn:Hidx.
  - apply list_index_bounds in Hidx.
    rewrite <- (Z2Nat.id z) at 1 by lia. apply py_index_nat. lia.
  - rewrite col_append_items by (rewrite (wf_keys _ Hwf); solve_key).
    rewrite length_app. cbn [length]. rewrite py_index_last by lia.
    f_equal. lia.
Qed.

Lemma bin_row_lt k d :
  wf_data d →
  (bin_row k d < length (col (with_bin k d) "pulse_id_bins"))%nat.
Proof. intros Hwf. eapply py_index_lt, bin_ind_row. done. Qed.

Lemma wf_set_data d self : wf self → wf_data d → wf (set_data d self).
Proof. by intros [_ Hs] Hd. Qed.

Lemma wf_record_counts k metadata self :
  wf self → wf (record_counts k metadata self).
Proof.
  intros Hwf. unfold record_counts. cbn zeta.
  assert (wf (incr "nframes" (bin_row k (data self))
                (set_data (with_bin k (data self)) self))) as H1.
  { apply wf_incr; [|solve_key].
    apply wf_set_data; [done|]. apply wf_data_with_bin, Hwf. }
  assert (wf match md_is_good_frame metadata with
             | Some false =>
                 incr "bad_frames" (bin_row k (data self))
                   (incr "nframes" (bin_row k (data self))
                      (set_data (with_bin k (data self)) self))
             | _ => incr "nframes" (bin_row k (data self))
                      (set_data (with_bin k (data self)) self)
             end) as H2.
  { destruct (md_is_good_frame metadata) as [[]|]; try done.
    apply wf_incr; [done|solve_key]. }
  destruct (md_saturated_pixels metadata) as [n|].
  - destruct (negb (n =? 0)); [|done]. apply wf_incr; [done|solve_key].
  - apply wf_mark; [done|solve_key|done|].
    intros switch Hsw [H|H]; key_cases Hsw; done.
Qed.

Lemma nrows_record_counts k metadata self :
  length (col (data (record_counts k metadata self)) "pulse_id_bins") =
  length (col (with_bin k (data self)) "pulse_id_bins").
Proof.
  unfold record_counts. cbn zeta.
  destruct (md_saturated_pixels metadata) as [n|];
    [destruct (negb (n =? 0))|];
    destruct (md_is_good_frame metadata) as [[]|];
    by rewrite ?nrows_mark, ?nrows_incr.
Qed.

Lemma cell_at_mark key i self key' j :
  cell_at (data (mark key i self)) key' j =
  if decide (key = key' ∧ i = j) then (λ _, PyNaN) <$> cell_at (data self) key' j
  else cell_at (data self) key' j.
Proof. apply cell_at_alter_cell. Qed.

Lemma wf_row_is_Some self key i :
  wf self → key ∈ columns →
  (i < length (col (data self) "pulse_id_bins"))%nat →
  is_Some (cell_at (data self) key i).
Proof.
  intros [Hd _] Hk Hi. apply lookup_lt_is_Some.
  by rewrite (wf_rows _ Hd).
Qed.

(** After the frame count of a laser state has been incremented it is not
    0, in the bin and in the summary row. *)
Lemma laser_counts_nonzero switch (is_hit_frame : bool) i self :
  wf self → switch ∈ ["laser_on"; "laser_off"] →
  let self1 := incr (switch +:+ "_nframes") i self in
  let self2 :=
    if is_hit_frame then incr (switch +:+ "_hits") i self1 else self1 in
  wf self1 ∧ wf self2
  ∧ cell_at (data self2) (switch +:+ "_nframes") i ≠ Some (PyInt 0)
  ∧ cell_at (sum_data self2) (switch +:+ "_nframes") 0 ≠ Some (PyInt 0).
Proof.
  intros Hwf Hsw self1 self2.
  assert (switch +:+ "_hits" ∈ counters) as Hkh
    by (key_cases Hsw; solve_key).
  assert (switch +:+ "_nframes" ∈ counters) as Hkn
    by (key_cases Hsw; solve_key).
  pose proof (wf_incr _ i _ Hwf Hkn) as H1.
  destruct (incr_nonzero _ i _ Hwf Hkn) as [Hnz1 Hnz1'].
  split; [done|]. subst self2. destruct is_hit_frame; [|done].
  split; [by apply wf_incr|].
  unfold incr. cbn [data sum_data set_data set_sum_data].
  rewrite !cell_at_alter_cell_ne by (key_cases Hsw; done). done.
Qed.

Lemma wf_record_laser laser_on is_hit_frame i self :
  wf self → (i < length (col (data self) "pulse_id_bins"))%nat →
  wf (record_laser laser_on is_hit_frame i self).
Proof.
  intros Hwf Hi. unfold record_laser.
  destruct laser_on as [b|].
  - set (switch := if b then "laser_on" else "laser_off").
    assert (switch ∈ ["laser_on"; "laser_off"]) as Hsw.
    { subst switch. destruct b; solve_key. }
    clearbody switch. cbn zeta.
    destruct (laser_counts_nonzero switch is_hit_frame i self Hwf Hsw)
      as (_ & H2 & Hnz2 & Hnz2').
    cbn zeta in H2, Hnz2, Hnz2'.
    set (s2 := if is_hit_frame then _ else _) in *. clearbody s2.
    destruct H2 as [Hd2 Hs2]. split.
    + cbn [data set_data set_sum_data]. by apply wf_data_recompute_ratio.
    + cbn [sum_data set_data set_sum_data].
      by apply wf_sum_data_recompute_ratio.
  - assert (∀ (s : @CBDStatisticsHandler.t scalar) key,
              wf s → key ∈ columns → key ≠ "pulse_id_bins" →
              (i < length (col (data s) "pulse_id_bins"))%nat →
              (∀ switch, switch ∈ ["laser_on"; "laser_off"] →
                 key = switch +:+ "_hits" ∨ key = switch +:+ "_hits_ratio" →
                 cell_at (data s) (switch +:+ "_nframes") i = Some PyNaN) →
              wf (mark key i s)
              ∧ (i < length (col (data (mark key i s)) "pulse_id_bins"))%nat
              ∧ (∀ key', (key' = key ∨ cell_at (data s) key' i = Some PyNaN) →
                   key' ∈ columns →
                   cell_at (data (mark key i s)) key' i = Some PyNaN))
      as Hstep.
    { intros s key Hs Hk Hne Hlt Hside. split_and!.
      - by apply wf_mark.
      - by rewrite nrows_mark.
      - intros key' Hor Hk'. rewrite cell_at_mark. case_decide as Hdec.
        + destruct (wf_row_is_Some s key' i) as [c Hc]; [done..|].
          by rewrite Hc.
        + destruct Hor as [->|H]; [|done]. by destruct Hdec. }
    destruct (Hstep self "laser_on_nframes") as (H1 & L1 & N1);
      [done | solve_key | done | done
      | intros sw Hsw [H|H]; key_cases Hsw; done |].
    destruct (Hstep _ "laser_on_hits" H1) as (H2 & L2 & N2);
      [solve_key | done | done
      | intros sw Hsw [H|H]; key_cases Hsw; try done;
        apply N1; [by left | solve_key] |].
    destruct (Hstep _ "laser_on_hits_ratio" H2) as (H3 & L3 & N3);
      [solve_key | done | done
      | intros sw Hsw [H|H]; key_cases Hsw; try done;
        apply N2; [right; apply N1; [by left | solve_key] | solve_key] |].
    destruct (Hstep _ "laser_off_nframes" H3) as (H4 & L4 & N4);
      [solve_key | done | done
      | intros sw Hsw [H|H]; key_cases Hsw; done |].
    destruct (Hstep _ "laser_off_hits" H4) as (H5 & L5 & N5);
      [solve_key | done | done
      | intros sw Hsw [H|H]; key_cases Hsw; try done;
        apply N4; [by left | solve_key] |].
    destruct (Hstep _ "laser_off_hits_ratio" H5) as (H6 & L6 & N6);
      [solve_key | done | done
      | intros sw Hsw [H|H]; key_cases Hsw; try done;
        apply N5; [right; apply N4; [by left | solve_key] | solve_key] |].
    done.
Qed.

Lemma set_data_id self : set_data (data self) self = self.
Proof. by destruct self. Qed.

(** *** What [record] does on a well-formed table

    The block stops at the first of the two names that is unbound; up to
    there it has run as [record_counts] and [record_laser] say. *)
Lemma run_record g metadata is_hit_frame self :
  wf self →
  run (record g metadata is_hit_frame) self =
  match g_pulse_id_bin g with
  | None => (Raise (NameError "pulse_id_bin"), self, [])
  | Some k =>
      let self1 := record_counts k metadata self in
      match g_laser_on g with
      | None => (Raise (NameError "laser_on"), self1, [])
      | Some laser_on =>
          (Ok tt,
           record_laser laser_on is_hit_frame (bin_row k (data self)) self1,
           [])
      end
  end.
Proof.
  intros Hwf. unfold record.
  assert (dict_get (data self) "pulse_id_bins"
          = Ok (col (data self) "pulse_id_bins")) as Hbins.
  { apply dict_get_col. rewrite (wf_keys _ (proj1 Hwf)). solve_key. }
  destruct (g_pulse_id_bin g) as [k|] eqn:Hk; last first.
  { rewrite run_bind.
    unfold run, try_except_ValueError, mbind, M_bind, get, lift, lookup_name,
      raise. by rewrite Hbins. }
  pose proof (bin_ind_row k (data self) (proj1 Hwf)) as Hrow.
  cbn zeta in Hrow.
  assert (wf (set_data (with_bin k (data self)) self)) as Hwf1.
  { apply wf_set_data; [done|]. apply wf_data_with_bin, Hwf. }
  unfold record_counts. cbn zeta.
  set (i := bin_row k (data self)) in *. clearbody i.
  (* the bin is found or appended *)
  match goal with
  | |- run (?m ≫= _) _ = _ =>
      assert (run m self =
              (Ok match list_index (col (data self) "pulse_id_bins") k (-5)
                  with
                  | Ok z => z
                  | Raise _ => -1
                  end, self, [])) as Hfind
  end.
  { unfold run, try_except_ValueError, mbind, M_bind, get, lift, lookup_name,
      mret, M_ret. rewrite Hbins.
    destruct (list_index _ _ _) as [z|e] eqn:Hidx; [done|].
    by rewrite (list_index_raises _ _ _ _ Hidx). }
  rewrite (run_bind_Ok _ _ _ _ _ Hfind). clear Hfind.
  match goal with
  | |- run (?m ≫= _) _ = _ =>
      assert (run m self = (Ok tt, set_data (with_bin k (data self)) self, []))
        as Hnew
  end.
  { unfold with_bin.
    destruct (list_index _ _ _) as [z|e] eqn:Hidx.
    - apply list_index_bounds in Hidx.
      destruct (Z.eqb_spec z (-1)); [lia|]. by rewrite set_data_id.
    - reflexivity. }
  rewrite (run_bind_Ok _ _ _ _ _ Hnew). clear Hnew.
  set (bin_ind := match list_index _ _ _ with Ok z => z | Raise _ => -1 end)
    in *.
  clearbody bin_ind.
  set (s1 := set_data (with_bin k (data self)) self) in *.
  assert (py_index (length (col (data s1) "pulse_id_bins")) bin_ind = Some i)
    as Hrow1 by done.
  clearbody s1. clear Hrow Hbins Hwf Hk self.
  (* nframes *)
  rewrite (run_bind_Ok _ _ _ _ _
    (run_increment "nframes" bin_ind i s1 Hwf1 ltac:(solve_key) Hrow1)).
  set (s2 := incr "nframes" i s1).
  assert (wf s2) as Hwf2 by (apply wf_incr; [done|solve_key]).
  assert (py_index (length (col (data s2) "pulse_id_bins")) bin_ind = Some i)
    as Hrow2 by (by subst s2; rewrite nrows_incr).
  clearbody s2. clear Hwf1 Hrow1 s1.
  (* bad_frames *)
  match goal with
  | |- run (?m ≫= _) _ = _ =>
      assert (run m s2 =
              (Ok tt,
               match md_is_good_frame metadata with
               | Some false => incr "bad_frames" i s2
               | _ => s2
               end, [])) as Hstep
  end.
  { destruct (md_is_good_frame metadata) as [[]|]; try reflexivity.
    apply run_increment; [done|solve_key|done]. }
  rewrite (run_bind_Ok _ _ _ _ _ Hstep). clear Hstep.
  set (s3 := match md_is_good_frame metadata with
             | Some false => incr "bad_frames" i s2
             | _ => s2
             end).
  assert (wf s3) as Hwf3.
  { subst s3. destruct (md_is_good_frame metadata) as [[]|]; try done.
    apply wf_incr; [done|solve_key]. }
  assert (py_index (length (col (data s3) "pulse_id_bins")) bin_ind = Some i)
    as Hrow3.
  { subst s3. destruct (md_is_good_frame metadata) as [[]|];
      by rewrite ?nrows_incr. }
  clearbody s3. clear Hwf2 Hrow2 s2.
  (* sat_pix_nframes *)
  match goal with
  | |- run (?m ≫= _) _ = _ =>
      assert (run m s3 =
              (Ok tt,
               match md_saturated_pixels metadata with
               | Some saturated_pixels =>
                   if negb (saturated_pixels =? 0)
                   then incr "sat_pix_nframes" i s3 else s3
               | None => mark "sat_pix_nframes" i s3
               end, [])) as Hstep
  end.
  { destruct (md_saturated_pixels metadata) as [n|].
    - destruct (negb (n =? 0)); [|reflexivity].
      apply run_increment; [done|solve_key|done].
    - apply run_data_set; [apply Hwf3|solve_key|].
      by rewrite (wf_rows _ (proj1 Hwf3)) by solve_key. }
  rewrite (run_bind_Ok _ _ _ _ _ Hstep). clear Hstep.
  set (s4 := match md_saturated_pixels metadata with
             | Some saturated_pixels =>
                 if negb (saturated_pixels =? 0)
                 then incr "sat_pix_nframes" i s3 else s3
             | None => mark "sat_pix_nframes" i s3
             end).
  assert (wf s4) as Hwf4.
  { subst s4. destruct (md_saturated_pixels metadata) as [n|].
    - destruct (negb (n =? 0)); [|done]. apply wf_incr; [done|solve_key].
    - apply wf_mark; [done|solve_key|done|].
      intros switch Hsw [H|H]; key_cases Hsw; done. }
  assert (py_index (length (col (data s4) "pulse_id_bins")) bin_ind = Some i)
    as Hrow4.
  { subst s4. destruct (md_saturated_pixels metadata) as [n|];
      [destruct (negb (n =? 0))|]; by rewrite ?nrows_incr, ?nrows_mark. }
  clearbody s4. clear Hwf3 Hrow3 s3.
  (* laser_on *)
  destruct (g_laser_on g) as [laser_on|]; [|reflexivity].
  rewrite (run_bind_Ok _ _ s4 s4 laser_on) by reflexivity.
  unfold record_laser.
  destruct laser_on as [b|].
  - set (switch := if b then "laser_on" else "laser_off").
    assert (switch ∈ ["laser_on"; "laser_off"]) as Hsw.
    { subst switch. destruct b; solve_key. }
    clearbody switch. cbn zeta.
    destruct (laser_counts_nonzero switch is_hit_frame i s4 Hwf4 Hsw)
      as (Hwf5 & Hwf6 & Hnz & Hnz').
    cbn zeta in Hwf5, Hwf6, Hnz, Hnz'.
    assert (switch +:+ "_hits" ∈ counters) as Hkh
      by (key_cases Hsw; solve_key).
    assert (switch +:+ "_nframes" ∈ counters) as Hkn
      by (key_cases Hsw; solve_key).
    rewrite (run_bind_Ok _ _ _ _ _
      (run_increment _ bin_ind i s4 Hwf4 Hkn Hrow4)).
    set (s5 := incr (switch +:+ "_nframes") i s4) in *.
    assert (py_index (length (col (data s5) "pulse_id_bins")) bin_ind
            = Some i) as Hrow5 by (by subst s5; rewrite nrows_incr).
    clearbody s5.
    match goal with
    | |- run (?m ≫= _) _ = _ =>
        assert (run m s5 =
                (Ok tt,
                 if is_hit_frame then incr (switch +:+ "_hits") i s5 else s5,
                 [])) as Hstep
    end.
    { destruct is_hit_frame; [|reflexivity]. by apply run_increment. }
    rewrite (run_bind_Ok _ _ _ _ _ Hstep). clear Hstep.
    set (s6 := if is_hit_frame then _ else s5) in *.
    assert (py_index (length (col (data s6) "pulse_id_bins")) bin_ind
            = Some i) as Hrow6.
    { subst s6. destruct is_hit_frame; by rewrite ?nrows_incr. }
    clearbody s6.
    rewrite (run_bind_Ok _ _ _ _ _
      (run_recompute_data switch bin_ind i s6 Hwf6 Hsw Hrow6 Hnz)).
    apply run_recompute_sum_data; [|done|done].
    destruct Hwf6 as [Hd6 Hs6]. split; [|done].
    by apply wf_data_recompute_ratio.
  - destruct Hwf4 as [Hd4 _].
    repeat (erewrite run_bind_Ok;
            [| apply run_data_set;
               [ rewrite ?keys_mark; apply Hd4
               | solve_key
               | rewrite ?length_col_mark;
                 by rewrite (wf_rows _ Hd4) by solve_key ]]).
    apply run_data_set;
      [ rewrite ?keys_mark; apply Hd4
      | solve_key
      | rewrite ?length_col_mark; by rewrite (wf_rows _ Hd4) by solve_key ].
Qed.

(** *** [record] and the rest of the handler *)

Ltac preserves_steps :=
  repeat first
    [ apply preserves_mret | apply preserves_get | apply preserves_lift
    | apply preserves_raise | apply preserves_log
    | apply preserves_bind; [|intros ?]
    | apply preserves_try_except
    | match goal with
      | |- preserves _ (match ?x with _ => _ end) => destruct x
      end ].

(** [record] only assigns to [self.data] and [self.sum_data]. *)
Lemma record_preserves_buffers g metadata is_hit_frame bs :
  preserves (λ self, buffers self = bs) (record g metadata is_hit_frame).
Proof.
  unfold record, _increment, data_set, lookup_name.
  preserves_steps.
  all: try (apply preserves_modify; by intros ? <-).
  all: apply preserves_modify_or_raise; intros s s' <- Hf;
    unfold mbind, outcome_bind in Hf; repeat case_match; by simplify_eq.
Qed.

Lemma wf_record g metadata is_hit_frame self :
  wf self → wf (final (run (record g metadata is_hit_frame) self)).
Proof.
  intros Hwf. rewrite run_record by done.
  destruct (g_pulse_id_bin g) as [k|]; [|done]. cbn zeta.
  pose proof (wf_record_counts k metadata self Hwf) as H1.
  destruct (g_laser_on g) as [l|]; [|done].
  unfold final; cbn [fst snd]. apply wf_record_laser; [done|].
  rewrite nrows_record_counts. apply bin_row_lt, Hwf.
Qed.

Lemma parse_preserves_wf g metadata image : preserves wf (parse g metadata image).
Proof.
  unfold parse. case_decide; [apply preserves_log|].
  apply preserves_bind; [by apply preserves_zoom|intros _].
  destruct (negb _); [apply preserves_log|].
  repeat (apply preserves_bind; [by apply preserves_zoom|intros _]).
  intros self. apply wf_record.
Qed.

Lemma clear_preserves_wf : preserves wf (clear (scalar := scalar)).
Proof.
  unfold clear.
  repeat (apply preserves_bind; [by apply preserves_zoom|intros _]).
  by apply preserves_zoom.
Qed.

(** *** [reset] *)

Lemma data_keys_shape d :
  d.*1 = columns → map (λ '(key, _), (key, [])) d = empty_data.
Proof.
  intros Hkeys. unfold columns, empty_data in *.
  do 10 (destruct d as [|[? ?] d]; [done|]). destruct d; [|done].
  by simplify_eq/=.
Qed.

Lemma wf_sum_data_shape d :
  wf_sum_data d →
  ∃ c1 c2 c3 c4 c5 c6 c7 c8 c9,
    d = [("pulse_id_bins", [PyStr "Summary"]); ("nframes", [c1]);
         ("bad_frames", [c2]); ("sat_pix_nframes", [c3]);
         ("laser_on_nframes", [c4]); ("laser_on_hits", [c5]);
         ("laser_on_hits_ratio", [c6]); ("laser_off_nframes", [c7]);
         ("laser_off_hits", [c8]); ("laser_off_hits_ratio", [c9])].
Proof.
  intros [Hkeys Hrows Hkey _]. unfold columns, empty_data in Hkeys.
  do 10 (destruct d as [|[? ?] d]; [done|]). destruct d; [|done].
  simplify_eq/=.
  assert (∀ key (v : list cell),
            key ∈ columns →
            col [("pulse_id_bins", l); ("nframes", l0); ("bad_frames", l1);
                 ("sat_pix_nframes", l2); ("laser_on_nframes", l3);
                 ("laser_on_hits", l4); ("laser_on_hits_ratio", l5);
                 ("laser_off_nframes", l6); ("laser_off_hits", l7);
                 ("laser_off_hits_ratio", l8)] key = v →
            ∃ c, v = [c]) as Hone.
  { intros key v Hk <-. specialize (Hrows key Hk).
    destruct (col _ key) as [|c [|]]; try done. by exists c. }
  destruct (Hone "nframes" l0) as [c1 ->]; [solve_key|done|].
  destruct (Hone "bad_frames" l1) as [c2 ->]; [solve_key|done|].
  destruct (Hone "sat_pix_nframes" l2) as [c3 ->]; [solve_key|done|].
  destruct (Hone "laser_on_nframes" l3) as [c4 ->]; [solve_key|done|].
  destruct (Hone "laser_on_hits" l4) as [c5 ->]; [solve_key|done|].
  destruct (Hone "laser_on_hits_ratio" l5) as [c6 ->]; [solve_key|done|].
  destruct (Hone "laser_off_nframes" l6) as [c7 ->]; [solve_key|done|].
  destruct (Hone "laser_off_hits" l7) as [c8 ->]; [solve_key|done|].
  destruct (Hone "laser_off_hits_ratio" l8) as [c9 ->]; [solve_key|done|].
  change (l = [PyStr "Summary"]) in Hkey. subst l.
  by exists c1, c2, c3, c4, c5, c6, c7, c8, c9.
Qed.

Lemma wf_init : wf __init__.
Proof.
  split.
  - split.
    + reflexivity.
    + intros key Hk. key_cases Hk; reflexivity.
    + intros key Hk. key_cases Hk; constructor.
    + intros switch i Hsw. key_cases Hsw; by intros [?|?].
  - split.
    + reflexivity.
    + intros key Hk. key_cases Hk; reflexivity.
    + reflexivity.
    + intros key Hk. key_cases Hk; by repeat constructor.
Qed.

Lemma run_reset self :
  wf self →
  run reset self =
  (Ok tt, set_sum_data (sum_data __init__) (set_data empty_data self), []).
Proof.
  intros [Hd Hs]. unfold reset.
  erewrite run_bind_Ok; [|reflexivity].
  rewrite data_keys_shape by apply Hd.
  destruct (wf_sum_data_shape _ Hs)
    as (c1 & c2 & c3 & c4 & c5 & c6 & c7 & c8 & c9 & Hshape).
  unfold run, reset_sum_data. cbn [sum_data set_data]. rewrite Hshape.
  reflexivity.
Qed.

Lemma reset_preserves_wf : preserves wf (reset (scalar := scalar)).
Proof.
  intros self Hwf. rewrite run_reset by done. apply wf_init.
Qed.

(** Every state of a handler has a well-formed table. *)
Lemma reachable_wf self : reachable self → wf self.
Proof.
  induction 1 as [|g metadata image self _ IH|self _ IH|self _ IH].
  - apply wf_init.
  - by apply parse_preserves_wf.
  - by apply reset_preserves_wf.
  - by apply clear_preserves_wf.
Qed.

(** *** Reading the table that [record] leaves *)

Lemma data_incr key i self :
  data (incr key i self) = alter_cell py_succ key i (data self).
Proof. reflexivity. Qed.

Lemma sum_data_incr key i self :
  sum_data (incr key i self) = alter_cell py_succ key 0 (sum_data self).
Proof. reflexivity. Qed.

Lemma data_mark key i self :
  data (mark key i self) = alter_cell (λ _, PyNaN) key i (data self).
Proof. reflexivity. Qed.

Lemma sum_data_mark key i self : sum_data (mark key i self) = sum_data self.
Proof. reflexivity. Qed.


(** The row of the bin is a row of the table in which the bin has been
    found or appended, and every other row is as it was. *)
Lemma cell_at_with_bin_inv k d key j c :
  wf_data d → key ∈ columns →
  cell_at (with_bin k d) key j = Some c →
  cell_at d key j = Some c
  ∨ (j = bin_row k d ∧ j = length (col d "pulse_id_bins")
     ∧ c = if String.eqb key "pulse_id_bins" then PyInt k else PyInt 0).
Proof.
  intros Hwf Hk. unfold with_bin, bin_row.
  destruct (list_index _ _ _); [by left|].
  unfold cell_at. rewrite col_append_items by (by rewrite (wf_keys _ Hwf)).
  intros [Hc|[Hj Hc]]%lookup_app_Some; [by left|right].
  apply list_lookup_singleton_Some in Hc as [Hj' <-].
  rewrite (wf_rows _ Hwf) in Hj, Hj' by done. split_and!; [lia..|done].
Qed.

Lemma py_quot_counts (h n : cell) (z : Z) :
  is_counter h → (h = PyNaN → n = PyNaN) → n = PyInt z → z ≠ 0 →
  ∃ y, h = PyInt y ∧ py_quot h n = PyFloat (inject_Z y / inject_Z z).
Proof.
  intros Hh Hnan -> Hz. destruct h as [y| | |]; try done.
  - exists y. split; [done|]. unfold py_quot, py_truediv.
    rewrite is_zero_PyInt. by destruct (Z.eqb_spec z 0).
  - by specialize (Hnan eq_refl).
Qed.


Lemma recompute_ratio_is_quotient switch j d (h n : cell) :
  switch ∈ ["laser_on"; "laser_off"] →
  cell_at d (switch +:+ "_hits") j = Some h →
  cell_at d (switch +:+ "_nframes") j = Some n →
  is_Some (cell_at d (switch +:+ "_hits_ratio") j) →
  is_counter h → is_counter n → n ≠ PyInt 0 → (h = PyNaN → n = PyNaN) →
  ratio_is_quotient (recompute_ratio switch j d) switch j.
Proof.
  intros Hsw Hh Hn [r Hr] Hhc Hnc Hnz Hnan.
  exists h, n, (py_quot h n). unfold recompute_ratio.
  rewrite !cell_at_alter_cell_ne by (key_cases Hsw; done).
  rewrite cell_at_alter_cell_eq, decide_True by done.
  rewrite Hh, Hn, Hr. split_and!; [done..| |].
  - by apply py_truediv_counter.
  - intros z ->. assert (z ≠ 0) as Hz by congruence.
    split; [simpl in Hnc; lia|]. by apply py_quot_counts.
Qed.

Lemma cell_at_record_counts k metadata self key j :
  key ∉ ["nframes"; "bad_frames"; "sat_pix_nframes"] →
  cell_at (data (record_counts k metadata self)) key j
  = cell_at (with_bin k (data self)) key j
  ∧ cell_at (sum_data (record_counts k metadata self)) key j
    = cell_at (sum_data self) key j.
Proof.
  intros Hk. unfold record_counts. cbn zeta.
  assert (key ≠ "nframes" ∧ key ≠ "bad_frames" ∧ key ≠ "sat_pix_nframes")
    as (H1 & H2 & H3).
  { split_and!; intros ->; apply Hk; solve_key. }
  destruct (md_saturated_pixels metadata) as [n|];
    [destruct (negb (n =? 0))|];
    destruct (md_is_good_frame metadata) as [[]|];
    rewrite ?data_incr, ?sum_data_incr, ?data_mark, ?sum_data_mark,
      ?data_incr, ?sum_data_incr, ?data_incr, ?sum_data_incr;
    by rewrite ?cell_at_alter_cell_ne by done.
Qed.

(** The block with its two names bound, which the module never does:
    [pulse_id_bin] to [k] and [laser_on] to a bool.  On a table that a
    handler can have the block returns; in the row of the matched bin and
    in the summary row the hit ratio of that laser state is what
    [hits / nframes] evaluates to (the float is modelled by the quotient
    it rounds); and wherever a frame count is 0 after the call, the ratio
    next to it has not been recomputed: it is what it was in the table
    with the bin found or appended (0 in a bin just created). *)
Lemma record_hit_ratio (k : Z) (b : bool) metadata (is_hit_frame : bool)
    self :
  reachable self →
  let r := run (record (Globals (Some k) (Some (Some b)))
                  metadata is_hit_frame) self in
  let switch := if b then "laser_on" else "laser_off" in
  result r = Ok tt
  ∧ ratio_is_quotient (data (final r)) switch (bin_row k (data self))
  ∧ ratio_is_quotient (sum_data (final r)) switch 0
  ∧ (∃ z, cell_at (sum_data (final r)) (switch +:+ "_nframes") 0
          = Some (PyInt z) ∧ 0 < z)
  ∧ (∀ switch' j, switch' ∈ ["laser_on"; "laser_off"] →
       cell_at (data (final r)) (switch' +:+ "_nframes") j = Some (PyInt 0) →
       cell_at (data (final r)) (switch' +:+ "_hits_ratio") j
       = cell_at (with_bin k (data self)) (switch' +:+ "_hits_ratio") j)
  ∧ (∀ switch', switch' ∈ ["laser_on"; "laser_off"] →
       cell_at (sum_data (final r)) (switch' +:+ "_nframes") 0
       = Some (PyInt 0) →
       cell_at (sum_data (final r)) (switch' +:+ "_hits_ratio") 0
       = cell_at (sum_data self) (switch' +:+ "_hits_ratio") 0).
Proof.
  intros Hwf%reachable_wf r switch. subst r.
  rewrite run_record by done. cbn [g_pulse_id_bin g_laser_on].
  unfold result, final. cbn [fst snd]. cbn zeta.
  assert (switch ∈ ["laser_on"; "laser_off"]) as Hsw.
  { subst switch. destruct b; solve_key. }
  pose proof (wf_record_counts k metadata self Hwf) as Hwfc.
  pose proof (bin_row_lt k (data self) (proj1 Hwf)) as Hlt.
  rewrite <- (nrows_record_counts k metadata self) in Hlt.
  pose proof (λ key j, cell_at_record_counts k metadata self key j)
    as Hframe.
  set (i := bin_row k (data self)) in *.
  set (sc := record_counts k metadata self) in *. clearbody sc.
  unfold record_laser. fold switch. clearbody switch. cbn zeta.
  destruct (laser_counts_nonzero switch is_hit_frame i sc Hwfc Hsw)
    as (_ & Hwf2 & Hnz & Hnz').
  cbn zeta in Hwf2, Hnz, Hnz'.
  assert (∀ key j, key ∉ counters →
            cell_at (data (if is_hit_frame
                           then incr (switch +:+ "_hits") i
                                  (incr (switch +:+ "_nframes") i sc)
                           else incr (switch +:+ "_nframes") i sc)) key j
            = cell_at (data sc) key j
            ∧ cell_at (sum_data (if is_hit_frame
                           then incr (switch +:+ "_hits") i
                                  (incr (switch +:+ "_nframes") i sc)
                           else incr (switch +:+ "_nframes") i sc)) key j
              = cell_at (sum_data sc) key j) as Hframe2.
  { intros key j Hk.
    assert (key ≠ switch +:+ "_hits" ∧ key ≠ switch +:+ "_nframes")
      as [H1 H2].
    { split; intros ->; apply Hk; key_cases Hsw; solve_key. }
    destruct is_hit_frame;
      rewrite ?data_incr, ?sum_data_incr, ?data_incr, ?sum_data_incr;
      by rewrite ?cell_at_alter_cell_ne by done. }
  assert (length (col (data (if is_hit_frame
                           then incr (switch +:+ "_hits") i
                                  (incr (switch +:+ "_nframes") i sc)
                           else incr (switch +:+ "_nframes") i sc))
                      "pulse_id_bins") = length (col (data sc) "pulse_id_bins"))
    as Hrows2.
  { destruct is_hit_frame; by rewrite ?nrows_incr. }
  set (s2 := if is_hit_frame then _ else _) in *. clearbody s2.
  rewrite <- Hrows2 in Hlt.
  cbn [data sum_data set_data set_sum_data].
  destruct Hwf2 as [Hd2 Hs2].
  assert (switch +:+ "_hits" ∈ counters) as Hkh
    by (key_cases Hsw; solve_key).
  assert (switch +:+ "_nframes" ∈ counters) as Hkn
    by (key_cases Hsw; solve_key).
  assert (switch +:+ "_hits_ratio" ∈ columns) as Hkr
    by (key_cases Hsw; solve_key).
  destruct (wf_data_cell _ _ i Hd2 Hkh Hlt) as (h & Hh & Hhc).
  destruct (wf_data_cell _ _ i Hd2 Hkn Hlt) as (n & Hn & Hnc).
  assert (∀ key, key ∈ counters →
            ∃ c, cell_at (sum_data s2) key 0 = Some c ∧ is_count c)
    as Hcell.
  { intros key Hk.
    pose proof (wf_sum_rows _ Hs2 key (counters_columns _ Hk)) as Hlen.
    pose proof (wf_sum_counters _ Hs2 key Hk) as Hall.
    unfold cell_at. destruct (col (sum_data s2) key) as [|c' l]; [done|].
    exists c'. split; [done|]. by apply Forall_cons in Hall as [? _]. }
  destruct (Hcell _ Hkh) as (h' & Hh' & Hhc').
  destruct (Hcell _ Hkn) as (n' & Hn' & Hnc').
  assert (∀ switch', switch' ∈ ["laser_on"; "laser_off"] →
            switch' +:+ "_hits_ratio" ∉ counters) as Hratio.
  { intros switch' Hsw' Hc. key_cases Hsw'; key_cases Hc. }
  split_and!.
  - done.
  - apply (recompute_ratio_is_quotient switch i (data s2) h n);
      [done|done|done| |done|done|congruence|].
    + apply lookup_lt_is_Some. by rewrite (wf_rows _ Hd2).
    + intros ->.
      pose proof (wf_marked _ Hd2 switch i Hsw (or_introl Hh)). congruence.
  - apply (recompute_ratio_is_quotient switch 0 (sum_data s2) h' n');
      [done|done|done| |by apply is_count_counter|by apply is_count_counter
      |congruence|by intros ->].
    apply lookup_lt_is_Some. rewrite (wf_sum_rows _ Hs2) by done. lia.
  - unfold recompute_ratio.
    rewrite cell_at_alter_cell_ne by (key_cases Hsw; done).
    destruct n' as [z| | |]; try done. exists z. split; [done|].
    simpl in Hnc'. assert (z ≠ 0) by congruence. lia.
  - intros switch' j Hsw'. unfold recompute_ratio.
    rewrite cell_at_alter_cell_ne by (key_cases Hsw; key_cases Hsw'; done).
    intros Hzero. rewrite cell_at_alter_cell. case_decide as Hdec.
    + destruct Hdec as [Hkey <-].
      assert (switch' = switch) as -> by (key_cases Hsw; key_cases Hsw'; done).
      congruence.
    + rewrite (proj1 (Hframe2 _ j (Hratio _ Hsw'))).
      apply Hframe. intros Hc. by apply (Hratio _ Hsw'), counts_counters.
  - intros switch' Hsw'. unfold recompute_ratio.
    rewrite cell_at_alter_cell_ne by (key_cases Hsw; key_cases Hsw'; done).
    intros Hzero. rewrite cell_at_alter_cell. case_decide as Hdec.
    + destruct Hdec as [Hkey _].
      assert (switch' = switch) as -> by (key_cases Hsw; key_cases Hsw'; done).
      congruence.
    + rewrite (proj2 (Hframe2 _ 0%nat (Hratio _ Hsw'))).
      apply Hframe. intros Hc. by apply (Hratio _ Hsw'), counts_counters.
Qed.

(** *** The marker *)






Lemma summary_counter self key :
  wf self → key ∈ counters →
  ∃ n, cell_at (sum_data self) key 0 = Some (PyInt n) ∧ 0 ≤ n.
Proof.
  intros [_ Hs] Hk.
  pose proof (wf_sum_rows _ Hs key (counters_columns _ Hk)) as Hlen.
  pose proof (wf_sum_counters _ Hs key Hk) as Hall.
  unfold cell_at. destruct (col (sum_data self) key) as [|c l]; [done|].
  apply Forall_cons in Hall as [Hc _]. destruct c as [n| | |]; try done.
  by exists n.
Qed.

Lemma sum_cell_alter f key' d key :
  cell_at (alter_cell f key' 0 d) key 0 =
  if String.eqb key key' then f <$> cell_at d key 0 else cell_at d key 0.
Proof.
  rewrite cell_at_alter_cell.
  destruct (String.eqb_spec key key') as [->|Hne].
  - by rewrite decide_True.
  - rewrite decide_False; [done|]. intros [? _]. congruence.
Qed.

Lemma summary_after_counts k metadata self key :
  key ∈ counters →
  cell_at (sum_data (record_counts k metadata self)) key 0 =
  if counts_increment metadata key
  then py_succ <$> cell_at (sum_data self) key 0
  else cell_at (sum_data self) key 0.
Proof.
  intros Hk. unfold record_counts, counts_increment, incr, mark.
  destruct (md_is_good_frame metadata) as [[]|],
    (md_saturated_pixels metadata) as [sat|];
    try destruct (negb (sat =? 0));
    cbn [sum_data data set_data set_sum_data];
    rewrite ?sum_cell_alter; key_cases Hk; reflexivity.
Qed.

Lemma summary_after_laser laser_on is_hit_frame j self key :
  key ∈ counters →
  cell_at (sum_data (record_laser laser_on is_hit_frame j self)) key 0 =
  if laser_increment laser_on is_hit_frame key
  then py_succ <$> cell_at (sum_data self) key 0
  else cell_at (sum_data self) key 0.
Proof.
  intros Hk. unfold record_laser, laser_increment, incr, mark.
  destruct laser_on as [[]|], is_hit_frame;
    cbn [sum_data data set_data set_sum_data];
    unfold recompute_ratio; rewrite ?sum_cell_alter;
    key_cases Hk; reflexivity.
Qed.

(** The counters of the summary row after a call of [record]: each is a
    count, one more than before exactly when the call gets to increment
    that counter. *)
Lemma summary_after_record g metadata is_hit_frame self key n :
  wf self → key ∈ counters →
  cell_at (sum_data self) key 0 = Some (PyInt n) →
  cell_at (sum_data (final (run (record g metadata is_hit_frame) self))) key 0
  = Some (PyInt (if increments g metadata is_hit_frame key
                 then n + 1 else n)).
Proof.
  intros Hwf Hk Hn. rewrite run_record by done. unfold increments.
  destruct (g_pulse_id_bin g) as [k|]; [|done]. cbn zeta.
  destruct (g_laser_on g) as [lo|]; unfold final; cbn [fst snd].
  - rewrite summary_after_laser, summary_after_counts, Hn by done.
    assert (counts_increment metadata key = true →
            laser_increment lo is_hit_frame key = false) as Hexcl.
    { unfold counts_increment, laser_increment.
      destruct lo as [[]|], is_hit_frame; try done;
        key_cases Hk; try done;
        by destruct (md_is_good_frame metadata) as [[]|],
             (md_saturated_pixels metadata) as [sat|]. }
    destruct (counts_increment metadata key).
    + by rewrite Hexcl.
    + by destruct (laser_increment lo is_hit_frame key).
  - rewrite summary_after_counts, Hn by done.
    by destruct (counts_increment metadata key).
Qed.


(** C7. From every state of a handler, [reset] returns and leaves every
    column of [self.data] empty (no bin), every counter and ratio of the
    summary row 0, and the key of the summary row, ["Summary"], as it
    was; the four arrays are not touched. *)
Theorem reset_empties_table self :
  reachable self →
  let r := run reset self in
  result r = Ok tt
  ∧ data (final r) = empty_data
  ∧ (∀ key, col (data (final r)) key = [])
  ∧ (∀ key, key ∈ columns → key ≠ "pulse_id_bins" →
       col (sum_data (final r)) key = [PyInt 0])
  ∧ col (sum_data (final r)) "pulse_id_bins" = [PyStr "Summary"]
  ∧ col (sum_data (final r)) "pulse_id_bins"
    = col (sum_data self) "pulse_id_bins"
  ∧ buffers (final r) = buffers self.
Proof.
  intros Hwf%reachable_wf r. subst r. rewrite run_reset by done.
  unfold result, final. cbn [fst snd data sum_data set_data set_sum_data].
  split_and!; try reflexivity.
  - intros key. apply col_all_empty. unfold empty_data.
    repeat (constructor; [reflexivity|]). constructor.
  - intros key Hk Hne. key_cases Hk; done.
  - symmetry. apply Hwf.
Qed.

(** *** [parse] *)

Lemma parse_updates_aggregator g metadata image self :
  shape image ≠ [2; 2]%nat →
  let r := run (parse g metadata image) self in
  let updated :=
    run (AggregatorWithID.update
           (default [of_int 0] (md_bragg_counts metadata))
           (md_pulse_id metadata))
        (bragg_aggregator self) in
  bragg_aggregator (final r) = final updated
  ∧ (default false (md_is_hit_frame metadata) = false →
       result r = result updated
       ∧ number_of_streaks (final r) = number_of_streaks self
       ∧ streak_lengths (final r) = streak_lengths self
       ∧ bragg_counts (final r) = bragg_counts self
       ∧ data (final r) = data self
       ∧ sum_data (final r) = sum_data self).
Proof.
  intros Hshape r updated. subst r. unfold parse.
  rewrite decide_False by done.
  rewrite run_bind, run_zoom. fold updated.
  destruct updated as [[[[]|e] agg] l] eqn:Hupd;
    unfold result, final; cbn [fst snd]; [|done].
  destruct (default false (md_is_hit_frame metadata)) eqn:Hhit;
    cbn [negb]; [|done].
  split; [|done].
  match goal with
  | |- context [run ?m ?s] =>
      assert (preserves (λ s', bragg_aggregator s' = agg) m) as Hpres
  end.
  { repeat (apply preserves_bind; [by apply preserves_zoom|intros _]).
    intros s Hs.
    pose proof (record_preserves_buffers g metadata true (buffers s) s
                  eq_refl) as Hb.
    unfold buffers in Hb. by simplify_eq. }
  match goal with
  | |- context [run ?m ?s] =>
      specialize (Hpres s eq_refl); destruct (run m s) as [[? ?] ?]
  end.
  done.
Qed.

(** C9. A frame of the dummy shape [(2, 2)] leaves the whole handler as
    it was.  For every other frame, hit or not, the Bragg aggregator is in
    the state in which [update], called with the Bragg counts of the
    metadata (or [[0]]) and its pulse id, leaves it: with a pulse id that
    fits the identifiers' dtype (int64), its newest pair is the aggregate
    of the Bragg counts and that pulse id; with a pulse id that does not
    fit, [parse] raises [OverflowError] there and nothing else of the
    handler is changed.  When the frame is not a hit the three arrays and
    the table, summary row included, are as they were. *)
Theorem parse_frame_effect g metadata image self :
  let r := run (parse g metadata image) self in
  let bragg_counts_ := default [of_int 0] (md_bragg_counts metadata) in
  let updated :=
    run (AggregatorWithID.update bragg_counts_ (md_pulse_id metadata))
        (bragg_aggregator self) in
  if decide (shape image = [2; 2]%nat) then
    result r = Ok tt ∧ final r = self
  else
    bragg_aggregator (final r) = final updated
    ∧ (∀ pulse_id,
         md_pulse_id metadata = Some pulse_id →
         fits_int64 pulse_id = true →
         AggregatorWithID._x (bragg_aggregator self) ≠ [] →
         AggregatorWithID._id (bragg_aggregator self) ≠ [] →
         result (run AggregatorWithID.last (bragg_aggregator (final r)))
         = Ok (AggregatorWithID._aggregate (bragg_aggregator self)
                 bragg_counts_, pulse_id))
    ∧ (∀ pulse_id,
         md_pulse_id metadata = Some pulse_id →
         fits_int64 pulse_id = false →
         AggregatorWithID._x (bragg_aggregator self) ≠ [] →
         AggregatorWithID._id (bragg_aggregator self) ≠ [] →
         result r = Raise OverflowError
         ∧ number_of_streaks (final r) = number_of_streaks self
         ∧ streak_lengths (final r) = streak_lengths self
         ∧ bragg_counts (final r) = bragg_counts self
         ∧ data (final r) = data self
         ∧ sum_data (final r) = sum_data self)
    ∧ (default false (md_is_hit_frame metadata) = false →
         result r = result updated
         ∧ number_of_streaks (final r) = number_of_streaks self
         ∧ streak_lengths (final r) = streak_lengths self
         ∧ bragg_counts (final r) = bragg_counts self
         ∧ data (final r) = data self
         ∧ sum_data (final r) = sum_data self).
Proof.
  intros r bragg_counts_ updated. case_decide as Hshape.
  { subst r. unfold parse. by rewrite decide_True. }
  destruct (parse_updates_aggregator g metadata image self Hshape)
    as [Hagg Hrest].
  fold r bragg_counts_ updated in Hagg, Hrest.
  split_and!; [done| | |done].
  - intros pulse_id Hpid Hfits Hx Hi. rewrite Hagg. subst updated.
    rewrite Hpid.
    by rewrite (AggregatorWithID_run_last_updated
                  (bragg_aggregator self) bragg_counts_ pulse_id Hx Hi Hfits).
  - intros pulse_id Hpid Hfits Hx Hi. subst r. unfold parse.
    rewrite decide_False by done.
    rewrite run_bind, run_zoom. fold bragg_counts_. rewrite Hpid.
    rewrite AggregatorWithID_run_update_overflow by done.
    unfold result, final. cbn [fst snd]. done.
Qed.

(** *** [parse] with the globals of the module

    Neither [pulse_id_bin] nor [laser_on] is bound: the block raises at
    its first statement and the table is never written. *)

Lemma run_record_module_globals metadata is_hit_frame self :
  ∃ e, run (record module_globals metadata is_hit_frame) self
       = (Raise e, self, [])
       ∧ ("pulse_id_bins" ∈ (data self).*1 → e = NameError "pulse_id_bin").
Proof.
  unfold record. rewrite run_bind.
  unfold run, try_except_ValueError, mbind, M_bind, get, lift, lookup_name,
    raise, module_globals. cbn [g_pulse_id_bin].
  destruct (dict_get (data self) "pulse_id_bins") as [bins|e] eqn:Hbins.
  - exists (NameError "pulse_id_bin"). by split.
  - rewrite (dict_get_raises _ _ _ Hbins). eexists. split; [reflexivity|].
    intros Hin. by rewrite dict_get_col in Hbins.
Qed.

Lemma parse_never_touches_table metadata image self :
  let r := run (parse module_globals metadata image) self in
  data (final r) = data self ∧ sum_data (final r) = sum_data self.
Proof.
  cbn zeta.
  assert (preserves (λ s, data s = data self ∧ sum_data s = sum_data self)
            (parse module_globals metadata image)) as Hpres;
    [|by apply Hpres].
  unfold parse. case_decide; [apply preserves_log|].
  apply preserves_bind; [by apply preserves_zoom|intros _].
  destruct (negb _); [apply preserves_log|].
  repeat (apply preserves_bind; [by apply preserves_zoom|intros _]).
  intros s Hs.
  destruct (run_record_module_globals metadata
              (default false (md_is_hit_frame metadata)) s) as (e & -> & _).
  done.
Qed.

Lemma replicate_ne_nil {A} (n : nat) (x : A) :
  (0 < n)%nat → replicate n x ≠ [].
Proof. destruct n; [lia|done]. Qed.

(** A hit frame that the arrays have room for gets to the block. *)
Lemma parse_hit g metadata image self stored :
  shape image ≠ [2; 2]%nat →
  default false (md_is_hit_frame metadata) = true →
  (∀ pid, md_pulse_id metadata = Some pid → fits_int64 pid = true) →
  (md_pulse_id metadata = None
   ∨ (AggregatorWithID._x (bragg_aggregator self) ≠ []
      ∧ AggregatorWithID._id (bragg_aggregator self) ≠ [])) →
  int64_of_int (default 0 (md_number_of_streaks metadata)) = Ok stored →
  (1 ≤ length (NPFIFOArray._x (bragg_counts self)))%nat →
  (1 ≤ length (NPFIFOArray._x (number_of_streaks self)))%nat →
  (length (default [of_int 0] (md_streak_lengths metadata))
   ≤ length (NPFIFOArray._x (streak_lengths self)))%nat →
  ∃ self',
    data self' = data self ∧ sum_data self' = sum_data self
    ∧ result (run (parse g metadata image) self)
      = result (run (record g metadata true) self')
    ∧ final (run (parse g metadata image) self)
      = final (run (record g metadata true) self').
Proof.
  intros Hshape Hhit Hfit Hagg Hcast Hbc Hns Hsl. unfold parse.
  rewrite decide_False by done. rewrite Hhit, Hcast. cbn [negb].
  change (Ok stored ≫= _) with (Ok [of_int stored] : outcome (list scalar)).
  assert (∃ agg l,
            run (AggregatorWithID.update
                   (default [of_int 0] (md_bragg_counts metadata))
                   (md_pulse_id metadata)) (bragg_aggregator self)
            = (Ok tt, agg, l)) as (agg & l & Hrun).
  { destruct (md_pulse_id metadata) as [pid|].
    - destruct Hagg as [|[? ?]]; [done|].
      rewrite AggregatorWithID_run_update by (try done; by apply Hfit).
      eauto.
    - eexists _, _. reflexivity. }
  assert (run (zoom bragg_aggregator set_bragg_aggregator
                 (AggregatorWithID.update
                    (default [of_int 0] (md_bragg_counts metadata))
                    (md_pulse_id metadata))) self
          = (Ok tt, set_bragg_aggregator agg self, l)) as H1.
  { by rewrite run_zoom, Hrun. }
  set (s1 := set_bragg_aggregator agg self) in *.
  eassert (run (zoom bragg_counts set_bragg_counts
                  (NPFIFOArray.update
                     [np_sum (default [of_int 0] (md_bragg_counts metadata))]))
             s1 = (Ok tt, _, [])) as H2.
  { rewrite run_zoom, NPFIFOArray_run_update by done. reflexivity. }
  match type of H2 with _ = (_, ?s, _) => set (s2 := s) in * end.
  eassert (run (zoom number_of_streaks set_number_of_streaks
                  (NPFIFOArray.update_cast (Ok [of_int stored])
                     [of_int (default 0 (md_number_of_streaks metadata))]))
             s2 = (Ok tt, _, [])) as H3.
  { rewrite run_zoom, NPFIFOArray_run_update_cast; [reflexivity|].
    intros Hnil. cbn [number_of_streaks s2 s1 set_bragg_counts
      set_bragg_aggregator] in Hnil. rewrite Hnil in Hns. cbn in Hns. lia. }
  match type of H3 with _ = (_, ?s, _) => set (s3 := s) in * end.
  eassert (run (zoom streak_lengths set_streak_lengths
                  (NPFIFOArray.update
                     (default [of_int 0] (md_streak_lengths metadata))))
             s3 = (Ok tt, _, [])) as H4.
  { rewrite run_zoom, NPFIFOArray_run_update by done. reflexivity. }
  match type of H4 with _ = (_, ?s, _) => set (s4 := s) in * end.
  exists s4. split_and!; [reflexivity..| |].
  - rewrite (proj1 (run_bind_Ok_logged _ _ _ _ _ _ H1)).
    rewrite (proj1 (run_bind_Ok_logged _ _ _ _ _ _ H2)).
    rewrite (proj1 (run_bind_Ok_logged _ _ _ _ _ _ H3)).
    by rewrite (proj1 (run_bind_Ok_logged _ _ _ _ _ _ H4)).
  - rewrite (proj2 (run_bind_Ok_logged _ _ _ _ _ _ H1)).
    rewrite (proj2 (run_bind_Ok_logged _ _ _ _ _ _ H2)).
    rewrite (proj2 (run_bind_Ok_logged _ _ _ _ _ _ H3)).
    by rewrite (proj2 (run_bind_Ok_logged _ _ _ _ _ _ H4)).
Qed.

Lemma parse_hit_init g metadata image stored :
  shape image ≠ [2; 2]%nat →
  default false (md_is_hit_frame metadata) = true →
  (∀ pid, md_pulse_id metadata = Some pid → fits_int64 pid = true) →
  int64_of_int (default 0 (md_number_of_streaks metadata)) = Ok stored →
  (length (default [of_int 0] (md_streak_lengths metadata))
   ≤ Z.to_nat 50000)%nat →
  ∃ self',
    data self' = empty_data ∧ sum_data self' = sum_data __init__
    ∧ result (run (parse g metadata image) __init__)
      = result (run (record g metadata true) self')
    ∧ final (run (parse g metadata image) __init__)
      = final (run (record g metadata true) self').
Proof.
  intros Hshape Hhit Hfit Hcast Hsl.
  apply (parse_hit g metadata image __init__ stored);
    [done|done|done| |done|..].
  - right. cbn [bragg_aggregator CBDStatisticsHandler.__init__
                AggregatorWithID.__init__ AggregatorWithID._x
                AggregatorWithID._id].
    split; apply replicate_ne_nil; lia.
  - cbn [bragg_counts CBDStatisticsHandler.__init__ NPFIFOArray.__init__
         NPFIFOArray._x].
    rewrite length_replicate. lia.
  - cbn [number_of_streaks CBDStatisticsHandler.__init__ NPFIFOArray.__init__
         NPFIFOArray._x].
    rewrite length_replicate. lia.
  - cbn [streak_lengths CBDStatisticsHandler.__init__ NPFIFOArray.__init__
         NPFIFOArray._x].
    by rewrite length_replicate.
Qed.

(** C1, on the code as it is.  The first hit frame that a handler as
    created receives, with pulse id 100: [parse] raises [NameError] for
    [pulse_id_bin], which nothing binds, before a bin key is computed; no
    bin is appended and the summary row is as created. *)
Theorem parse_hit_frame_raises_NameError :
  let metadata : Metadata scalar :=
    {| md_is_hit_frame := Some true; md_bragg_counts := None;
       md_pulse_id := Some 100; md_number_of_streaks := None;
       md_streak_lengths := None; md_is_good_frame := None;
       md_saturated_pixels := None |} in
  let image := {| shape := [512; 1024]%nat |} in
  let r := run (parse module_globals metadata image) __init__ in
  result r = Raise (NameError "pulse_id_bin")
  ∧ col (data (final r)) "pulse_id_bins" = []
  ∧ data (final r) = empty_data
  ∧ sum_data (final r) = sum_data __init__.
Proof.
  intros metadata image r.
  destruct (parse_never_touches_table metadata image __init__) as [Hd Hs].
  fold r in Hd, Hs. rewrite Hd, Hs. split; [|split_and!; reflexivity].
  destruct (parse_hit_init module_globals metadata image 0)
    as (self' & Hd' & _ & Hr & _);
    [done|done|by intros pid [= <-]|done
    |subst metadata; cbn [default length md_streak_lengths]; lia|].
  subst r. rewrite Hr.
  destruct (run_record_module_globals metadata true self')
    as (e & -> & He).
  unfold result. cbn [fst]. f_equal. apply He. rewrite Hd'.
  unfold empty_data. rewrite fmap_cons. cbn [fst]. apply list_elem_of_here.
Qed.

(** C5, on the code as it is.  The same for a hit frame whose good-frame
    flag is false: [parse] raises before the block counts anything; the
    frame count and the bad-frame count of the summary row stay 0 and
    there is no bin whose counts could have been incremented. *)
Theorem parse_hit_frame_counts_nothing :
  let metadata : Metadata scalar :=
    {| md_is_hit_frame := Some true; md_bragg_counts := None;
       md_pulse_id := Some 100; md_number_of_streaks := None;
       md_streak_lengths := None; md_is_good_frame := Some false;
       md_saturated_pixels := None |} in
  let image := {| shape := [512; 1024]%nat |} in
  let r := run (parse module_globals metadata image) __init__ in
  result r = Raise (NameError "pulse_id_bin")
  ∧ cell_at (sum_data (final r)) "nframes" 0 = Some (PyInt 0)
  ∧ cell_at (sum_data (final r)) "bad_frames" 0 = Some (PyInt 0)
  ∧ col (data (final r)) "nframes" = []
  ∧ col (data (final r)) "bad_frames" = [].
Proof.
  intros metadata image r.
  destruct (parse_never_touches_table metadata image __init__) as [Hd Hs].
  fold r in Hd, Hs. rewrite Hd, Hs. split; [|split_and!; reflexivity].
  destruct (parse_hit_init module_globals metadata image 0)
    as (self' & Hd' & _ & Hr & _);
    [done|done|by intros pid [= <-]|done
    |subst metadata; cbn [default length md_streak_lengths]; lia|].
  subst r. rewrite Hr.
  destruct (run_record_module_globals metadata true self')
    as (e & -> & He).
  unfold result. cbn [fst]. f_equal. apply He. rewrite Hd'.
  unfold empty_data. rewrite fmap_cons. cbn [fst]. apply list_elem_of_here.
Qed.

(** C3, on the code as it is.  The laser flag that the block tests is
    the name [laser_on], which nothing binds, and the block raises before
    it gets there: for the first hit frame that a handler as created
    receives, [parse] raises [NameError] for [pulse_id_bin]; no hit ratio
    is computed, for either laser state: in the summary row the frame
    counts, the hit counts and the ratios keep the 0 they were created
    with, and there is no bin that could hold a ratio. *)
Theorem parse_hit_frame_computes_no_ratio :
  let metadata : Metadata scalar :=
    {| md_is_hit_frame := Some true; md_bragg_counts := None;
       md_pulse_id := Some 100; md_number_of_streaks := None;
       md_streak_lengths := None; md_is_good_frame := None;
       md_saturated_pixels := None |} in
  let image := {| shape := [512; 1024]%nat |} in
  let r := run (parse module_globals metadata image) __init__ in
  result r = Raise (NameError "pulse_id_bin")
  ∧ cell_at (sum_data (final r)) "laser_on_nframes" 0 = Some (PyInt 0)
  ∧ cell_at (sum_data (final r)) "laser_on_hits" 0 = Some (PyInt 0)
  ∧ cell_at (sum_data (final r)) "laser_on_hits_ratio" 0 = Some (PyInt 0)
  ∧ cell_at (sum_data (final r)) "laser_off_nframes" 0 = Some (PyInt 0)
  ∧ cell_at (sum_data (final r)) "laser_off_hits" 0 = Some (PyInt 0)
  ∧ cell_at (sum_data (final r)) "laser_off_hits_ratio" 0 = Some (PyInt 0)
  ∧ col (data (final r)) "laser_on_hits_ratio" = []
  ∧ col (data (final r)) "laser_off_hits_ratio" = [].
Proof.
  intros metadata image r.
  destruct (parse_never_touches_table metadata image __init__) as [Hd Hs].
  fold r in Hd, Hs. rewrite Hd, Hs. split; [|split_and!; reflexivity].
  destruct (parse_hit_init module_globals metadata image 0)
    as (self' & Hd' & _ & Hr & _);
    [done|done|by intros pid [= <-]|done
    |subst metadata; cbn [default length md_streak_lengths]; lia|].
  subst r. rewrite Hr.
  destruct (run_record_module_globals metadata true self')
    as (e & -> & He).
  unfold result. cbn [fst]. f_equal. apply He. rewrite Hd'.
  unfold empty_data. rewrite fmap_cons. cbn [fst]. apply list_elem_of_here.
Qed.

(** *** The block with its names bound: which bin, and what is counted *)

Lemma col_alter_cell_ne f key i d key' :
  key ≠ key' → col (alter_cell f key i d) key' = col d key'.
Proof. intros Hne. by rewrite col_alter_cell, decide_False. Qed.

(** [record] writes the column of the bin keys only when it appends a
    bin. *)
Lemma bins_after_record k lo metadata is_hit_frame self :
  wf self →
  col (data (final (run (record (Globals (Some k) lo) metadata is_hit_frame)
                        self))) "pulse_id_bins"
  = col (with_bin k (data self)) "pulse_id_bins".
Proof.
  intros Hwf. rewrite run_record by done. cbn [g_pulse_id_bin g_laser_on].
  cbn zeta.
  assert (col (data (record_counts k metadata self)) "pulse_id_bins"
          = col (with_bin k (data self)) "pulse_id_bins") as Hcounts.
  { unfold record_counts, incr, mark. cbn zeta.
    destruct (md_is_good_frame metadata) as [[]|],
      (md_saturated_pixels metadata) as [sat|];
      try destruct (negb (sat =? 0));
      cbn [data sum_data set_data set_sum_data];
      by rewrite ?col_alter_cell_ne by done. }
  destruct lo as [lo|]; unfold final; cbn [fst snd]; [|done].
  rewrite <- Hcounts. unfold record_laser, incr, mark, recompute_ratio.
  destruct lo as [[]|], is_hit_frame;
    cbn [data sum_data set_data set_sum_data];
    by rewrite ?col_alter_cell_ne by done.
Qed.

(** The lookback of five bins.  A bin is reused exactly when its key is
    among the keys of the last five bins: then no bin is appended and the
    row is that of the first of these five with the key.  Otherwise, also
    when an older bin has the key, a bin with the key and zeros is appended
    and the row is the new one. *)
Lemma record_lookback k lo metadata is_hit_frame self :
  wf self →
  let bins := col (data self) "pulse_id_bins" in
  let bins' :=
    col (data (final (run (record (Globals (Some k) lo) metadata is_hit_frame)
                          self))) "pulse_id_bins" in
  let i := bin_row k (data self) in
  let recent := drop (length bins - 5) bins in
  (Exists (λ c, eq_int k c = true) recent →
     bins' = bins ∧ (length bins - 5 ≤ i < length bins)%nat
     ∧ ∃ c, bins !! i = Some c ∧ eq_int k c = true)
  ∧ (Forall (λ c, eq_int k c = false) recent →
       bins' = bins ++ [PyInt k] ∧ i = length bins
       ∧ ∀ key, key ∈ columns → key ≠ "pulse_id_bins" →
           cell_at (with_bin k (data self)) key i = Some (PyInt 0)).
Proof.
  intros Hwf bins bins' i recent. subst bins'.
  rewrite bins_after_record by done. subst i. unfold with_bin, bin_row.
  fold bins. destruct (list_index bins k (-5)) as [z|e] eqn:Hidx.
  - apply list_index_found in Hidx
      as (j & c & -> & Hj & Hc & Heq & _).
    rewrite Nat2Z.id. split.
    + intros _. split_and!; [done|lia..|by exists c].
    + intros Hnone. exfalso.
      assert (c ∈ recent) as Hin.
      { apply list_elem_of_lookup. exists (j - (length bins - 5))%nat.
        subst recent. rewrite lookup_drop.
        by replace (length bins - 5 + (j - (length bins - 5)))%nat with j
          by lia. }
      rewrite Forall_forall in Hnone. specialize (Hnone c Hin). congruence.
  - apply list_index_not_found in Hidx. split.
    + intros Hsome. exfalso. apply Exists_exists in Hsome as (c & Hin & Hc).
      rewrite Forall_forall in Hidx. specialize (Hidx c Hin). congruence.
    + intros _.
      assert (∀ key, key ∈ columns → key ∈ (data self).*1) as Hin.
      { intros key. by rewrite (wf_keys _ (proj1 Hwf)). }
      split_and!; [|done|].
      * by rewrite col_append_items by (apply Hin; solve_key).
      * intros key Hk Hne. unfold cell_at.
        rewrite col_append_items by (by apply Hin).
        pose proof (wf_rows _ (proj1 Hwf) key Hk) as Hlen. fold bins in Hlen.
        rewrite lookup_app_r by lia. rewrite Hlen, Nat.sub_diag.
        destruct (String.eqb_spec key "pulse_id_bins"); done.
Qed.

(** What the block counts.  In the row of the matched bin the frame count
    is one more than in the table with the bin found or appended, and the
    bad-frame count is one more exactly when the metadata has a good-frame
    flag that is false; the other rows keep both counts; the summary row
    counts the same. *)
Lemma record_counts_frame k lo metadata is_hit_frame self :
  wf self →
  let g := Globals (Some k) lo in
  let r := run (record g metadata is_hit_frame) self in
  let i := bin_row k (data self) in
  let before := with_bin k (data self) in
  let flagged_bad :=
    match md_is_good_frame metadata with
    | Some false => true
    | _ => false
    end in
  (∃ c, cell_at before "nframes" i = Some c
        ∧ cell_at (data (final r)) "nframes" i = Some (py_succ c))
  ∧ (∃ c, cell_at before "bad_frames" i = Some c
          ∧ cell_at (data (final r)) "bad_frames" i
            = Some (if flagged_bad then py_succ c else c))
  ∧ (∀ j, j ≠ i →
       cell_at (data (final r)) "nframes" j = cell_at before "nframes" j
       ∧ cell_at (data (final r)) "bad_frames" j
         = cell_at before "bad_frames" j)
  ∧ (∃ n, cell_at (sum_data self) "nframes" 0 = Some (PyInt n)
          ∧ cell_at (sum_data (final r)) "nframes" 0 = Some (PyInt (n + 1)))
  ∧ (∃ n, cell_at (sum_data self) "bad_frames" 0 = Some (PyInt n)
          ∧ cell_at (sum_data (final r)) "bad_frames" 0
            = Some (PyInt (if flagged_bad then n + 1 else n))).
Proof.
  intros Hwf g r i before flagged_bad.
  assert (∀ key j, key ∈ ["nframes"; "bad_frames"] →
            cell_at (data (final r)) key j
            = cell_at (data (record_counts k metadata self)) key j) as Hlaser.
  { intros key j Hk. subst r g. rewrite run_record by done.
    cbn [g_pulse_id_bin g_laser_on]. cbn zeta.
    destruct lo as [lo|]; unfold final; cbn [fst snd]; [|done].
    unfold record_laser, incr, mark, recompute_ratio.
    destruct lo as [[]|], is_hit_frame;
      cbn [data sum_data set_data set_sum_data];
      key_cases Hk; by rewrite ?cell_at_alter_cell_ne by done. }
  assert (is_Some (cell_at before "nframes" i)
          ∧ is_Some (cell_at before "bad_frames" i)) as [[c1 Hc1] [c2 Hc2]].
  { pose proof (wf_data_with_bin k _ (proj1 Hwf)) as Hwfb.
    pose proof (bin_row_lt k _ (proj1 Hwf)) as Hlt.
    split; apply lookup_lt_is_Some; rewrite (wf_rows _ Hwfb); try done;
      solve_key. }
  assert (∀ j, cell_at (data (record_counts k metadata self)) "nframes" j
               = (if decide (i = j) then py_succ <$> cell_at before "nframes" j
                  else cell_at before "nframes" j)
               ∧ cell_at (data (record_counts k metadata self)) "bad_frames" j
                 = (if decide (i = j) then
                      (if flagged_bad then py_succ else id)
                        <$> cell_at before "bad_frames" j
                    else cell_at before "bad_frames" j)) as Hcounts.
  { intros j. subst flagged_bad. unfold record_counts, incr, mark. cbn zeta.
    fold i before.
    destruct (md_is_good_frame metadata) as [[]|],
      (md_saturated_pixels metadata) as [sat|];
      try destruct (negb (sat =? 0));
      cbn [data sum_data set_data set_sum_data];
      split;
      repeat first [ rewrite cell_at_alter_cell_ne by done
                   | rewrite cell_at_alter_cell_eq ];
      try reflexivity;
      by destruct (decide (i = j)), (cell_at before _ j). }
  split_and!.
  - exists c1. split; [done|].
    rewrite Hlaser by solve_key. rewrite (proj1 (Hcounts i)).
    by rewrite decide_True, Hc1 by done.
  - exists c2. split; [done|].
    rewrite Hlaser by solve_key. rewrite (proj2 (Hcounts i)).
    rewrite decide_True, Hc2 by done. by destruct flagged_bad.
  - intros j Hj. rewrite !Hlaser by solve_key.
    rewrite (proj1 (Hcounts j)), (proj2 (Hcounts j)).
    by rewrite !decide_False by done.
  - destruct (summary_counter self "nframes" Hwf ltac:(solve_key))
      as (n & Hn & _).
    exists n. split; [done|]. subst r.
    rewrite (summary_after_record g metadata is_hit_frame self "nframes" n
               Hwf ltac:(solve_key) Hn).
    by destruct lo.
  - destruct (summary_counter self "bad_frames" Hwf ltac:(solve_key))
      as (n & Hn & _).
    exists n. split; [done|]. subst r.
    rewrite (summary_after_record g metadata is_hit_frame self "bad_frames" n
               Hwf ltac:(solve_key) Hn).
    subst flagged_bad g. unfold increments, counts_increment, laser_increment.
    cbn [g_pulse_id_bin g_laser_on].
    by destruct lo as [[[]|]|], is_hit_frame,
         (md_is_good_frame metadata) as [[]|].
Qed.

(** *** The invariants of a handler *)

Local Abbreviation wf_buffers :=
  (CBDStatisticsHandler.wf_buffers np_sum np_average np_nan of_int).

(** A method of an attribute, for a property that looks at the attribute
    alone. *)
Lemma preserves_zoom_on {S U A} (P : S → Prop) (Q : U → Prop)
    (proj : S → U) (upd : U → S → S) (m : M U A) :
  (∀ s, P s → Q (proj s)) →
  preserves Q m →
  (∀ u s, P s → Q u → P (upd u s)) →
  preserves P (zoom proj upd m).
Proof.
  intros HPQ Hm Hupd s Hs. rewrite run_zoom. unfold final at 1. cbn [fst snd].
  apply Hupd; [done|]. by apply Hm, HPQ.
Qed.

Lemma wf_buffers_of_buffers self self' :
  buffers self' = buffers self → wf_buffers self → wf_buffers self'.
Proof. unfold buffers, wf_buffers. intros [= -> -> -> ->]. done. Qed.

Lemma parse_preserves_wf_buffers g metadata image :
  preserves wf_buffers
            (parse g metadata image).
Proof.
  unfold parse. case_decide; [apply preserves_log|].
  apply preserves_bind; [|intros _].
  { eapply (preserves_zoom_on _ (λ a, AggregatorWithID.same_shape a _)).
    - by intros s (?&?&?&?).
    - apply AggregatorWithID_update_same_shape.
    - by intros u s (?&?&?&?) Hu. }
  destruct (negb _); [apply preserves_log|].
  apply preserves_bind; [|intros _].
  { eapply (preserves_zoom_on _ (λ a, NPFIFOArray.same_shape a _)).
    - by intros s (?&?&?&?).
    - apply NPFIFOArray_update_same_shape.
    - by intros u s (?&?&?&?) Hu. }
  apply preserves_bind; [|intros _].
  { eapply (preserves_zoom_on _ (λ a, NPFIFOArray.same_shape a _)).
    - by intros s (?&?&?&?).
    - apply NPFIFOArray_update_cast_same_shape.
    - by intros u s (?&?&?&?) Hu. }
  apply preserves_bind; [|intros _].
  { eapply (preserves_zoom_on _ (λ a, NPFIFOArray.same_shape a _)).
    - by intros s (?&?&?&?).
    - apply NPFIFOArray_update_same_shape.
    - by intros u s (?&?&?&?) Hu. }
  intros s Hs. eapply wf_buffers_of_buffers; [|done].
  by apply (record_preserves_buffers g metadata _ (buffers s) s).
Qed.

Lemma clear_preserves_wf_buffers :
  preserves wf_buffers
            (clear (scalar := scalar)).
Proof.
  unfold clear.
  apply preserves_bind; [|intros _].
  { eapply (preserves_zoom_on _ (λ a, NPFIFOArray.same_shape a _)).
    - by intros s (?&?&?&?).
    - apply NPFIFOArray_clear_same_shape.
    - by intros u s (?&?&?&?) Hu. }
  apply preserves_bind; [|intros _].
  { eapply (preserves_zoom_on _ (λ a, NPFIFOArray.same_shape a _)).
    - by intros s (?&?&?&?).
    - apply NPFIFOArray_clear_same_shape.
    - by intros u s (?&?&?&?) Hu. }
  apply preserves_bind; [|intros _].
  { eapply (preserves_zoom_on _ (λ a, NPFIFOArray.same_shape a _)).
    - by intros s (?&?&?&?).
    - apply NPFIFOArray_clear_same_shape.
    - by intros u s (?&?&?&?) Hu. }
  eapply (preserves_zoom_on _ (λ a, AggregatorWithID.same_shape a _)).
  - by intros s (?&?&?&?).
  - apply AggregatorWithID_clear_same_shape.
  - by intros u s (?&?&?&?) Hu.
Qed.

Lemma reachable_wf_buffers self :
  reachable self → wf_buffers self.
Proof.
  induction 1 as [|g metadata image self _ IH|self Hr IH|self _ IH].
  - by repeat split.
  - by apply parse_preserves_wf_buffers.
  - rewrite run_reset by (by apply reachable_wf). by destruct IH as (?&?&?&?).
  - by apply clear_preserves_wf_buffers.
Qed.

(** X12. The invariant of the table.  In every state a handler can
    reach, [data] and [sum_data] have the ten columns in the order of
    [__init__]; the columns of [data] have one length, the number of
    bins, and those of [sum_data] have length 1; the key of the summary
    row is ["Summary"]; a counter of a bin is an int that is not
    negative or the marker NaN, and a counter of the summary row is an
    int that is not negative. *)
Theorem table_invariant self :
  reachable self →
  (data self).*1 = columns
  ∧ (sum_data self).*1 = columns
  ∧ (∀ key, key ∈ columns →
       length (col (data self) key)
       = length (col (data self) "pulse_id_bins"))
  ∧ (∀ key, key ∈ columns → length (col (sum_data self) key) = 1%nat)
  ∧ col (sum_data self) "pulse_id_bins" = [PyStr "Summary"]
  ∧ (∀ key i c, key ∈ counters → cell_at (data self) key i = Some c →
       c = PyNaN ∨ ∃ n, c = PyInt n ∧ 0 ≤ n)
  ∧ (∀ key, key ∈ counters →
       ∃ n, cell_at (sum_data self) key 0 = Some (PyInt n) ∧ 0 ≤ n).
Proof.
  intros Hwf%reachable_wf. pose proof Hwf as [Hd Hs].
  split_and!.
  - apply Hd.
  - apply Hs.
  - apply Hd.
  - apply Hs.
  - apply Hs.
  - intros key i c Hk Hc.
    pose proof (wf_counter_at _ _ _ _ Hd Hk Hc) as Hcounter.
    destruct c as [n| | |]; try done; [right|left]; eauto.
  - intros key Hk. by apply summary_counter.
Qed.

(** X13. The arrays keep their sizes.  In every state a handler can
    reach, [number_of_streaks] has 5000 slots and the empty value [-1],
    [streak_lengths] and [bragg_counts] have 50000 slots and the empty
    value NaN, and the Bragg aggregator has 750000 slots for values and
    as many for identifiers, with the empty value NaN: no call of
    [parse], [reset] or [clear], returning or raising, changes them. *)
Theorem arrays_keep_their_sizes self :
  reachable self →
  Z.of_nat (length (NPFIFOArray._x (number_of_streaks self))) = 5000
  ∧ NPFIFOArray._nan (number_of_streaks self) = of_int (-1)
  ∧ Z.of_nat (length (NPFIFOArray._x (streak_lengths self))) = 50000
  ∧ NPFIFOArray._nan (streak_lengths self) = np_nan
  ∧ Z.of_nat (length (NPFIFOArray._x (bragg_counts self))) = 50000
  ∧ NPFIFOArray._nan (bragg_counts self) = np_nan
  ∧ Z.of_nat (length (AggregatorWithID._x (bragg_aggregator self))) = 750000
  ∧ Z.of_nat (length (AggregatorWithID._id (bragg_aggregator self))) = 750000
  ∧ AggregatorWithID._nan (bragg_aggregator self) = np_nan.
Proof.
  intros ((Hn & Hnn & _) & (Hs & Hsn & _) & (Hb & Hbn & _)
          & (Hx & Hi & Han & _))%reachable_wf_buffers.
  rewrite Hn, Hs, Hb, Hx, Hi.
  cbn [number_of_streaks streak_lengths bragg_counts bragg_aggregator
       CBDStatisticsHandler.__init__ NPFIFOArray.__init__
       AggregatorWithID.__init__ NPFIFOArray._x AggregatorWithID._x
       AggregatorWithID._id].
  rewrite !length_replicate, !Z2Nat.id by lia.
  by split_and!.
Qed.

(** *** [parse] on a hit frame *)

(** A computation whose rest always raises, raises. *)
Lemma bind_always_raises {S A B} (m : M S A) (f : A → M S B) (s : S) :
  (∀ a s', ∃ e, result (run (f a) s') = Raise e) →
  ∃ e, result (run (m ≫= f) s) = Raise e.
Proof.
  intros Hf. rewrite run_bind.
  destruct (run m s) as [[[a|e] s'] l]; [|by exists e].
  destruct (Hf a s') as [e He].
  destruct (run (f a) s') as [[r s''] l']. by exists e.
Qed.

(** The steps of [parse] before the block, on a hit frame whose two
    integers fit the arrays of dtype [int], up to the update of
    [streak_lengths]. *)
Lemma run_parse_hit g metadata image self stored :
  shape image ≠ [2; 2]%nat →
  default false (md_is_hit_frame metadata) = true →
  (∀ pid, md_pulse_id metadata = Some pid → fits_int64 pid = true) →
  (md_pulse_id metadata = None
   ∨ (AggregatorWithID._x (bragg_aggregator self) ≠ []
      ∧ AggregatorWithID._id (bragg_aggregator self) ≠ [])) →
  int64_of_int (default 0 (md_number_of_streaks metadata)) = Ok stored →
  (1 ≤ length (NPFIFOArray._x (bragg_counts self)))%nat →
  (1 ≤ length (NPFIFOArray._x (number_of_streaks self)))%nat →
  let bragg_counts_ := default [of_int 0] (md_bragg_counts metadata) in
  let streak_lengths_ := default [of_int 0] (md_streak_lengths metadata) in
  let number_of_streaks_ := default 0 (md_number_of_streaks metadata) in
  ∃ s3,
    data s3 = data self ∧ sum_data s3 = sum_data self
    ∧ bragg_counts s3
      = final (run (NPFIFOArray.update [np_sum bragg_counts_])
                   (bragg_counts self))
    ∧ number_of_streaks s3
      = final (run (NPFIFOArray.update_cast (Ok [of_int stored])
                      [of_int number_of_streaks_])
                   (number_of_streaks self))
    ∧ streak_lengths s3 = streak_lengths self
    ∧ let r := run (parse g metadata image) self in
      let rest :=
        run (zoom streak_lengths set_streak_lengths
               (NPFIFOArray.update streak_lengths_);;
             record g metadata true) s3 in
      result r = result rest ∧ final r = final rest.
Proof.
  intros Hshape Hhit Hfit Hagg Hcast Hbc Hns bragg_counts_ streak_lengths_
    number_of_streaks_.
  assert (NPFIFOArray._x (number_of_streaks self) ≠ []) as Hns'.
  { intros Hnil. rewrite Hnil in Hns. cbn in Hns. lia. }
  cbn zeta. unfold parse.
  rewrite decide_False by done. rewrite Hhit, Hcast. cbn [negb].
  change (Ok stored ≫= _) with (Ok [of_int stored] : outcome (list scalar)).
  fold bragg_counts_ streak_lengths_ number_of_streaks_.
  assert (∃ agg l,
            run (AggregatorWithID.update bragg_counts_ (md_pulse_id metadata))
                (bragg_aggregator self)
            = (Ok tt, agg, l)) as (agg & l & Hrun).
  { destruct (md_pulse_id metadata) as [pid|].
    - destruct Hagg as [|[? ?]]; [done|].
      rewrite AggregatorWithID_run_update by (try done; by apply Hfit).
      eauto.
    - eexists _, _. reflexivity. }
  assert (run (zoom bragg_aggregator set_bragg_aggregator
                 (AggregatorWithID.update bragg_counts_
                    (md_pulse_id metadata))) self
          = (Ok tt, set_bragg_aggregator agg self, l)) as H1.
  { by rewrite run_zoom, Hrun. }
  set (s1 := set_bragg_aggregator agg self) in *.
  eassert (run (zoom bragg_counts set_bragg_counts
                  (NPFIFOArray.update [np_sum bragg_counts_]))
             s1 = (Ok tt, _, [])) as H2.
  { rewrite run_zoom, NPFIFOArray_run_update by done. reflexivity. }
  match type of H2 with _ = (_, ?s, _) => set (s2 := s) in * end.
  eassert (run (zoom number_of_streaks set_number_of_streaks
                  (NPFIFOArray.update_cast (Ok [of_int stored])
                     [of_int number_of_streaks_]))
             s2 = (Ok tt, _, [])) as H3.
  { rewrite run_zoom, NPFIFOArray_run_update_cast by done. reflexivity. }
  match type of H3 with _ = (_, ?s, _) => set (s3 := s) in * end.
  exists s3.
  rewrite (proj1 (run_bind_Ok_logged _ _ _ _ _ _ H1)).
  rewrite (proj2 (run_bind_Ok_logged _ _ _ _ _ _ H1)).
  rewrite (proj1 (run_bind_Ok_logged _ _ _ _ _ _ H2)).
  rewrite (proj2 (run_bind_Ok_logged _ _ _ _ _ _ H2)).
  rewrite (proj1 (run_bind_Ok_logged _ _ _ _ _ _ H3)).
  rewrite (proj2 (run_bind_Ok_logged _ _ _ _ _ _ H3)).
  rewrite NPFIFOArray_run_update, NPFIFOArray_run_update_cast by done.
  by split_and!.
Qed.

(** The state in which a hit frame that the arrays have room for gets
    to the block. *)
Lemma parse_hit_buffers g metadata image self stored :
  shape image ≠ [2; 2]%nat →
  default false (md_is_hit_frame metadata) = true →
  (∀ pid, md_pulse_id metadata = Some pid → fits_int64 pid = true) →
  (md_pulse_id metadata = None
   ∨ (AggregatorWithID._x (bragg_aggregator self) ≠ []
      ∧ AggregatorWithID._id (bragg_aggregator self) ≠ [])) →
  int64_of_int (default 0 (md_number_of_streaks metadata)) = Ok stored →
  (1 ≤ length (NPFIFOArray._x (bragg_counts self)))%nat →
  (1 ≤ length (NPFIFOArray._x (number_of_streaks self)))%nat →
  (length (default [of_int 0] (md_streak_lengths metadata))
   ≤ length (NPFIFOArray._x (streak_lengths self)))%nat →
  let r := run (parse g metadata image) self in
  let bragg_counts_ := default [of_int 0] (md_bragg_counts metadata) in
  let streak_lengths_ := default [of_int 0] (md_streak_lengths metadata) in
  let number_of_streaks_ := default 0 (md_number_of_streaks metadata) in
  bragg_counts (final r)
  = final (run (NPFIFOArray.update [np_sum bragg_counts_])
               (bragg_counts self))
  ∧ number_of_streaks (final r)
    = final (run (NPFIFOArray.update_cast (Ok [of_int stored])
                    [of_int number_of_streaks_])
                 (number_of_streaks self))
  ∧ streak_lengths (final r)
    = final (run (NPFIFOArray.update streak_lengths_) (streak_lengths self)).
Proof.
  intros Hshape Hhit Hfit Hagg Hcast Hbc Hns Hsl. cbn zeta.
  destruct (run_parse_hit g metadata image self stored)
    as (s3 & _ & _ & Hb3 & Hn3 & Hs3 & _ & ->); [done..|].
  eassert (run (zoom streak_lengths set_streak_lengths
                  (NPFIFOArray.update
                     (default [of_int 0] (md_streak_lengths metadata))))
             s3 = (Ok tt, _, [])) as H4.
  { rewrite run_zoom, NPFIFOArray_run_update by (by rewrite Hs3).
    reflexivity. }
  match type of H4 with _ = (_, ?s, _) => set (s4 := s) in * end.
  rewrite (proj2 (run_bind_Ok_logged _ _ _ _ _ _ H4)).
  pose proof (record_preserves_buffers g metadata true (buffers s4) s4
                eq_refl) as Hb.
  unfold buffers in Hb. injection Hb as -> -> -> _.
  subst s4. cbn [bragg_counts number_of_streaks streak_lengths
    set_streak_lengths].
  rewrite Hb3, Hn3, Hs3.
  rewrite (NPFIFOArray_run_update (streak_lengths self)) by done.
  by split_and!.
Qed.

(** A pulse id that the identifiers cannot hold stops [parse] in the
    update of the aggregator. *)
Lemma parse_pulse_id_overflow g metadata image self pid :
  shape image ≠ [2; 2]%nat →
  md_pulse_id metadata = Some pid → fits_int64 pid = false →
  AggregatorWithID._x (bragg_aggregator self) ≠ [] →
  AggregatorWithID._id (bragg_aggregator self) ≠ [] →
  let r := run (parse g metadata image) self in
  result r = Raise OverflowError
  ∧ number_of_streaks (final r) = number_of_streaks self
  ∧ streak_lengths (final r) = streak_lengths self
  ∧ bragg_counts (final r) = bragg_counts self
  ∧ data (final r) = data self
  ∧ sum_data (final r) = sum_data self.
Proof.
  intros Hshape Hpid Hfits Hx Hi. cbn zeta. unfold parse.
  rewrite decide_False by done.
  rewrite run_bind, run_zoom. rewrite Hpid.
  rewrite AggregatorWithID_run_update_overflow by done.
  unfold result, final. cbn [fst snd]. done.
Qed.

(** A number of streaks that [number_of_streaks] cannot hold stops a hit
    frame in the update of that array, which is left rolled by one slot;
    the sum of the Bragg counts has been stored by then. *)
Lemma parse_number_of_streaks_overflow g metadata image self :
  shape image ≠ [2; 2]%nat →
  default false (md_is_hit_frame metadata) = true →
  (∀ pid, md_pulse_id metadata = Some pid → fits_int64 pid = true) →
  (md_pulse_id metadata = None
   ∨ (AggregatorWithID._x (bragg_aggregator self) ≠ []
      ∧ AggregatorWithID._id (bragg_aggregator self) ≠ [])) →
  ¬ (- 2 ^ 63 ≤ default 0 (md_number_of_streaks metadata) < 2 ^ 64) →
  (1 ≤ length (NPFIFOArray._x (bragg_counts self)))%nat →
  let r := run (parse g metadata image) self in
  let bragg_counts_ := default [of_int 0] (md_bragg_counts metadata) in
  result r = Raise OverflowError
  ∧ bragg_counts (final r)
    = final (run (NPFIFOArray.update [np_sum bragg_counts_])
                 (bragg_counts self))
  ∧ NPFIFOArray._x (number_of_streaks (final r))
    = roll (NPFIFOArray._x (number_of_streaks self)) 1
  ∧ NPFIFOArray.last_value (number_of_streaks (final r))
    = NPFIFOArray.last_value (number_of_streaks self)
  ∧ streak_lengths (final r) = streak_lengths self
  ∧ data (final r) = data self
  ∧ sum_data (final r) = sum_data self.
Proof.
  intros Hshape Hhit Hfit Hagg Hcast%int64_of_int_overflow Hbc
    r bragg_counts_. subst r. unfold parse.
  rewrite decide_False by done. rewrite Hhit, Hcast. cbn [negb].
  change (Raise OverflowError ≫= _)
    with (Raise OverflowError : outcome (list scalar)).
  fold bragg_counts_.
  assert (∃ agg l,
            run (AggregatorWithID.update bragg_counts_ (md_pulse_id metadata))
                (bragg_aggregator self)
            = (Ok tt, agg, l)) as (agg & l & Hrun).
  { destruct (md_pulse_id metadata) as [pid|].
    - destruct Hagg as [|[? ?]]; [done|].
      rewrite AggregatorWithID_run_update by (try done; by apply Hfit).
      eauto.
    - eexists _, _. reflexivity. }
  assert (run (zoom bragg_aggregator set_bragg_aggregator
                 (AggregatorWithID.update bragg_counts_
                    (md_pulse_id metadata))) self
          = (Ok tt, set_bragg_aggregator agg self, l)) as H1.
  { by rewrite run_zoom, Hrun. }
  set (s1 := set_bragg_aggregator agg self) in *.
  eassert (run (zoom bragg_counts set_bragg_counts
                  (NPFIFOArray.update [np_sum bragg_counts_]))
             s1 = (Ok tt, _, [])) as H2.
  { rewrite run_zoom, NPFIFOArray_run_update by done. reflexivity. }
  match type of H2 with _ = (_, ?s, _) => set (s2 := s) in * end.
  eassert (run (zoom number_of_streaks set_number_of_streaks
                  (NPFIFOArray.update_cast (Raise OverflowError)
                     [of_int (default 0 (md_number_of_streaks metadata))]))
             s2 = (Raise OverflowError, _, [])) as H3.
  { rewrite run_zoom, NPFIFOArray_run_update_cast_Raise. reflexivity. }
  match type of H3 with _ = (_, ?s, _) => set (s3 := s) in * end.
  rewrite (proj1 (run_bind_Ok_logged _ _ _ _ _ _ H1)).
  rewrite (proj2 (run_bind_Ok_logged _ _ _ _ _ _ H1)).
  rewrite (proj1 (run_bind_Ok_logged _ _ _ _ _ _ H2)).
  rewrite (proj2 (run_bind_Ok_logged _ _ _ _ _ _ H2)).
  rewrite (run_bind_Raise _ _ _ _ _ _ H3).
  rewrite NPFIFOArray_run_update by done.
  by split_and!.
Qed.

Lemma reachable_has_room self :
  reachable self →
  AggregatorWithID._x (bragg_aggregator self) ≠ []
  ∧ AggregatorWithID._id (bragg_aggregator self) ≠ []
  ∧ (1 ≤ length (NPFIFOArray._x (bragg_counts self)))%nat
  ∧ (1 ≤ length (NPFIFOArray._x (number_of_streaks self)))%nat
  ∧ length (NPFIFOArray._x (streak_lengths self)) = Z.to_nat 50000
  ∧ NPFIFOArray._aggregate (bragg_counts self) = np_sum
  ∧ NPFIFOArray._aggregate (number_of_streaks self) = np_average
  ∧ NPFIFOArray._aggregate (streak_lengths self) = np_average.
Proof.
  intros ((Hn & _ & Hna) & (Hs & _ & Hsa) & (Hb & _ & Hba)
          & (Hx & Hi & _ & _))%reachable_wf_buffers.
  cbn [number_of_streaks streak_lengths bragg_counts bragg_aggregator
       CBDStatisticsHandler.__init__ NPFIFOArray.__init__
       AggregatorWithID.__init__ NPFIFOArray._x AggregatorWithID._x
       AggregatorWithID._id NPFIFOArray._aggregate] in *.
  rewrite length_replicate in Hn. rewrite length_replicate in Hs.
  rewrite length_replicate in Hb. rewrite length_replicate in Hx.
  rewrite length_replicate in Hi.
  split_and!; try done; try lia.
  - intros Hnil. rewrite Hnil in Hx. cbn in Hx. lia.
  - intros Hnil. rewrite Hnil in Hi. cbn in Hi. lia.
Qed.

(** X14. In the module as it is written, [parse] never changes the
    table, whatever the state and the frame, and never returns normally
    from a hit frame that is not the dummy: it raises.  In a state that a
    handler can reach, what it raises is [OverflowError] when the pulse id
    does not fit the identifiers' dtype (int64), [OverflowError] again
    when the pulse id fits or is absent and the number of streaks (0
    without the key) is below [- 2 ^ 63] or from [2 ^ 64], and
    [NameError] for [pulse_id_bin] when neither is the case and the frame
    has at most 50000 streak lengths. *)
Theorem parse_hit_never_returns metadata image self :
  let r := run (parse module_globals metadata image) self in
  let number_of_streaks_ := default 0 (md_number_of_streaks metadata) in
  data (final r) = data self
  ∧ sum_data (final r) = sum_data self
  ∧ (shape image ≠ [2; 2]%nat →
     default false (md_is_hit_frame metadata) = true →
     (∃ e, result r = Raise e)
     ∧ (reachable self →
        ((∃ pid, md_pulse_id metadata = Some pid ∧ fits_int64 pid = false) →
         result r = Raise OverflowError)
        ∧ ((∀ pid, md_pulse_id metadata = Some pid → fits_int64 pid = true) →
           (¬ (- 2 ^ 63 ≤ number_of_streaks_ < 2 ^ 64) →
            result r = Raise OverflowError)
           ∧ (- 2 ^ 63 ≤ number_of_streaks_ < 2 ^ 64 →
              Z.of_nat (length (default [of_int 0]
                                  (md_streak_lengths metadata))) ≤ 50000 →
              result r = Raise (NameError "pulse_id_bin"))))).
Proof.
  intros r number_of_streaks_.
  destruct (parse_never_touches_table metadata image self) as [Hd Hs].
  split_and!; [done|done|]. intros Hshape Hhit. split.
  - subst r. unfold parse. rewrite decide_False by done. rewrite Hhit.
    cbn [negb]. repeat (apply bind_always_raises; intros _ ?).
    match goal with
    | |- ∃ e, result (run _ ?s) = _ =>
        destruct (run_record_module_globals metadata true s) as (e & -> & _)
    end.
    by exists e.
  - intros Hreach.
    destruct (reachable_has_room self Hreach)
      as (Hx & Hi & Hbc & Hns & Hslen & _).
    split; [|intros Hfit; split].
    + intros (pid & Hpid & Hfits).
      by apply (parse_pulse_id_overflow module_globals metadata image self
                  pid).
    + intros Hcast.
      by apply (parse_number_of_streaks_overflow module_globals metadata
                  image self); [..|right| |].
    + intros Hcast%int64_of_int_Ok Hsl.
      destruct (parse_hit module_globals metadata image self _
                  Hshape Hhit Hfit (or_intror (conj Hx Hi)) Hcast)
        as (self' & Hd' & _ & Hr & _); [done|done|lia|].
      subst r. rewrite Hr.
      destruct (run_record_module_globals metadata true self')
        as (e & -> & He).
      unfold result. cbn [fst]. f_equal. apply He. rewrite Hd'.
      rewrite (wf_keys _ (proj1 (reachable_wf _ Hreach))). solve_key.
Qed.

(** X15. A hit frame is stored in the three arrays before the block
    runs, so also when the block raises: in a state that a handler can
    reach, for a frame that is a hit, not the dummy, with no pulse id or
    one that fits the identifiers' dtype (int64), a number of streaks
    from [- 2 ^ 63] and below [2 ^ 64], and at most 50000 streak lengths,
    [parse] pushes the sum of the Bragg counts (of [[0]] without the
    key), the number of streaks (0 without the key) and the streak
    lengths ([[0]] without the key) to the front of their arrays, the
    oldest entries falling off the end, and sets the last values to the
    sum of the one Bragg sum, the average of the one number and the
    average of the streak lengths.  The number of streaks is stored as an
    int64: a number from [2 ^ 63] is stored as that number minus
    [2 ^ 64], while the last value is the average of the number as it
    was given. *)
Theorem parse_hit_updates_arrays g metadata image self :
  reachable self →
  shape image ≠ [2; 2]%nat →
  default false (md_is_hit_frame metadata) = true →
  (∀ pid, md_pulse_id metadata = Some pid → fits_int64 pid = true) →
  let bragg_counts_ := default [of_int 0] (md_bragg_counts metadata) in
  let streak_lengths_ := default [of_int 0] (md_streak_lengths metadata) in
  let number_of_streaks_ := default 0 (md_number_of_streaks metadata) in
  - 2 ^ 63 ≤ number_of_streaks_ < 2 ^ 64 →
  Z.of_nat (length streak_lengths_) ≤ 50000 →
  let stored :=
    if fits_int64 number_of_streaks_ then number_of_streaks_
    else number_of_streaks_ - 2 ^ 64 in
  let r := run (parse g metadata image) self in
  let older (k : nat) (x : list scalar) := take (length x - k) x in
  NPFIFOArray._x (bragg_counts (final r))
  = np_sum bragg_counts_ :: older 1%nat (NPFIFOArray._x (bragg_counts self))
  ∧ NPFIFOArray.last_value (bragg_counts (final r))
    = np_sum [np_sum bragg_counts_]
  ∧ NPFIFOArray._x (number_of_streaks (final r))
    = of_int stored
      :: older 1%nat (NPFIFOArray._x (number_of_streaks self))
  ∧ NPFIFOArray.last_value (number_of_streaks (final r))
    = np_average [of_int number_of_streaks_]
  ∧ NPFIFOArray._x (streak_lengths (final r))
    = streak_lengths_
      ++ older (length streak_lengths_)
               (NPFIFOArray._x (streak_lengths self))
  ∧ NPFIFOArray.last_value (streak_lengths (final r))
    = np_average streak_lengths_.
Proof.
  intros Hreach Hshape Hhit Hfit bragg_counts_ streak_lengths_
    number_of_streaks_ Hcast%int64_of_int_Ok Hsl stored r older.
  destruct (reachable_has_room self Hreach)
    as (Hx & Hi & Hbc & Hns & Hslen & Hbca & Hnsa & Hsla).
  assert (NPFIFOArray._x (number_of_streaks self) ≠ []) as Hns'.
  { intros Hnil. rewrite Hnil in Hns. cbn in Hns. lia. }
  subst r older. cbn beta.
  destruct (parse_hit_buffers g metadata image self stored
              Hshape Hhit Hfit (or_intror (conj Hx Hi)) Hcast)
    as (-> & -> & ->); [done|done|..].
  { fold streak_lengths_. lia. }
  fold bragg_counts_ streak_lengths_ number_of_streaks_.
  rewrite !NPFIFOArray_run_update by (fold streak_lengths_; cbn [length]; lia).
  rewrite NPFIFOArray_run_update_cast by done.
  unfold final. cbn [fst snd NPFIFOArray._x NPFIFOArray.last_value].
  rewrite Hbca, Hnsa, Hsla. done.
Qed.

(** X23. A hit frame with more streak lengths than [streak_lengths]
    has slots.  In a state that a handler can reach, for a frame that is
    a hit, not the dummy, with no pulse id or one that fits the
    identifiers' dtype (int64), a number of streaks from [- 2 ^ 63] and
    below [2 ^ 64], and more than 50000 streak lengths, [parse] raises
    [ValueError] before the block, so the table is as it was; by then the
    sum of the Bragg counts and the number of streaks, cast to int64,
    have been pushed to their arrays, and [streak_lengths] has been
    rolled by the number of streak lengths, its last value unchanged. *)
Theorem parse_too_many_streaks g metadata image self :
  reachable self →
  shape image ≠ [2; 2]%nat →
  default false (md_is_hit_frame metadata) = true →
  (∀ pid, md_pulse_id metadata = Some pid → fits_int64 pid = true) →
  let bragg_counts_ := default [of_int 0] (md_bragg_counts metadata) in
  let streak_lengths_ := default [of_int 0] (md_streak_lengths metadata) in
  let number_of_streaks_ := default 0 (md_number_of_streaks metadata) in
  - 2 ^ 63 ≤ number_of_streaks_ < 2 ^ 64 →
  50000 < Z.of_nat (length streak_lengths_) →
  let stored :=
    if fits_int64 number_of_streaks_ then number_of_streaks_
    else number_of_streaks_ - 2 ^ 64 in
  let r := run (parse g metadata image) self in
  let older (k : nat) (x : list scalar) := take (length x - k) x in
  result r = Raise ValueError
  ∧ data (final r) = data self
  ∧ sum_data (final r) = sum_data self
  ∧ bragg_counts (final r)
    = final (run (NPFIFOArray.update [np_sum bragg_counts_])
                 (bragg_counts self))
  ∧ NPFIFOArray._x (number_of_streaks (final r))
    = of_int stored
      :: older 1%nat (NPFIFOArray._x (number_of_streaks self))
  ∧ NPFIFOArray.last_value (number_of_streaks (final r))
    = np_average [of_int number_of_streaks_]
  ∧ NPFIFOArray._x (streak_lengths (final r))
    = roll (NPFIFOArray._x (streak_lengths self))
           (Z.of_nat (length streak_lengths_))
  ∧ NPFIFOArray.last_value (streak_lengths (final r))
    = NPFIFOArray.last_value (streak_lengths self).
Proof.
  intros Hreach Hshape Hhit Hfit bragg_counts_ streak_lengths_
    number_of_streaks_ Hcast%int64_of_int_Ok Hsl stored r older.
  destruct (reachable_has_room self Hreach)
    as (Hx & Hi & Hbc & Hns & Hslen & _ & Hnsa & _).
  assert (NPFIFOArray._x (number_of_streaks self) ≠ []) as Hns'.
  { intros Hnil. rewrite Hnil in Hns. cbn in Hns. lia. }
  subst r older. cbn beta.
  destruct (run_parse_hit g metadata image self stored
              Hshape Hhit Hfit (or_intror (conj Hx Hi)) Hcast Hbc Hns)
    as (s3 & Hd3 & Hsum3 & Hb3 & Hn3 & Hs3 & -> & ->).
  fold streak_lengths_.
  eassert (run (zoom streak_lengths set_streak_lengths
                  (NPFIFOArray.update streak_lengths_))
             s3 = (Raise ValueError, _, [])) as H4.
  { rewrite run_zoom, NPFIFOArray_run_update_oversize; [reflexivity|].
    rewrite Hs3. lia. }
  rewrite (run_bind_Raise _ _ _ _ _ _ H4).
  unfold result, final at 1 2 3 4 5 6 7. cbn [fst snd].
  unfold final at 1 2 3 4. cbn [fst snd].
  cbn [data sum_data bragg_counts number_of_streaks streak_lengths
       set_streak_lengths NPFIFOArray._x NPFIFOArray.last_value
       NPFIFOArray.set_x].
  rewrite Hd3, Hsum3, Hb3, Hn3, Hs3.
  fold number_of_streaks_.
  rewrite NPFIFOArray_run_update_cast by done.
  unfold final. cbn [fst snd NPFIFOArray._x NPFIFOArray.last_value].
  rewrite Hnsa. by split_and!.
Qed.

(** *** The block of [parse] with its two names bound *)

(** X16. The lookback of five bins, for [pulse_id_bin] bound to [k].
    When one of the last five bins has the key [k], no bin is appended
    and the row of the frame is the first of these five with the key.
    Otherwise, also when an older bin has the key, a bin with the key [k]
    is appended, every column grows by one element, and the row of the
    frame is the new one. *)
Theorem lookback_of_five_bins k lo metadata (is_hit_frame : bool) self :
  reachable self →
  let r := run (record (Globals (Some k) lo) metadata is_hit_frame) self in
  let bins := col (data self) "pulse_id_bins" in
  let bins' := col (data (final r)) "pulse_id_bins" in
  let recent := drop (length bins - 5) bins in
  let i := bin_row k (data self) in
  (Exists (λ c, eq_int k c = true) recent →
     bins' = bins
     ∧ (length bins - 5 ≤ i < length bins)%nat
     ∧ (∃ c, bins !! i = Some c ∧ eq_int k c = true)
     ∧ (∀ j c, (length bins - 5 ≤ j < i)%nat → bins !! j = Some c →
          eq_int k c = false))
  ∧ (Forall (λ c, eq_int k c = false) recent →
       bins' = bins ++ [PyInt k]
       ∧ i = length bins
       ∧ ∀ key, key ∈ columns →
           length (col (data (final r)) key) = S (length bins)).
Proof.
  intros Hwf%reachable_wf r bins bins' recent i.
  destruct (record_lookback k lo metadata is_hit_frame self Hwf)
    as [Hreuse Hnew].
  cbn zeta in Hreuse, Hnew. fold r bins bins' recent i in Hreuse, Hnew.
  split.
  - intros Hex. destruct (Hreuse Hex) as (Hb & Hi & Hc).
    split_and!; [done|lia|lia|done|].
    intros j c Hj Hjc. subst i. unfold bin_row in Hi, Hj. fold bins in Hi, Hj.
    destruct (list_index bins k (-5)) as [z|e] eqn:Hidx; [|lia].
    apply list_index_found in Hidx as (i0 & c0 & -> & _ & _ & _ & Hfirst).
    rewrite Nat2Z.id in Hj. by eapply Hfirst.
  - intros Hall. destruct (Hnew Hall) as (Hb & Hi & _).
    split_and!; [done..|].
    intros key Hk.
    pose proof (wf_record (Globals (Some k) lo) metadata is_hit_frame self Hwf)
      as [Hwf' _].
    fold r in Hwf'. rewrite (wf_rows _ Hwf' key Hk). fold bins'.
    rewrite Hb, length_app. cbn [length]. lia.
Qed.

(** X17. What the block counts, for [pulse_id_bin] bound to [k].  In the
    row of the frame, the frame count is one more than in the table with
    the bin found or appended, and the bad-frame count is one more
    exactly when the metadata has a good-frame flag that is false; the
    other rows keep both counts; the summary row counts the same. *)
Theorem block_counts_frame k lo metadata (is_hit_frame : bool) self :
  reachable self →
  let r := run (record (Globals (Some k) lo) metadata is_hit_frame) self in
  let i := bin_row k (data self) in
  let before := with_bin k (data self) in
  let flagged_bad :=
    match md_is_good_frame metadata with
    | Some false => true
    | _ => false
    end in
  (∃ c, cell_at before "nframes" i = Some c
        ∧ cell_at (data (final r)) "nframes" i = Some (py_succ c))
  ∧ (∃ c, cell_at before "bad_frames" i = Some c
          ∧ cell_at (data (final r)) "bad_frames" i
            = Some (if flagged_bad then py_succ c else c))
  ∧ (∀ j, j ≠ i →
       cell_at (data (final r)) "nframes" j = cell_at before "nframes" j
       ∧ cell_at (data (final r)) "bad_frames" j
         = cell_at before "bad_frames" j)
  ∧ (∃ n, cell_at (sum_data self) "nframes" 0 = Some (PyInt n)
          ∧ cell_at (sum_data (final r)) "nframes" 0 = Some (PyInt (n + 1)))
  ∧ (∃ n, cell_at (sum_data self) "bad_frames" 0 = Some (PyInt n)
          ∧ cell_at (sum_data (final r)) "bad_frames" 0
            = Some (PyInt (if flagged_bad then n + 1 else n))).
Proof.
  intros Hwf%reachable_wf.
  exact (record_counts_frame k lo metadata is_hit_frame self Hwf).
Qed.

Lemma with_bin_row_is_Some k self key :
  wf self → key ∈ columns →
  is_Some (cell_at (with_bin k (data self)) key (bin_row k (data self))).
Proof.
  intros Hwf Hk.
  pose proof (wf_data_with_bin k _ (proj1 Hwf)) as Hwfb.
  pose proof (bin_row_lt k _ (proj1 Hwf)) as Hlt.
  apply lookup_lt_is_Some. by rewrite (wf_rows _ Hwfb).
Qed.

(** X18. The other fields of the row of the frame, for [pulse_id_bin]
    bound to [k] and [laser_on] bound to [lo].  The block returns
    normally.  The count of frames with saturated pixels becomes NaN when
    the metadata has no [saturated_pixels], is one more when that is not
    0, and stays when it is 0.  When [laser_on] is [None] the six laser
    fields of the row become NaN.  Otherwise the frame count of the laser
    state is one more, its hit count is one more when the frame is a hit,
    and the three fields of the other laser state stay. *)
Theorem block_marks_and_laser k lo metadata (is_hit_frame : bool) self :
  reachable self →
  let r :=
    run (record (Globals (Some k) (Some lo)) metadata is_hit_frame) self in
  let i := bin_row k (data self) in
  let before key := cell_at (with_bin k (data self)) key i in
  let after key := cell_at (data (final r)) key i in
  result r = Ok tt
  ∧ after "sat_pix_nframes"
    = match md_saturated_pixels metadata with
      | None => Some PyNaN
      | Some saturated_pixels =>
          if saturated_pixels =? 0 then before "sat_pix_nframes"
          else py_succ <$> before "sat_pix_nframes"
      end
  ∧ match lo with
    | None =>
        ∀ key, key ∈ ["laser_on_nframes"; "laser_on_hits";
                      "laser_on_hits_ratio"; "laser_off_nframes";
                      "laser_off_hits"; "laser_off_hits_ratio"] →
               after key = Some PyNaN
    | Some laser_on =>
        let switch := if laser_on : bool then "laser_on" else "laser_off" in
        let other := if laser_on : bool then "laser_off" else "laser_on" in
        after (switch +:+ "_nframes")
        = py_succ <$> before (switch +:+ "_nframes")
        ∧ after (switch +:+ "_hits")
          = (if is_hit_frame then py_succ <$> before (switch +:+ "_hits")
             else before (switch +:+ "_hits"))
        ∧ ∀ suffix, suffix ∈ ["_nframes"; "_hits"; "_hits_ratio"] →
            after (other +:+ suffix) = before (other +:+ suffix)
    end.
Proof.
  intros Hwf%reachable_wf r i before after. subst r after before.
  rewrite run_record by done. cbn [g_pulse_id_bin g_laser_on]. cbn zeta.
  unfold result, final. cbn [fst snd]. fold i.
  split; [done|].
  assert (∀ key, key ∉ ["nframes"; "bad_frames"; "sat_pix_nframes"] →
            cell_at (data (record_counts k metadata self)) key i
            = cell_at (with_bin k (data self)) key i) as Hlaser.
  { intros key Hk. by apply cell_at_record_counts. }
  assert (cell_at (data (record_counts k metadata self)) "sat_pix_nframes" i
          = match md_saturated_pixels metadata with
            | None => Some PyNaN
            | Some saturated_pixels =>
                if saturated_pixels =? 0
                then cell_at (with_bin k (data self)) "sat_pix_nframes" i
                else py_succ
                       <$> cell_at (with_bin k (data self)) "sat_pix_nframes" i
            end) as Hsat.
  { destruct (with_bin_row_is_Some k self "sat_pix_nframes" Hwf
                ltac:(solve_key)) as [c Hc]. fold i in Hc.
    unfold record_counts, incr, mark. cbn zeta. fold i.
    destruct (md_is_good_frame metadata) as [[]|],
      (md_saturated_pixels metadata) as [sat|];
      try destruct (sat =? 0);
      cbn [negb data sum_data set_data set_sum_data];
      repeat first [ rewrite cell_at_alter_cell_ne by done
                   | rewrite cell_at_alter_cell_eq, decide_True by done ];
      by rewrite ?Hc. }
  split.
  - rewrite <- Hsat. unfold record_laser, incr, mark, recompute_ratio.
    destruct lo as [[]|], is_hit_frame;
      cbn [data sum_data set_data set_sum_data];
      by rewrite ?cell_at_alter_cell_ne by done.
  - destruct lo as [laser_on|].
    + cbn zeta. unfold record_laser, incr, recompute_ratio. cbn zeta.
      destruct laser_on, is_hit_frame; simpl_keys;
        cbn [data sum_data set_data set_sum_data];
        (split_and!; [| |intros suffix Hs; key_cases Hs; simpl_keys]);
        repeat first [ rewrite cell_at_alter_cell_ne by done
                     | rewrite cell_at_alter_cell_eq, decide_True by done ];
        by rewrite Hlaser by (intros Hin; key_cases Hin).
    + intros key Hk. unfold record_laser, mark.
      cbn [data sum_data set_data set_sum_data].
      assert (key ∈ columns) as Hcol by (key_cases Hk; solve_key).
      destruct (with_bin_row_is_Some k self key Hwf Hcol) as [c Hc].
      fold i in Hc.
      key_cases Hk;
        repeat first [ rewrite cell_at_alter_cell_ne by done
                     | rewrite cell_at_alter_cell_eq, decide_True by done ];
        by rewrite Hlaser, Hc by (intros Hin; key_cases Hin).
Qed.

(** *** Hits and frames in the table *)

Lemma hits_are_frames_cols d switch :
  hits_are_frames d → switch ∈ ["laser_on"; "laser_off"] →
  col d (switch +:+ "_hits") = col d (switch +:+ "_nframes").
Proof. intros Hd Hsw. apply list_eq. intros j. by apply Hd. Qed.

Lemma with_bin_hits_are_frames k d :
  wf_data d → hits_are_frames d → hits_are_frames (with_bin k d).
Proof.
  intros Hwf Hd. unfold with_bin.
  destruct (list_index _ _ _); [done|].
  intros switch j Hsw. unfold cell_at.
  assert (∀ key, key ∈ columns → key ∈ d.*1) as Hin.
  { intros key. by rewrite (wf_keys _ Hwf). }
  pose proof (hits_are_frames_cols d switch Hd Hsw) as Hcols.
  key_cases Hsw; simpl_keys;
    rewrite !col_append_items by (apply Hin; solve_key);
    by rewrite Hcols.
Qed.

Lemma record_counts_hits_are_frames k metadata self :
  wf self →
  hits_are_frames (data self) → hits_are_frames (sum_data self) →
  hits_are_frames (data (record_counts k metadata self))
  ∧ hits_are_frames (sum_data (record_counts k metadata self)).
Proof.
  intros Hwf Hd Hs.
  pose proof (with_bin_hits_are_frames k _ (proj1 Hwf) Hd) as Hb.
  assert (∀ key j, key ∉ ["nframes"; "bad_frames"; "sat_pix_nframes"] →
            cell_at (data (record_counts k metadata self)) key j
            = cell_at (with_bin k (data self)) key j) as Hrd.
  { intros key j Hk. by apply cell_at_record_counts. }
  assert (∀ key j, key ∉ ["nframes"; "bad_frames"; "sat_pix_nframes"] →
            cell_at (sum_data (record_counts k metadata self)) key j
            = cell_at (sum_data self) key j) as Hrs.
  { intros key j Hk. by apply cell_at_record_counts. }
  split; intros switch j Hsw.
  - pose proof (Hb switch j Hsw) as Hj.
    key_cases Hsw; simpl_keys;
      by rewrite !Hrd by (intros Hin; key_cases Hin).
  - pose proof (Hs switch j Hsw) as Hj.
    key_cases Hsw; simpl_keys;
      by rewrite !Hrs by (intros Hin; key_cases Hin).
Qed.

Lemma record_laser_hits_are_frames lo i self :
  hits_are_frames (data self) → hits_are_frames (sum_data self) →
  hits_are_frames (data (record_laser lo true i self))
  ∧ hits_are_frames (sum_data (record_laser lo true i self)).
Proof.
  intros Hd Hs.
  assert (∀ d, hits_are_frames d →
            (∀ j, cell_at d "laser_on_hits" j = cell_at d "laser_on_nframes" j)
            ∧ (∀ j, cell_at d "laser_off_hits" j
                    = cell_at d "laser_off_nframes" j)) as Hboth.
  { intros d H. split; intros j.
    - apply (H "laser_on"), list_elem_of_here.
    - apply (H "laser_off"), list_elem_of_further, list_elem_of_here. }
  destruct (Hboth _ Hd) as [Hd1 Hd2], (Hboth _ Hs) as [Hs1 Hs2].
  unfold record_laser, incr, mark, recompute_ratio.
  split; intros switch j Hsw; key_cases Hsw; simpl_keys;
    destruct lo as [[]|]; simpl_keys;
    cbn [data sum_data set_data set_sum_data];
    repeat first [ rewrite cell_at_alter_cell_ne by done
                 | rewrite cell_at_alter_cell_eq ];
    rewrite ?Hd1, ?Hd2, ?Hs1, ?Hs2; done.
Qed.

Lemma parse_preserves_hits_are_frames g metadata image :
  preserves (λ s, wf s ∧ hits_are_frames (data s)
                  ∧ hits_are_frames (sum_data s))
            (parse g metadata image).
Proof.
  unfold parse. case_decide; [apply preserves_log|].
  apply preserves_bind; [by apply preserves_zoom|intros _].
  destruct (default false (md_is_hit_frame metadata)); cbn [negb];
    [|apply preserves_log].
  repeat (apply preserves_bind; [by apply preserves_zoom|intros _]).
  intros s (Hwf & Hd & Hs). split; [by apply wf_record|].
  rewrite run_record by done.
  destruct (g_pulse_id_bin g) as [k|]; [|done]. cbn zeta.
  destruct (record_counts_hits_are_frames k metadata s Hwf Hd Hs)
    as [Hd' Hs'].
  destruct (g_laser_on g) as [lo|]; [|done].
  unfold final. cbn [fst snd]. by apply record_laser_hits_are_frames.
Qed.

(** X19. Hits are frames.  [parse] leaves before the block when the
    frame is not a hit, so the block counts a hit with every frame it
    counts for a laser state: in every state a handler can reach, in
    every bin and in the summary row, the hit count of a laser state is
    its frame count (both an int, or both NaN in a bin). *)
Theorem hits_are_frames_everywhere self :
  reachable self →
  ∀ switch, switch ∈ ["laser_on"; "laser_off"] →
    (∀ i, cell_at (data self) (switch +:+ "_hits") i
          = cell_at (data self) (switch +:+ "_nframes") i)
    ∧ cell_at (sum_data self) (switch +:+ "_hits") 0
      = cell_at (sum_data self) (switch +:+ "_nframes") 0.
Proof.
  intros Hreach.
  assert (hits_are_frames (data self) ∧ hits_are_frames (sum_data self))
    as [Hd Hs].
  { pose proof (reachable_wf self Hreach) as Hwf. revert Hwf.
    induction Hreach as [|g metadata image self Hr IH|self Hr IH|self Hr IH];
      intros Hwf.
    - split; intros switch j Hsw; key_cases Hsw; done.
    - pose proof (reachable_wf self Hr) as Hwf0.
      destruct (IH Hwf0) as [Hd Hs].
      by apply (parse_preserves_hits_are_frames g metadata image self).
    - pose proof (reachable_wf self Hr) as Hwf0.
      rewrite run_reset by done. unfold final. cbn [fst snd].
      split; intros switch j Hsw; key_cases Hsw; done.
    - pose proof (reachable_wf self Hr) as Hwf0.
      destruct (IH Hwf0) as [Hd Hs].
      assert (preserves (λ s, hits_are_frames (data s)
                              ∧ hits_are_frames (sum_data s))
                (clear (scalar := scalar))) as Hclear.
      { unfold clear.
        repeat (apply preserves_bind; [by apply preserves_zoom|intros _]).
        by apply preserves_zoom. }
      by apply Hclear. }
  intros switch Hsw. split; [intros i|]; [by apply Hd|by apply Hs].
Qed.

(** *** [reset], [clear] and [_increment] *)

Lemma run_clear self :
  run clear self =
  (Ok tt,
   Build (final (run NPFIFOArray.clear (number_of_streaks self)))
         (final (run NPFIFOArray.clear (streak_lengths self)))
         (final (run NPFIFOArray.clear (bragg_counts self)))
         (final (run AggregatorWithID.clear (bragg_aggregator self)))
         (data self) (sum_data self),
   []).
Proof. reflexivity. Qed.

(** X20. [reset] and [clear] are independent and together bring a
    handler back to its state as created, the last values aside: in a
    state that a handler can reach both return normally, the order of the
    two calls does not matter, and after them the table, the summary row,
    the slots of the four arrays, the identifiers and the cursor are those
    of a new handler, while the [last_value] of each array is still what
    it was. *)
Theorem reset_and_clear self :
  reachable self →
  let r := run (reset;; clear) self in
  result r = Ok tt
  ∧ run (clear;; reset) self = r
  ∧ data (final r) = data __init__
  ∧ sum_data (final r) = sum_data __init__
  ∧ NPFIFOArray._x (number_of_streaks (final r))
    = NPFIFOArray._x (number_of_streaks __init__)
  ∧ NPFIFOArray._x (streak_lengths (final r))
    = NPFIFOArray._x (streak_lengths __init__)
  ∧ NPFIFOArray._x (bragg_counts (final r))
    = NPFIFOArray._x (bragg_counts __init__)
  ∧ AggregatorWithID._x (bragg_aggregator (final r))
    = AggregatorWithID._x (bragg_aggregator __init__)
  ∧ AggregatorWithID._id (bragg_aggregator (final r))
    = AggregatorWithID._id (bragg_aggregator __init__)
  ∧ AggregatorWithID.last_processed_index (bragg_aggregator (final r)) = 0
  ∧ NPFIFOArray.last_value (number_of_streaks (final r))
    = NPFIFOArray.last_value (number_of_streaks self)
  ∧ NPFIFOArray.last_value (streak_lengths (final r))
    = NPFIFOArray.last_value (streak_lengths self)
  ∧ NPFIFOArray.last_value (bragg_counts (final r))
    = NPFIFOArray.last_value (bragg_counts self)
  ∧ AggregatorWithID.last_value (bragg_aggregator (final r))
    = AggregatorWithID.last_value (bragg_aggregator self).
Proof.
  intros Hreach r.
  pose proof (reachable_wf self Hreach) as Hwf.
  pose proof (clear_preserves_wf self Hwf) as Hwfc.
  destruct (reachable_wf_buffers self Hreach)
    as ((Hn & Hnn & _) & (Hs & Hsn & _) & (Hb & Hbn & _)
        & (Hx & Hi & Han & _)).
  assert (r = run clear
                (set_sum_data (sum_data __init__) (set_data empty_data self)))
    as Hr.
  { subst r. by rewrite (run_bind_Ok _ _ _ _ _ (run_reset self Hwf)). }
  assert (run (clear;; reset) self = r) as Hr'.
  { rewrite Hr, (run_bind_Ok _ _ _ _ _ (run_clear self)).
    rewrite run_clear in Hwfc. unfold final in Hwfc at 1. cbn [fst snd] in Hwfc.
    by rewrite (run_reset _ Hwfc). }
  cbn [number_of_streaks streak_lengths bragg_counts bragg_aggregator
       CBDStatisticsHandler.__init__ NPFIFOArray.__init__
       AggregatorWithID.__init__ NPFIFOArray._x NPFIFOArray._nan
       AggregatorWithID._x AggregatorWithID._id AggregatorWithID._nan]
    in Hn, Hnn, Hs, Hsn, Hb, Hbn, Hx, Hi, Han.
  rewrite length_replicate in Hn. rewrite length_replicate in Hs.
  rewrite length_replicate in Hb. rewrite length_replicate in Hx.
  rewrite length_replicate in Hi.
  split; [by rewrite Hr, run_clear|]. split; [done|].
  rewrite Hr, run_clear. unfold final at 1 2 3 4 5 6 7 8 9 10 11 12.
  cbn [fst snd number_of_streaks streak_lengths bragg_counts bragg_aggregator
       data sum_data set_data set_sum_data CBDStatisticsHandler.__init__
       NPFIFOArray.__init__ AggregatorWithID.__init__ NPFIFOArray._x
       AggregatorWithID._x AggregatorWithID._id].
  unfold NPFIFOArray.clear, AggregatorWithID.clear, run, final, mbind, M_bind,
    get, modify, fill.
  cbn [fst snd NPFIFOArray._x NPFIFOArray._nan NPFIFOArray.set_x
       NPFIFOArray.last_value AggregatorWithID._x AggregatorWithID._id
       AggregatorWithID._nan AggregatorWithID.last_value
       AggregatorWithID.last_processed_index AggregatorWithID.set_x
       AggregatorWithID.set_id AggregatorWithID.set_last_processed_index].
  rewrite Hn, Hnn, Hs, Hsn, Hb, Hbn, Hx, Hi, Han.
  split_and!; reflexivity.
Qed.

Lemma dict_get_missing (d : dict) key :
  key ∉ d.*1 → dict_get d key = Raise (KeyError key).
Proof.
  induction d as [|[k val] d IH]; [done|]. rewrite fmap_cons. cbn [fst dict_get].
  intros Hin. destruct (String.eqb_spec k key) as [->|Hne].
  - exfalso. apply Hin, list_elem_of_here.
  - apply IH. intros Hk. by apply Hin, list_elem_of_further.
Qed.

Lemma run_modify_or_raise_Raise {S} (f : S → outcome S) (s : S) e :
  f s = Raise e → run (modify_or_raise f) s = (Raise e, s, []).
Proof. unfold run, modify_or_raise. by intros ->. Qed.

(** X21. [_increment(key, ind)] in a state that a handler can reach.
    For a key that is no column it raises [KeyError]; for a column and an
    index outside the bins (any index when there is no bin) it raises
    [IndexError]; in both cases nothing has changed.  For a counter and
    an index inside the bins, negative ones counting from the last bin,
    it returns normally and has added one to the counter of that bin and
    to the same counter of the summary row, and to nothing else. *)
Theorem increment_cases key ind self :
  reachable self →
  let r := run (_increment key ind) self in
  let nbins := length (col (data self) "pulse_id_bins") in
  (key ∉ columns → r = (Raise (KeyError key), self, []))
  ∧ (key ∈ columns → py_index nbins ind = None →
       r = (Raise IndexError, self, []))
  ∧ (key ∈ counters → ∀ i, py_index nbins ind = Some i →
       result r = Ok tt
       ∧ cell_at (data (final r)) key i
         = py_succ <$> cell_at (data self) key i
       ∧ cell_at (sum_data (final r)) key 0
         = py_succ <$> cell_at (sum_data self) key 0
       ∧ (∀ key' j, ¬ (key' = key ∧ j = i) →
            cell_at (data (final r)) key' j = cell_at (data self) key' j)
       ∧ (∀ key' j, ¬ (key' = key ∧ j = 0%nat) →
            cell_at (sum_data (final r)) key' j
            = cell_at (sum_data self) key' j)
       ∧ buffers (final r) = buffers self).
Proof.
  intros Hwf%reachable_wf r nbins. subst r. split_and!.
  - intros Hk. unfold _increment.
    eapply run_bind_Raise, run_modify_or_raise_Raise.
    unfold table_get. rewrite dict_get_missing; [done|].
    by rewrite (wf_keys _ (proj1 Hwf)).
  - intros Hk Hind. unfold _increment.
    eapply run_bind_Raise, run_modify_or_raise_Raise.
    unfold table_get.
    rewrite dict_get_col by (by rewrite (wf_keys _ (proj1 Hwf))).
    unfold mbind, outcome_bind, getitem.
    rewrite (wf_rows _ (proj1 Hwf) key Hk). fold nbins. by rewrite Hind.
  - intros Hk i Hind. rewrite (run_increment key ind i self Hwf Hk Hind).
    unfold result, final, incr. cbn [fst snd data sum_data set_data
      set_sum_data]. split_and!; [done| | | | |done].
    + by rewrite cell_at_alter_cell_eq, decide_True.
    + by rewrite cell_at_alter_cell_eq, decide_True.
    + intros key' j Hne. rewrite cell_at_alter_cell.
      case_decide as Heq; [|done]. destruct Heq as [-> ->]. by destruct Hne.
    + intros key' j Hne. rewrite cell_at_alter_cell.
      case_decide as Heq; [|done]. destruct Heq as [-> <-]. by destruct Hne.
Qed.

(** X22. The float arrays of a handler never look empty.  Their empty
    value is NaN, which differs from every float, itself included
    ([ne v np_nan] is true for every [v]): in every state a handler can
    reach, [streak_lengths()] and [bragg_counts()] return all 50000
    slots, the empty ones with them, [count] of the Bragg aggregator is
    750000, and each of the three is true as a bool, also on a new
    handler and right after [clear]. *)
Theorem float_arrays_never_empty (ne : scalar → scalar → bool) self :
  (∀ v, ne v np_nan = true) →
  reachable self →
  NPFIFOArray.__call__ ne (streak_lengths self)
  = NPFIFOArray._x (streak_lengths self)
  ∧ NPFIFOArray.__call__ ne (bragg_counts self)
    = NPFIFOArray._x (bragg_counts self)
  ∧ Z.of_nat (length (NPFIFOArray.__call__ ne (streak_lengths self))) = 50000
  ∧ Z.of_nat (length (NPFIFOArray.__call__ ne (bragg_counts self))) = 50000
  ∧ Z.of_nat (AggregatorWithID.count ne (bragg_aggregator self)) = 750000
  ∧ NPFIFOArray.__bool__ ne (streak_lengths self) = true
  ∧ NPFIFOArray.__bool__ ne (bragg_counts self) = true
  ∧ AggregatorWithID.__bool__ ne (bragg_aggregator self) = true.
Proof.
  intros Hne Hreach.
  destruct (reachable_wf_buffers self Hreach)
    as (_ & (Hs & Hsn & _) & (Hb & Hbn & _) & (Hx & _ & Han & _)).
  cbn [streak_lengths bragg_counts bragg_aggregator
       CBDStatisticsHandler.__init__ NPFIFOArray.__init__
       AggregatorWithID.__init__ NPFIFOArray._x NPFIFOArray._nan
       AggregatorWithID._x AggregatorWithID._nan] in Hs, Hsn, Hb, Hbn, Hx, Han.
  rewrite length_replicate in Hs. rewrite length_replicate in Hb.
  rewrite length_replicate in Hx.
  unfold NPFIFOArray.__call__, NPFIFOArray.__bool__, AggregatorWithID.count,
    AggregatorWithID.__bool__.
  rewrite Hsn, Hbn, Han, !filter_ne_all by done.
  rewrite Hs, Hb, Hx, !Z2Nat.id by lia.
  split_and!; try done; apply existsb_ne_all; try done; intros Hnil.
  - rewrite Hnil in Hs. cbn in Hs. lia.
  - rewrite Hnil in Hb. cbn in Hb. lia.
  - rewrite Hnil in Hx. cbn in Hx. lia.
Qed.
End CBDStatisticsHandler_facts.

(** ** The theorems at concrete inputs *)

Lemma NPFIFOArray_update_shifts_witness :
  [7; 8] ≠ []
  ∧ (length [7; 8] ≤ length (NPFIFOArray._x example_fifo))%nat
  ∧ result (run (NPFIFOArray.update [7; 8]) example_fifo) = Ok tt
  ∧ take 2 (NPFIFOArray._x (final (run (NPFIFOArray.update [7; 8])
                                       example_fifo))) = [7; 8]
  ∧ drop 2 (NPFIFOArray._x (final (run (NPFIFOArray.update [7; 8])
                                       example_fifo))) = [4]
  ∧ NPFIFOArray.last_value (final (run (NPFIFOArray.update [7; 8])
                                       example_fifo)) = 15.
Proof.
  assert ([7; 8] ≠ @nil Z) as H1 by discriminate.
  assert (length [7; 8] ≤ length (NPFIFOArray._x example_fifo))%nat as H2
    by (simpl; lia).
  destruct (NPFIFOArray_update_shifts example_fifo [7; 8] H1 H2)
    as (Hr & _ & _ & Ht & Hd & Hl & _).
  split; [exact H1|]. split; [exact H2|]. split; [exact Hr|].
  split; [exact Ht|]. split; [exact Hd|]. exact Hl.
Defined.

Lemma AggregatorWithID_last_witness :
  AggregatorWithID._x example_aggregator ≠ []
  ∧ AggregatorWithID._id example_aggregator ≠ []
  ∧ fits_int64 42 = true
  ∧ run AggregatorWithID.last
        (final (run (AggregatorWithID.update [1; 2] (Some 42))
                    example_aggregator))
    = (Ok (3, 42),
       final (run (AggregatorWithID.update [1; 2] (Some 42))
                  example_aggregator), []).
Proof.
  assert (AggregatorWithID._x example_aggregator ≠ []) as H1 by discriminate.
  assert (AggregatorWithID._id example_aggregator ≠ []) as H2 by discriminate.
  assert (fits_int64 42 = true) as H3 by reflexivity.
  destruct (AggregatorWithID_last example_aggregator H1 H2) as (_ & Hlast & _).
  destruct (Hlast [1; 2] 42 H3) as [_ Hpair].
  split; [exact H1|]. split; [exact H2|]. split; [exact H3|]. exact Hpair.
Defined.

(** C8 as stated fails: an aggregator as created holds no valid entry, and
    [last] returns the empty value with identifier 0 instead of signalling
    an error. *)
Lemma AggregatorWithID_last_of_empty_returns :
  AggregatorWithID.__bool__ Z_ne example_new_aggregator = false
  ∧ AggregatorWithID.count Z_ne example_new_aggregator = 0%nat
  ∧ run AggregatorWithID.last example_new_aggregator
    = (Ok (-1, 0), example_new_aggregator, []).
Proof. split_and!; reflexivity. Qed.

Lemma record_hit_ratio_witness :
  CBDStatisticsHandler.reachable num_sum num_average None num_of_int
    example_handler
  ∧ result (run (CBDStatisticsHandler.record
                   (Globals (Some 1) (Some (Some true)))
                   example_metadata true) example_handler) = Ok tt
  ∧ ratio_is_quotient
      (CBDStatisticsHandler.data
         (final (run (CBDStatisticsHandler.record
                        (Globals (Some 1) (Some (Some true)))
                        example_metadata true) example_handler)))
      "laser_on" 0
  ∧ ratio_is_quotient
      (CBDStatisticsHandler.sum_data
         (final (run (CBDStatisticsHandler.record
                        (Globals (Some 1) (Some (Some true)))
                        example_metadata true) example_handler)))
      "laser_on" 0.
Proof.
  assert (CBDStatisticsHandler.reachable num_sum num_average None num_of_int
            example_handler) as H.
  { unfold example_handler. apply CBDStatisticsHandler.reachable_init. }
  destruct (record_hit_ratio num_sum num_average None num_of_int
              1 true example_metadata true example_handler H)
    as (Hr & Hd & Hs & _).
  split; [exact H|]. split; [exact Hr|]. split; [exact Hd|exact Hs].
Defined.


Lemma reset_empties_table_witness :
  CBDStatisticsHandler.reachable num_sum num_average None num_of_int
    example_marked_handler
  ∧ result (run CBDStatisticsHandler.reset example_marked_handler) = Ok tt
  ∧ CBDStatisticsHandler.data
      (final (run CBDStatisticsHandler.reset example_marked_handler))
    = CBDStatisticsHandler.empty_data
  ∧ col (CBDStatisticsHandler.sum_data
           (final (run CBDStatisticsHandler.reset example_marked_handler)))
        "pulse_id_bins" = [PyStr "Summary"].
Proof.
  assert (CBDStatisticsHandler.reachable num_sum num_average None num_of_int
            example_marked_handler) as H1.
  { unfold example_marked_handler, example_handler.
    apply CBDStatisticsHandler.reachable_parse,
      CBDStatisticsHandler.reachable_init. }
  destruct (reset_empties_table num_sum num_average None num_of_int
              example_marked_handler H1) as (Hr & Hd & _ & _ & Hk & _).
  split; [exact H1|]. split; [exact Hr|]. split; [exact Hd|exact Hk].
Defined.


(** ** The further properties at concrete inputs *)

Lemma NPFIFOArray_update_oversize_witness :
  (0 < length (NPFIFOArray._x example_fifo) < length [1; 2; 3; 4])%nat
  ∧ result (run (NPFIFOArray.update [1; 2; 3; 4]) example_fifo)
    = Raise ValueError
  ∧ NPFIFOArray._x (final (run (NPFIFOArray.update [1; 2; 3; 4])
                               example_fifo)) = [-1; 4; 5].
Proof.
  assert (0 < length (NPFIFOArray._x example_fifo) < length [1; 2; 3; 4])%nat
    as H by (simpl; lia).
  destruct (NPFIFOArray_update_oversize example_fifo [1; 2; 3; 4] H)
    as (Hr & Hx & _).
  split; [exact H|]. split; [exact Hr|exact Hx].
Defined.

Lemma NPFIFOArray_update_twice_witness :
  (length [7] + length [8; 9] ≤ length (NPFIFOArray._x example_fifo))%nat
  ∧ NPFIFOArray._x (final (run (NPFIFOArray.update [7];;
                                NPFIFOArray.update [8; 9]) example_fifo))
    = [8; 9; 7]
  ∧ NPFIFOArray.last_value (final (run (NPFIFOArray.update [7];;
                                        NPFIFOArray.update [8; 9])
                                       example_fifo)) = 17.
Proof.
  assert (length [7] + length [8; 9]
          ≤ length (NPFIFOArray._x example_fifo))%nat as H by (simpl; lia).
  destruct (NPFIFOArray_update_twice example_fifo [7] [8; 9] H)
    as (_ & Hx & _ & Hl).
  split; [exact H|]. split; [exact Hx|exact Hl].
Defined.

Lemma NPFIFOArray_empty_witness :
  Z_ne (NPFIFOArray._nan example_fifo) (NPFIFOArray._nan example_fifo) = false
  ∧ NPFIFOArray.__bool__ Z_ne (final (run NPFIFOArray.clear example_fifo))
    = false
  ∧ NPFIFOArray.min Z_ne Z.min (final (run NPFIFOArray.clear example_fifo))
    = Raise ValueError.
Proof.
  assert (Z_ne (NPFIFOArray._nan example_fifo) (NPFIFOArray._nan example_fifo)
          = false) as H by reflexivity.
  destruct (NPFIFOArray_empty Z_ne Z.min Z.max example_fifo H) as [Hnew _].
  destruct (Hnew _ (or_introl eq_refl)) as (Hb & _ & Hmin & _).
  split; [exact H|]. split; [exact Hb|exact Hmin].
Defined.

Lemma NPFIFOArray_min_max_int_witness :
  NPFIFOArray.__bool__ Z_ne example_fifo = true
  ∧ ∃ lo hi,
      NPFIFOArray.min Z_ne Z.min example_fifo = Ok lo
      ∧ NPFIFOArray.max Z_ne Z.max example_fifo = Ok hi
      ∧ lo ∈ NPFIFOArray.__call__ Z_ne example_fifo
      ∧ hi ∈ NPFIFOArray.__call__ Z_ne example_fifo
      ∧ ∀ v, v ∈ NPFIFOArray.__call__ Z_ne example_fifo → lo ≤ v ≤ hi.
Proof.
  assert (NPFIFOArray.__bool__ Z_ne example_fifo = true) as H by reflexivity.
  split; [exact H|]. exact (NPFIFOArray_min_max_int example_fifo H).
Defined.

Lemma NPFIFOArray_nan_sentinel_witness :
  NPFIFOArray._nan example_float_fifo = None
  ∧ NPFIFOArray.__call__ num_ne example_float_fifo
    = [Some 2%Q; None; None]
  ∧ NPFIFOArray.min num_ne num_minimum example_float_fifo = Ok None.
Proof.
  assert (NPFIFOArray._nan example_float_fifo = None) as H by reflexivity.
  destruct (NPFIFOArray_nan_sentinel example_float_fifo H)
    as (Hcall & _ & Hmin & _).
  split; [exact H|]. split; [exact Hcall|].
  apply Hmin. apply list_elem_of_further, list_elem_of_here.
Defined.

Lemma AggregatorWithID_drain_newest_witness :
  AggregatorWithID._x example_new_aggregator ≠ []
  ∧ length (AggregatorWithID._x example_new_aggregator)
    = length (AggregatorWithID._id example_new_aggregator)
  ∧ AggregatorWithID.last_processed_index example_new_aggregator = 0
  ∧ example_frames ≠ []
  ∧ Forall (λ f, fits_int64 f.2 = true) example_frames
  ∧ AggregatorWithID.__bool__ Z_ne
      (final (run (AggregatorWithID.update_all example_frames)
                  example_new_aggregator)) = true
  ∧ result (run (AggregatorWithID.__call__ Z_ne)
                (final (run (AggregatorWithID.update_all example_frames)
                            example_new_aggregator)))
    = Ok ([3; 4; 10], [11; 12; 13]).
Proof.
  assert (AggregatorWithID._x example_new_aggregator ≠ []) as H1
    by discriminate.
  assert (length (AggregatorWithID._x example_new_aggregator)
          = length (AggregatorWithID._id example_new_aggregator)) as H2
    by reflexivity.
  assert (AggregatorWithID.last_processed_index example_new_aggregator = 0)
    as H3 by reflexivity.
  assert (example_frames ≠ []) as H4 by discriminate.
  assert (AggregatorWithID.__bool__ Z_ne
            (final (run (AggregatorWithID.update_all example_frames)
                        example_new_aggregator)) = true) as H5
    by reflexivity.
  assert (Forall (λ f, fits_int64 f.2 = true) example_frames) as H6
    by (repeat constructor).
  split; [exact H1|]. split; [exact H2|]. split; [exact H3|].
  split; [exact H4|]. split; [exact H6|]. split; [exact H5|].
  exact (proj1 (proj2 (AggregatorWithID_drain_newest Z_ne
                         example_new_aggregator example_frames
                         H1 H2 H3 H4 H6 H5))).
Defined.

Lemma table_invariant_witness :
  CBDStatisticsHandler.reachable num_sum num_average None num_of_int
    example_marked_handler
  ∧ (CBDStatisticsHandler.data example_marked_handler).*1
    = CBDStatisticsHandler.columns
  ∧ col (CBDStatisticsHandler.sum_data example_marked_handler)
        "pulse_id_bins" = [PyStr "Summary"].
Proof.
  assert (CBDStatisticsHandler.reachable num_sum num_average None num_of_int
            example_marked_handler) as H.
  { unfold example_marked_handler, example_handler.
    apply CBDStatisticsHandler.reachable_parse,
      CBDStatisticsHandler.reachable_init. }
  destruct (table_invariant num_sum num_average None num_of_int
              example_marked_handler H) as (Hk & _ & _ & _ & Hs & _).
  split; [exact H|]. split; [exact Hk|exact Hs].
Defined.

Lemma arrays_keep_their_sizes_witness :
  CBDStatisticsHandler.reachable num_sum num_average None num_of_int
    example_marked_handler
  ∧ Z.of_nat (length (NPFIFOArray._x
       (CBDStatisticsHandler.number_of_streaks example_marked_handler)))
    = 5000
  ∧ Z.of_nat (length (AggregatorWithID._x
       (CBDStatisticsHandler.bragg_aggregator example_marked_handler)))
    = 750000.
Proof.
  assert (CBDStatisticsHandler.reachable num_sum num_average None num_of_int
            example_marked_handler) as H.
  { unfold example_marked_handler, example_handler.
    apply CBDStatisticsHandler.reachable_parse,
      CBDStatisticsHandler.reachable_init. }
  destruct (arrays_keep_their_sizes num_sum num_average None num_of_int
              example_marked_handler H)
    as (Hn & _ & _ & _ & _ & _ & Hx & _).
  split; [exact H|]. split; [exact Hn|exact Hx].
Defined.

Lemma parse_hit_updates_arrays_witness :
  CBDStatisticsHandler.reachable num_sum num_average None num_of_int
    example_handler
  ∧ shape example_image ≠ [2; 2]%nat
  ∧ default false (md_is_hit_frame example_metadata) = true
  ∧ (∀ pid, md_pulse_id example_metadata = Some pid → fits_int64 pid = true)
  ∧ - 2 ^ 63 ≤ default 0 (md_number_of_streaks example_metadata) < 2 ^ 64
  ∧ Z.of_nat (length (default [num_of_int 0]
                        (md_streak_lengths example_metadata))) ≤ 50000
  ∧ NPFIFOArray.last_value
      (CBDStatisticsHandler.bragg_counts
         (final (run (CBDStatisticsHandler.parse num_sum num_of_int
                        module_globals example_metadata example_image)
                     example_handler)))
    = num_sum [num_sum [Some 2%Q; Some 3%Q]]
  ∧ NPFIFOArray.last_value
      (CBDStatisticsHandler.streak_lengths
         (final (run (CBDStatisticsHandler.parse num_sum num_of_int
                        module_globals example_metadata example_image)
                     example_handler)))
    = num_average [Some 7%Q; Some 9%Q].
Proof.
  assert (CBDStatisticsHandler.reachable num_sum num_average None num_of_int
            example_handler) as H1.
  { unfold example_handler. apply CBDStatisticsHandler.reachable_init. }
  assert (shape example_image ≠ [2; 2]%nat) as H2 by discriminate.
  assert (default false (md_is_hit_frame example_metadata) = true) as H3
    by reflexivity.
  assert (Z.of_nat (length (default [num_of_int 0]
                              (md_streak_lengths example_metadata)))
          ≤ 50000) as H4 by (simpl; lia).
  assert (∀ pid, md_pulse_id example_metadata = Some pid
                 → fits_int64 pid = true) as H5.
  { intros pid Hpid. injection Hpid as <-. reflexivity. }
  assert (- 2 ^ 63 ≤ default 0 (md_number_of_streaks example_metadata)
          < 2 ^ 64) as H6 by (simpl; lia).
  destruct (parse_hit_updates_arrays num_sum num_average None num_of_int
              module_globals example_metadata example_image example_handler
              H1 H2 H3 H5 H6 H4) as (_ & Hb & _ & _ & _ & Hs).
  split; [exact H1|]. split; [exact H2|]. split; [exact H3|].
  split; [exact H5|]. split; [exact H6|].
  split; [exact H4|]. split; [exact Hb|exact Hs].
Defined.

Lemma parse_too_many_streaks_witness :
  CBDStatisticsHandler.reachable num_sum num_average None num_of_int
    example_handler
  ∧ shape example_image ≠ [2; 2]%nat
  ∧ default false (md_is_hit_frame example_long_metadata) = true
  ∧ (∀ pid, md_pulse_id example_long_metadata = Some pid
            → fits_int64 pid = true)
  ∧ - 2 ^ 63 ≤ default 0 (md_number_of_streaks example_long_metadata)
    < 2 ^ 64
  ∧ 50000 < Z.of_nat (length (default [num_of_int 0]
                                (md_streak_lengths example_long_metadata)))
  ∧ result (run (CBDStatisticsHandler.parse num_sum num_of_int
                   module_globals example_long_metadata example_image)
                example_handler) = Raise ValueError.
Proof.
  assert (CBDStatisticsHandler.reachable num_sum num_average None num_of_int
            example_handler) as H1.
  { unfold example_handler. apply CBDStatisticsHandler.reachable_init. }
  assert (shape example_image ≠ [2; 2]%nat) as H2 by discriminate.
  assert (default false (md_is_hit_frame example_long_metadata) = true) as H3
    by reflexivity.
  assert (50000 < Z.of_nat (length (default [num_of_int 0]
                              (md_streak_lengths example_long_metadata))))
    as H4 by (vm_compute; reflexivity).
  assert (∀ pid, md_pulse_id example_long_metadata = Some pid
                 → fits_int64 pid = true) as H5.
  { intros pid Hpid. injection Hpid as <-. reflexivity. }
  assert (- 2 ^ 63 ≤ default 0 (md_number_of_streaks example_long_metadata)
          < 2 ^ 64) as H6 by (simpl; lia).
  split; [exact H1|]. split; [exact H2|]. split; [exact H3|].
  split; [exact H5|]. split; [exact H6|]. split; [exact H4|].
  exact (proj1 (parse_too_many_streaks num_sum num_average None num_of_int
                  module_globals example_long_metadata example_image
                  example_handler H1 H2 H3 H5 H6 H4)).
Defined.

Lemma lookback_of_five_bins_witness :
  CBDStatisticsHandler.reachable num_sum num_average None num_of_int
    example_marked_handler
  ∧ Exists (λ c, eq_int 1 c = true)
      (drop (length (col (CBDStatisticsHandler.data example_marked_handler)
                         "pulse_id_bins") - 5)
            (col (CBDStatisticsHandler.data example_marked_handler)
                 "pulse_id_bins"))
  ∧ col (CBDStatisticsHandler.data
           (final (run (CBDStatisticsHandler.record
                          (Globals (Some 1) (Some (Some true)))
                          example_saturated_metadata true)
                       example_marked_handler))) "pulse_id_bins"
    = col (CBDStatisticsHandler.data example_marked_handler) "pulse_id_bins".
Proof.
  assert (CBDStatisticsHandler.reachable num_sum num_average None num_of_int
            example_marked_handler) as H1.
  { unfold example_marked_handler, example_handler.
    apply CBDStatisticsHandler.reachable_parse,
      CBDStatisticsHandler.reachable_init. }
  assert (Exists (λ c, eq_int 1 c = true)
            (drop (length (col (CBDStatisticsHandler.data
                                  example_marked_handler)
                               "pulse_id_bins") - 5)
                  (col (CBDStatisticsHandler.data example_marked_handler)
                       "pulse_id_bins"))) as H2.
  { assert (col (CBDStatisticsHandler.data example_marked_handler)
                "pulse_id_bins" = [PyInt 1]) as -> by (vm_compute; reflexivity).
    apply Exists_cons_hd. reflexivity. }
  destruct (lookback_of_five_bins num_sum num_average None num_of_int
              1 (Some (Some true)) example_saturated_metadata true
              example_marked_handler H1) as [Hreuse _].
  split; [exact H1|]. split; [exact H2|]. exact (proj1 (Hreuse H2)).
Defined.

Lemma block_counts_frame_witness :
  CBDStatisticsHandler.reachable num_sum num_average None num_of_int
    example_handler
  ∧ ∃ n, cell_at (CBDStatisticsHandler.sum_data example_handler) "nframes" 0
         = Some (PyInt n)
         ∧ cell_at (CBDStatisticsHandler.sum_data
                      (final (run (CBDStatisticsHandler.record
                                     (Globals (Some 1) (Some None))
                                     example_metadata true)
                                  example_handler))) "nframes" 0
           = Some (PyInt (n + 1)).
Proof.
  assert (CBDStatisticsHandler.reachable num_sum num_average None num_of_int
            example_handler) as H.
  { unfold example_handler. apply CBDStatisticsHandler.reachable_init. }
  destruct (block_counts_frame num_sum num_average None num_of_int
              1 (Some None) example_metadata true example_handler H)
    as (_ & _ & _ & Hn & _).
  split; [exact H|exact Hn].
Defined.

Lemma block_marks_and_laser_witness :
  CBDStatisticsHandler.reachable num_sum num_average None num_of_int
    example_handler
  ∧ result (run (CBDStatisticsHandler.record (Globals (Some 1) (Some None))
                   example_metadata true) example_handler) = Ok tt
  ∧ cell_at (CBDStatisticsHandler.data
               (final (run (CBDStatisticsHandler.record
                              (Globals (Some 1) (Some None))
                              example_metadata true) example_handler)))
            "sat_pix_nframes"
            (CBDStatisticsHandler.bin_row 1
               (CBDStatisticsHandler.data example_handler))
    = Some PyNaN.
Proof.
  assert (CBDStatisticsHandler.reachable num_sum num_average None num_of_int
            example_handler) as H.
  { unfold example_handler. apply CBDStatisticsHandler.reachable_init. }
  destruct (block_marks_and_laser num_sum num_average None num_of_int
              1 None example_metadata true example_handler H)
    as (Hr & Hsat & _).
  split; [exact H|]. split; [exact Hr|exact Hsat].
Defined.

Lemma hits_are_frames_everywhere_witness :
  CBDStatisticsHandler.reachable num_sum num_average None num_of_int
    example_marked_handler
  ∧ "laser_on" ∈ ["laser_on"; "laser_off"]
  ∧ cell_at (CBDStatisticsHandler.sum_data example_marked_handler)
            ("laser_on" +:+ "_hits") 0
    = cell_at (CBDStatisticsHandler.sum_data example_marked_handler)
              ("laser_on" +:+ "_nframes") 0.
Proof.
  assert (CBDStatisticsHandler.reachable num_sum num_average None num_of_int
            example_marked_handler) as H1.
  { unfold example_marked_handler, example_handler.
    apply CBDStatisticsHandler.reachable_parse,
      CBDStatisticsHandler.reachable_init. }
  assert ("laser_on" ∈ ["laser_on"; "laser_off"]) as H2
    by apply list_elem_of_here.
  split; [exact H1|]. split; [exact H2|].
  exact (proj2 (hits_are_frames_everywhere num_sum num_average None num_of_int
                  example_marked_handler H1 "laser_on" H2)).
Defined.

Lemma reset_and_clear_witness :
  CBDStatisticsHandler.reachable num_sum num_average None num_of_int
    example_marked_handler
  ∧ run (CBDStatisticsHandler.clear;; CBDStatisticsHandler.reset)
        example_marked_handler
    = run (CBDStatisticsHandler.reset;; CBDStatisticsHandler.clear)
          example_marked_handler
  ∧ CBDStatisticsHandler.data
      (final (run (CBDStatisticsHandler.reset;; CBDStatisticsHandler.clear)
                  example_marked_handler))
    = CBDStatisticsHandler.empty_data.
Proof.
  assert (CBDStatisticsHandler.reachable num_sum num_average None num_of_int
            example_marked_handler) as H.
  { unfold example_marked_handler, example_handler.
    apply CBDStatisticsHandler.reachable_parse,
      CBDStatisticsHandler.reachable_init. }
  destruct (reset_and_clear num_sum num_average None num_of_int
              example_marked_handler H) as (_ & Hc & Hd & _).
  split; [exact H|]. split; [exact Hc|exact Hd].
Defined.

Lemma increment_cases_witness :
  CBDStatisticsHandler.reachable num_sum num_average None num_of_int
    example_handler
  ∧ "nframes" ∈ CBDStatisticsHandler.columns
  ∧ py_index (length (col (CBDStatisticsHandler.data example_handler)
                          "pulse_id_bins")) (-1) = None
  ∧ run (CBDStatisticsHandler._increment "nframes" (-1)) example_handler
    = (Raise IndexError, example_handler, []).
Proof.
  assert (CBDStatisticsHandler.reachable num_sum num_average None num_of_int
            example_handler) as H1.
  { unfold example_handler. apply CBDStatisticsHandler.reachable_init. }
  assert ("nframes" ∈ CBDStatisticsHandler.columns) as H2
    by apply list_elem_of_further, list_elem_of_here.
  assert (py_index (length (col (CBDStatisticsHandler.data example_handler)
                                "pulse_id_bins")) (-1) = None) as H3
    by reflexivity.
  destruct (increment_cases num_sum num_average None num_of_int
              "nframes" (-1) example_handler H1) as (_ & Hi & _).
  split; [exact H1|]. split; [exact H2|]. split; [exact H3|].
  exact (Hi H2 H3).
Defined.

Lemma float_arrays_never_empty_witness :
  (∀ v, num_ne v None = true)
  ∧ CBDStatisticsHandler.reachable num_sum num_average None num_of_int
      example_handler
  ∧ Z.of_nat (AggregatorWithID.count num_ne
                (CBDStatisticsHandler.bragg_aggregator example_handler))
    = 750000
  ∧ NPFIFOArray.__bool__ num_ne
      (CBDStatisticsHandler.streak_lengths example_handler) = true.
Proof.
  assert (∀ v, num_ne v None = true) as H1 by (intros []; reflexivity).
  assert (CBDStatisticsHandler.reachable num_sum num_average None num_of_int
            example_handler) as H2.
  { unfold example_handler. apply CBDStatisticsHandler.reachable_init. }
  destruct (float_arrays_never_empty num_sum num_average None num_of_int
              num_ne example_handler H1 H2)
    as (_ & _ & _ & _ & Hc & Hb & _).
  split; [exact H1|]. split; [exact H2|]. split; [exact Hc|exact Hb].
Defined.
